(** * TrainingTimer: the countdown engine of [timer_v0.2.2.py]

    A shallow embedding of the [TerminalTimer] class: the notification
    scheduler ([play_time_notification]), the pause toggle, the countdown
    loop with its exception handlers, the session log updates and the
    background reminder thread.

    Conventions.
    - Python [int]s are [Z]; [//] is [Z.div] (both round towards minus
      infinity).
    - Time is counted in ticks of 0.1 second, the granularity of every
      busy-wait of the program: [time.sleep(1)] is 10 ticks,
      [time.sleep(0.1)] is 1 tick, [time.sleep(5 * 60)] is 3000 ticks.
    - Audio clips are named by a constructor; the file each one stands for
      is given next to it. *)

From Stdlib Require Import ZArith List Bool String Ascii Lia.
Import ListNotations.
Open Scope Z_scope.

(** ** Audio clips and the audio environment *)

Inductive clip : Type :=
| ClipHalf       (* voice/종료50%전.mp3 *)
| Clip15min      (* voice/종료15분전.mp3 *)
| Clip10min      (* voice/종료10분전.mp3 *)
| Clip5min       (* voice/종료5분전.mp3 *)
| Clip3min       (* voice/종료3분전.mp3 *)
| Clip1min       (* voice/종료1분전.mp3 *)
| Clip30sec      (* voice/종료30초전.mp3 *)
| Clip10sec      (* voice/종료10초전.mp3 *)
| ClipBeep       (* voice/비프음.mp3 *)
| ClipFinished   (* voice/타이머종료.mp3 *)
| ClipReminder.  (* voice/타이머를다시설정해.mp3 *)

(** What the file system and the mixer do with a clip: [os.path.exists]
    is false ([Missing]), or the file is there and [pygame.mixer.music.load]
    accepts it ([Playable]) or raises ([Corrupt]). *)
Inductive clip_status : Type := Playable | Missing | Corrupt.

Record audio_env : Type := {
  status_of : clip -> clip_status;
  length_of : clip -> nat          (* playback length, in ticks *)
}.

(** The calls a function makes on [pygame.mixer.music], in order. *)
Inductive audio_op : Type :=
| Load (c : clip)          (* music.load(file), accepted *)
| LoadRaises (c : clip)    (* music.load(file) raised *)
| Play (c : clip)          (* music.play() *)
| WaitIdle (c : clip)      (* while music.get_busy(): time.sleep(0.1) *)
| ReportError              (* print of the except branch *)
| ReportMissing (c : clip). (* print of play_sound's else branch *)

(** ** NotificationScheduler *)

(** [is_overlapping_with_other_notifications]. *)
Definition notification_times : list Z :=
  [15 * 60; 10 * 60; 5 * 60; 3 * 60; 1 * 60; 30; 10].

Definition is_overlapping_with_other_notifications (remaining_seconds : Z) : bool :=
  existsb (Z.eqb remaining_seconds) notification_times.

(** One guarded block of [play_time_notification]:
<<
    if os.path.exists(file):
        pygame.mixer.music.load(file)
        <rest>
        return
>>
    When the file is missing the control falls through to [otherwise]; when
    [load] raises, the enclosing [except Exception] prints and the function
    returns. *)
Definition guarded (env : audio_env) (c : clip)
    (rest otherwise : list audio_op) : list audio_op :=
  match status_of env c with
  | Playable => Load c :: rest
  | Missing => otherwise
  | Corrupt => [LoadRaises c; ReportError]
  end.

Definition once (c : clip) : list audio_op := [Play c].
Definition twice (c : clip) : list audio_op := [Play c; WaitIdle c; Play c].

(** [play_time_notification], read bottom-up: each [let] is the part of the
    function that follows the previous test. *)
Definition play_time_notification (env : audio_env)
    (remaining_seconds total_seconds : Z) : list audio_op :=
  let half_time := total_seconds / 2 in
  let at_10sec :=
    if remaining_seconds =? 10
    then guarded env Clip10sec (once Clip10sec) [] else [] in
  let at_30sec :=
    if remaining_seconds =? 30
    then guarded env Clip30sec (once Clip30sec) at_10sec else at_10sec in
  let at_1min :=
    if remaining_seconds =? 1 * 60
    then guarded env Clip1min (twice Clip1min) at_30sec else at_30sec in
  let at_3min :=
    if remaining_seconds =? 3 * 60
    then guarded env Clip3min (twice Clip3min) at_1min else at_1min in
  let at_5min :=
    if remaining_seconds =? 5 * 60
    then guarded env Clip5min (once Clip5min) at_3min else at_3min in
  let at_10min :=
    if remaining_seconds =? 10 * 60
    then guarded env Clip10min (once Clip10min) at_5min else at_5min in
  let at_15min :=
    if (remaining_seconds =? 15 * 60) && (total_seconds >=? 30 * 60)
    then guarded env Clip15min (once Clip15min) at_10min else at_10min in
  if remaining_seconds =? half_time
  then
    if negb (is_overlapping_with_other_notifications remaining_seconds)
    then guarded env ClipHalf (once ClipHalf) at_15min
    else at_15min
  else at_15min.

(** The clips a run of audio calls started: one entry per accepted [load]. *)
Fixpoint fired (ops : list audio_op) : list clip :=
  match ops with
  | [] => []
  | Load c :: rest => c :: fired rest
  | _ :: rest => fired rest
  end.

(** How many times [play] was called. *)
Fixpoint plays (ops : list audio_op) : nat :=
  match ops with
  | [] => 0%nat
  | Play _ :: rest => S (plays rest)
  | _ :: rest => plays rest
  end.

(** The notification a call selected, with its repeat count. *)
Definition selected (ops : list audio_op) : option (clip * nat) :=
  match fired ops with
  | c :: _ => Some (c, plays ops)
  | [] => None
  end.

Definition all_playable (env : audio_env) : Prop :=
  forall c, status_of env c = Playable.

(** *** The scheduler as the specification words it

    A fixed table, read first, then the dynamic half-duration threshold;
    the first match plays. *)
Record threshold : Type := {
  remaining_at : Z;
  notification_id : clip;
  repeat_count : nat;
  min_total : option Z      (* the entry applies only if total >= that *)
}.

Definition fixed_table : list threshold :=
  [ {| remaining_at := 15 * 60; notification_id := Clip15min;
       repeat_count := 1; min_total := Some (30 * 60) |};
    {| remaining_at := 10 * 60; notification_id := Clip10min;
       repeat_count := 1; min_total := None |};
    {| remaining_at := 5 * 60; notification_id := Clip5min;
       repeat_count := 1; min_total := None |};
    {| remaining_at := 3 * 60; notification_id := Clip3min;
       repeat_count := 2; min_total := None |};
    {| remaining_at := 1 * 60; notification_id := Clip1min;
       repeat_count := 2; min_total := None |};
    {| remaining_at := 30; notification_id := Clip30sec;
       repeat_count := 1; min_total := None |};
    {| remaining_at := 10; notification_id := Clip10sec;
       repeat_count := 1; min_total := None |} ].

Definition fixed_values : list Z := map remaining_at fixed_table.

Definition matches (remaining total : Z) (t : threshold) : bool :=
  (remaining =? remaining_at t)
  && match min_total t with Some m => total >=? m | None => true end.

Definition spec_check (remaining total : Z) : option (clip * nat) :=
  match find (matches remaining total) fixed_table with
  | Some t => Some (notification_id t, repeat_count t)
  | None =>
      if (remaining =? total / 2)
         && negb (existsb (Z.eqb (total / 2)) fixed_values)
      then Some (ClipHalf, 1%nat) else None
  end.

(** ** The state of the program and of its surroundings *)

(** Input mode of the terminal: line-buffered, or single-keystroke
    ([tty.setcbreak]). *)
Inductive tty_mode : Type := Cooked | Cbreak.

(** ['status'] of a log entry: ['시작'], ['완료'], ['중지']. *)
Inductive log_status : Type := StatusStarted | StatusCompleted | StatusStopped.

(** One dictionary of [logs/timer_log.json].  The keys that only repeat
    another one in a printable form are left out. *)
Record log_entry : Type := {
  number : option Z;               (* log.get('number') *)
  datetime : nat;
  timer_duration : Z;
  task : option string;            (* None: the placeholder '(업무 없음)' *)
  status : log_status;
  completed : bool;
  logged_remaining : option Z;     (* 'remaining_seconds' *)
  completed_datetime : option nat;
  stopped_datetime : option nat
}.

(** The log file, by what [_load_logs] (lines 100-108) meets when it reads it:
    - [LogAbsent]: [os.path.exists] is false;
    - [LogUnreadable]: the file exists and reading it raises one of the two
      exceptions the [except] clause of line 107 names, that is, [open] or
      the read raises [IOError] (an alias of [OSError]: no permission, a
      directory, an I/O error) or [json.load] raises [json.JSONDecodeError]
      (text that is not JSON);
    - [LogContent logs]: the file holds a JSON list of entries.
    Nothing else is caught there.  A file whose bytes are not UTF-8 makes
    [json.load] raise [UnicodeDecodeError], a [ValueError] that is neither of
    the two: it leaves [_load_logs] and the function that called it.  Such a
    file, and one that holds JSON other than a list of dictionaries with the
    keys written by [log_timer_start], has no state here: the model, and
    every statement about the log, covers the three states above only. *)
Inductive log_file_state : Type :=
| LogAbsent
| LogUnreadable      (* open raises IOError, or json.load JSONDecodeError *)
| LogContent (logs : list log_entry).

(** A background reminder thread, by the statement of [reminder_loop] it is
    blocked in, with the ticks that statement still takes. *)
Inductive thread_state : Type :=
| RSleeping (left : nat)           (* time.sleep(5 * 60) *)
| RPlay1 (left : nat)              (* first play(), busy-wait *)
| RPlay2 (left : nat)              (* second play(), busy-wait *)
| RExited.

Inductive term_call : Type :=
| Tcgetattr
| Setcbreak
| Tcsetattr (saved : tty_mode).

Inductive message : Type :=
| MsgPaused                        (* printed by _toggle_pause *)
| MsgResumed
| MsgCompletionScreen (total : Z) (task : string)
| MsgStopScreen (remaining : Z) (task : string)
| MsgLogSaveError.

(** What the program does to the outside, in order.  Two entries mark a
    step of the program itself: [EvCheck] the call
    [play_time_notification(remaining_seconds, total_seconds)], [EvTick] the
    assignment [remaining_seconds -= 1] with the new value. *)
Inductive event : Type :=
| EvDisplay (remaining total : Z) (task : string) (paused : bool)
| EvAudio (op : audio_op)
| EvSleep (ticks : nat)
| EvPrint (m : message)
| EvCheck (remaining total : Z)
| EvTick (remaining : Z)
| EvTerm (call : term_call) (ok : bool)
| EvStartThread (id : nat)
| EvStopReminder.

Record environment : Type := {
  audio : audio_env;
  win32 : bool;                    (* sys.platform == 'win32' *)
  tcgetattr_ok : bool;
  setcbreak_ok : bool;
  tcsetattr_ok : bool;
  log_writable : bool
}.

(** The attributes that the modelled methods write but never read
    ([timer_completed_time], [current_task]) and the constants of
    [__init__] (colours, paths) are left out. *)
Record world : Type := {
  (* attributes of the TerminalTimer object *)
  is_running : bool;
  is_paused : bool;
  old_settings : option tty_mode;
  reminder_active : bool;
  reminder_thread : option nat;    (* index into [threads] *)
  (* the local variable of countdown *)
  remaining_seconds : Z;
  (* outside the object *)
  tty : tty_mode;
  log_file : log_file_state;
  threads : list thread_state;
  clock : nat;
  trace : list event
}.

Definition set_is_running (b : bool) (w : world) : world :=
  {| is_running := b; is_paused := is_paused w;
     old_settings := old_settings w; reminder_active := reminder_active w;
     reminder_thread := reminder_thread w;
     remaining_seconds := remaining_seconds w; tty := tty w;
     log_file := log_file w; threads := threads w; clock := clock w;
     trace := trace w |}.

Definition set_is_paused (b : bool) (w : world) : world :=
  {| is_running := is_running w; is_paused := b;
     old_settings := old_settings w; reminder_active := reminder_active w;
     reminder_thread := reminder_thread w;
     remaining_seconds := remaining_seconds w; tty := tty w;
     log_file := log_file w; threads := threads w; clock := clock w;
     trace := trace w |}.

Definition set_old_settings (s : option tty_mode) (w : world) : world :=
  {| is_running := is_running w; is_paused := is_paused w;
     old_settings := s; reminder_active := reminder_active w;
     reminder_thread := reminder_thread w;
     remaining_seconds := remaining_seconds w; tty := tty w;
     log_file := log_file w; threads := threads w; clock := clock w;
     trace := trace w |}.

Definition set_reminder_active (b : bool) (w : world) : world :=
  {| is_running := is_running w; is_paused := is_paused w;
     old_settings := old_settings w; reminder_active := b;
     reminder_thread := reminder_thread w;
     remaining_seconds := remaining_seconds w; tty := tty w;
     log_file := log_file w; threads := threads w; clock := clock w;
     trace := trace w |}.

Definition set_reminder_thread (t : option nat) (w : world) : world :=
  {| is_running := is_running w; is_paused := is_paused w;
     old_settings := old_settings w; reminder_active := reminder_active w;
     reminder_thread := t;
     remaining_seconds := remaining_seconds w; tty := tty w;
     log_file := log_file w; threads := threads w; clock := clock w;
     trace := trace w |}.

Definition set_remaining_seconds (r : Z) (w : world) : world :=
  {| is_running := is_running w; is_paused := is_paused w;
     old_settings := old_settings w; reminder_active := reminder_active w;
     reminder_thread := reminder_thread w;
     remaining_seconds := r; tty := tty w;
     log_file := log_file w; threads := threads w; clock := clock w;
     trace := trace w |}.

Definition set_tty (m : tty_mode) (w : world) : world :=
  {| is_running := is_running w; is_paused := is_paused w;
     old_settings := old_settings w; reminder_active := reminder_active w;
     reminder_thread := reminder_thread w;
     remaining_seconds := remaining_seconds w; tty := m;
     log_file := log_file w; threads := threads w; clock := clock w;
     trace := trace w |}.

Definition set_log_file (f : log_file_state) (w : world) : world :=
  {| is_running := is_running w; is_paused := is_paused w;
     old_settings := old_settings w; reminder_active := reminder_active w;
     reminder_thread := reminder_thread w;
     remaining_seconds := remaining_seconds w; tty := tty w;
     log_file := f; threads := threads w; clock := clock w;
     trace := trace w |}.

Definition set_threads (ts : list thread_state) (w : world) : world :=
  {| is_running := is_running w; is_paused := is_paused w;
     old_settings := old_settings w; reminder_active := reminder_active w;
     reminder_thread := reminder_thread w;
     remaining_seconds := remaining_seconds w; tty := tty w;
     log_file := log_file w; threads := ts; clock := clock w;
     trace := trace w |}.

Definition set_clock (c : nat) (w : world) : world :=
  {| is_running := is_running w; is_paused := is_paused w;
     old_settings := old_settings w; reminder_active := reminder_active w;
     reminder_thread := reminder_thread w;
     remaining_seconds := remaining_seconds w; tty := tty w;
     log_file := log_file w; threads := threads w; clock := c;
     trace := trace w |}.

Definition set_trace (t : list event) (w : world) : world :=
  {| is_running := is_running w; is_paused := is_paused w;
     old_settings := old_settings w; reminder_active := reminder_active w;
     reminder_thread := reminder_thread w;
     remaining_seconds := remaining_seconds w; tty := tty w;
     log_file := log_file w; threads := threads w; clock := clock w;
     trace := t |}.

(** ** A state and exception monad for the methods *)

Inductive exn : Type :=
| KeyboardInterrupt
| TermiosError                     (* termios.error or OSError *)
| OtherError.                      (* any other Exception *)

(** [Pending]: the run was observed only up to here (the schedule of
    inputs ended while the loop was still turning); no handler and no
    [finally] block runs on it. *)
Inductive res (A : Type) : Type :=
| Ok (a : A)
| Raised (e : exn)
| Pending.
Arguments Ok {A} a.
Arguments Raised {A} e.
Arguments Pending {A}.

Definition M (A : Type) : Type := world -> res A * world.

Definition ret {A} (a : A) : M A := fun w => (Ok a, w).

Definition bind {A B} (c : M A) (k : A -> M B) : M B :=
  fun w =>
    match c w with
    | (Ok a, w') => k a w'
    | (Raised e, w') => (Raised e, w')
    | (Pending, w') => (Pending, w')
    end.

Notation "x <- c ;; k" := (bind c (fun x => k))
  (at level 61, c at next level, right associativity).
Notation "c ;; k" := (bind c (fun _ => k))
  (at level 61, right associativity).

Definition raise {A} (e : exn) : M A := fun w => (Raised e, w).
Definition gets {A} (f : world -> A) : M A := fun w => (Ok (f w), w).
Definition modify (f : world -> world) : M unit := fun w => (Ok tt, f w).
Definition emit (e : event) : M unit :=
  modify (fun w => set_trace (trace w ++ [e]) w).

(** [try: body  except <sel>: handler]. *)
Definition try_except {A} (sel : exn -> bool) (body handler : M A) : M A :=
  fun w =>
    match body w with
    | (Raised e, w') => if sel e then handler w' else (Raised e, w')
    | r => r
    end.

(** [try: body  finally: fin]. *)
Definition try_finally {A} (body : M A) (fin : M unit) : M A :=
  fun w =>
    match body w with
    | (Ok a, w') =>
        match fin w' with
        | (Ok _, w'') => (Ok a, w'')
        | (Raised e, w'') => (Raised e, w'')
        | (Pending, w'') => (Pending, w'')
        end
    | (Raised e, w') =>
        match fin w' with
        | (Ok _, w'') => (Raised e, w'')
        | (Raised e', w'') => (Raised e', w'')
        | (Pending, w'') => (Pending, w'')
        end
    | (Pending, w') => (Pending, w')
    end.

Definition is_keyboard_interrupt (e : exn) : bool :=
  match e with KeyboardInterrupt => true | _ => false end.

Definition is_termios_error (e : exn) : bool :=
  match e with TermiosError => true | _ => false end.

(** ** The background reminder thread

<<
    def reminder_loop():
        time.sleep(5 * 60)
        while True:
            with self.reminder_lock:
                if not self.reminder_active:
                    break
            if os.path.exists(clip):
                try:
                    load; play(); busy-wait; play(); busy-wait
                except Exception as e: print(...)
            time.sleep(5 * 60)
>> *)

Definition WAIT_TICKS : nat := 3000.     (* 5 * 60 seconds *)
Definition JOIN_TICKS : nat := 10.       (* join(timeout=1) *)

(** The head of the [while True] loop: the only place where the thread
    reads [reminder_active]. *)
Definition loop_head (a : audio_env) (active : bool) : thread_state :=
  if active then
    match status_of a ClipReminder with
    | Playable => RPlay1 (length_of a ClipReminder)
    | Missing | Corrupt => RSleeping WAIT_TICKS
    end
  else RExited.

(** One tick of one thread, [active] being the value of
    [self.reminder_active] during that tick. *)
Definition thread_tick (a : audio_env) (active : bool)
    (t : thread_state) : thread_state :=
  match t with
  | RSleeping (S (S n)) => RSleeping (S n)
  | RSleeping _ => loop_head a active
  | RPlay1 (S (S n)) => RPlay1 (S n)
  | RPlay1 _ => RPlay2 (length_of a ClipReminder)
  | RPlay2 (S (S n)) => RPlay2 (S n)
  | RPlay2 _ => RSleeping WAIT_TICKS
  | RExited => RExited
  end.

Fixpoint thread_run (a : audio_env) (active : bool) (ticks : nat)
    (t : thread_state) : thread_state :=
  match ticks with
  | O => t
  | S n => thread_run a active n (thread_tick a active t)
  end.

Definition is_alive (t : thread_state) : bool :=
  match t with RExited => false | _ => true end.

Definition alive_threads (w : world) : nat :=
  List.length (filter is_alive (threads w)).

(** ** Elementary effects *)

Section Methods.

Variable env : environment.

(** Time passes in the main thread: the clock and every background thread
    advance. *)
Definition elapse (ticks : nat) : M unit :=
  modify (fun w =>
    set_clock (clock w + ticks)%nat
      (set_threads
         (map (thread_run (audio env) (reminder_active w) ticks) (threads w))
         w)).

(** [time.sleep]. *)
Definition sleep (ticks : nat) : M unit :=
  emit (EvSleep ticks) ;; elapse ticks.

(** The main thread carries out mixer calls; a busy-wait lasts as long as
    the clip. *)
Definition perform_op (op : audio_op) : M unit :=
  emit (EvAudio op) ;;
  match op with
  | WaitIdle c => elapse (length_of (audio env) c)
  | _ => ret tt
  end.

Fixpoint perform (ops : list audio_op) : M unit :=
  match ops with
  | [] => ret tt
  | op :: rest => perform_op op ;; perform rest
  end.

(** [play_sound]: load, play and wait for the end of the playback. *)
Definition play_sound_ops (c : clip) : list audio_op :=
  match status_of (audio env) c with
  | Playable => [Load c; Play c; WaitIdle c]
  | Missing => [ReportMissing c]
  | Corrupt => [LoadRaises c; ReportError]
  end.

Definition play_sound (c : clip) : M unit := perform (play_sound_ops c).

(** [play_beep]: load and play, without waiting. *)
Definition play_beep : M unit :=
  perform (guarded (audio env) ClipBeep (once ClipBeep) []).

(** ** The session log *)

(** [_load_logs]: [[]] when the file is absent (line 102) and when reading it
    raises [json.JSONDecodeError] or [IOError] (lines 107-108), the logs
    otherwise. *)
Definition _load_logs : M (list log_entry) :=
  gets (fun w =>
    match log_file w with
    | LogContent logs => logs
    | LogAbsent | LogUnreadable => []
    end).

Definition _save_logs (logs : list log_entry) : M unit :=
  if log_writable env
  then modify (set_log_file (LogContent logs))
  else emit (EvPrint MsgLogSaveError).

Definition number_or_zero (l : log_entry) : Z :=
  match number l with Some n => n | None => 0 end.

Definition _get_next_log_number : M Z :=
  logs <- _load_logs ;;
  match logs with
  | [] => ret 1
  | l :: rest =>
      ret (fold_left Z.max (map number_or_zero rest) (number_or_zero l) + 1)
  end.

Definition log_timer_start (total_seconds : Z) (task_description : string)
    : M Z :=
  logs <- _load_logs ;;
  log_number <- _get_next_log_number ;;
  now <- gets clock ;;
  _save_logs
    (logs ++ [ {| number := Some log_number; datetime := now;
                  timer_duration := total_seconds;
                  task := match task_description with
                          | EmptyString => None
                          | _ => Some task_description
                          end;
                  status := StatusStarted; completed := false;
                  logged_remaining := None; completed_datetime := None;
                  stopped_datetime := None |} ]) ;;
  ret log_number.

Definition has_number (log_number : Z) (l : log_entry) : bool :=
  match number l with Some n => n =? log_number | None => false end.

(** [for log in logs: if <test>: <update>; break]. *)
Fixpoint update_first (test : log_entry -> bool)
    (update : log_entry -> log_entry) (logs : list log_entry)
    : list log_entry :=
  match logs with
  | [] => []
  | l :: rest =>
      if test l then update l :: rest
      else l :: update_first test update rest
  end.

Definition mark_completed (now : nat) (l : log_entry) : log_entry :=
  {| number := number l; datetime := datetime l;
     timer_duration := timer_duration l; task := task l;
     status := StatusCompleted; completed := true;
     logged_remaining := logged_remaining l;
     completed_datetime := Some now;
     stopped_datetime := stopped_datetime l |}.

Definition mark_stopped (now : nat) (remaining : Z) (l : log_entry)
    : log_entry :=
  {| number := number l; datetime := datetime l;
     timer_duration := timer_duration l; task := task l;
     status := StatusStopped; completed := false;
     logged_remaining := Some remaining;
     completed_datetime := completed_datetime l;
     stopped_datetime := Some now |}.

Definition log_timer_complete (log_number : Z) : M unit :=
  logs <- _load_logs ;;
  now <- gets clock ;;
  _save_logs (update_first (has_number log_number) (mark_completed now) logs).

Definition log_timer_stop (log_number remaining : Z) : M unit :=
  logs <- _load_logs ;;
  now <- gets clock ;;
  _save_logs
    (update_first (has_number log_number) (mark_stopped now remaining) logs).

(** Truth value of the [log_number] argument ([None] by default). *)
Definition truthy (log_number : option Z) : bool :=
  match log_number with Some n => negb (n =? 0) | None => false end.

(** ** ReminderLoop: start and stop *)

Definition start_reminder_thread : M unit :=
  modify (set_reminder_active true) ;;
  id <- gets (fun w => List.length (threads w)) ;;
  modify (set_reminder_thread (Some id)) ;;
  emit (EvStartThread id) ;;
  modify (fun w => set_threads (threads w ++ [RSleeping WAIT_TICKS]) w).

Definition thread_alive (id : nat) (w : world) : bool :=
  is_alive (nth id (threads w) RExited).

(** [thread.join(timeout)]: wait until the thread ends, [timeout] ticks at
    most. *)
Fixpoint join (id : nat) (timeout : nat) : M unit :=
  match timeout with
  | O => ret tt
  | S n =>
      alive <- gets (thread_alive id) ;;
      if alive then elapse 1 ;; join id n else ret tt
  end.

Definition stop_reminder_thread : M unit :=
  emit EvStopReminder ;;
  modify (set_reminder_active false) ;;
  t <- gets reminder_thread ;;
  match t with
  | Some id =>
      alive <- gets (thread_alive id) ;;
      if alive then join id JOIN_TICKS else ret tt
  | None => ret tt
  end.

(** ** PauseController and InputPoller *)

(** What [select] and [sys.stdin.read(1)] deliver at one poll. *)
Inductive poll_result : Type :=
| NoData                           (* select reports nothing to read *)
| EndOfFile                        (* read(1) returns the empty string *)
| Char (c : ascii)
| PollRaises.                      (* OSError, ValueError or KeyboardInterrupt *)

(** [str.lower] on one character. *)
Definition lower (c : ascii) : ascii :=
  let n := nat_of_ascii c in
  if (65 <=? n)%nat && (n <=? 90)%nat then ascii_of_nat (n + 32) else c.

(** [_check_keyboard_input], as a function of what the poll delivers: the
    key read, lower-cased, or [None]. *)
Definition _check_keyboard_input (p : poll_result) : option string :=
  if win32 env then None
  else
    match p with
    | NoData => None
    | EndOfFile => Some EmptyString
    | Char c => Some (String (lower c) EmptyString)
    | PollRaises => None
    end.

Definition is_p (ch : option string) : bool :=
  match ch with
  | Some s => String.eqb s "p"
  | None => false
  end.

Definition _toggle_pause : M unit :=
  modify (fun w => set_is_paused (negb (is_paused w)) w) ;;
  paused <- gets is_paused ;;
  if paused then emit (EvPrint MsgPaused) else emit (EvPrint MsgResumed).

Definition display_timer (remaining_seconds total_seconds : Z)
    (task_description : string) : M unit :=
  paused <- gets is_paused ;;
  emit (EvDisplay remaining_seconds total_seconds task_description paused).

(** ** CountdownEngine *)

(** Where, inside one turn of the loop, an exception comes up: in the first
    [display_timer] of the turn, or during its [time.sleep]. *)
Inductive raise_point : Type := InDisplay | InSleep.

Definition raise_point_eqb (a b : raise_point) : bool :=
  match a, b with
  | InDisplay, InDisplay | InSleep, InSleep => true
  | _, _ => false
  end.

(** What the outside does during one turn of the loop. *)
Record iteration_input : Type := {
  stdin_poll : poll_result;
  delivered : option (raise_point * exn)
}.

(** What the outside does during a whole call of [countdown]. *)
Record schedule : Type := {
  iterations : list iteration_input;
  at_completion : option exn;      (* raised while the completion screen is shown *)
  at_stop : option exn             (* raised while the stop screen is shown *)
}.

(** [c], unless the exception scheduled for this point comes up first. *)
Definition interruptible (p : raise_point) (i : iteration_input)
    (c : M unit) : M unit :=
  match delivered i with
  | Some (q, e) => if raise_point_eqb p q then raise e else c
  | None => c
  end.

Definition raise_if (e : option exn) : M unit :=
  match e with
  | Some x => raise x
  | None => ret tt
  end.

Definition tcgetattr : M tty_mode :=
  if tcgetattr_ok env
  then emit (EvTerm Tcgetattr true) ;; gets tty
  else emit (EvTerm Tcgetattr false) ;; raise TermiosError.

Definition setcbreak : M unit :=
  if setcbreak_ok env
  then emit (EvTerm Setcbreak true) ;; modify (set_tty Cbreak)
  else emit (EvTerm Setcbreak false) ;; raise TermiosError.

Definition tcsetattr (saved : tty_mode) : M unit :=
  if tcsetattr_ok env
  then emit (EvTerm (Tcsetattr saved) true) ;; modify (set_tty saved)
  else emit (EvTerm (Tcsetattr saved) false) ;; raise TermiosError.

(** Lines 424-429: save the terminal settings and enter cbreak mode. *)
Definition acquire_terminal : M unit :=
  try_except is_termios_error
    (if negb (win32 env)
     then saved <- tcgetattr ;;
          modify (set_old_settings (Some saved)) ;;
          setcbreak
     else ret tt)
    (ret tt).

(** The block that occurs three times in [countdown] (lines 465-470,
    505-510 and 533-538). *)
Definition restore_terminal : M unit :=
  try_except is_termios_error
    (s <- gets old_settings ;;
     match s with
     | Some saved =>
         if negb (win32 env)
         then tcsetattr saved ;; modify (set_old_settings None)
         else ret tt
     | None => ret tt
     end)
    (ret tt).

(** One turn of the [while] loop (lines 433-460). *)
Definition loop_body (total_seconds : Z) (task_description : string)
    (i : iteration_input) : M unit :=
  let ch := _check_keyboard_input (stdin_poll i) in
  (if is_p ch
   then _toggle_pause ;;
        r <- gets remaining_seconds ;;
        interruptible InDisplay i
          (display_timer r total_seconds task_description)
   else ret tt) ;;
  paused <- gets is_paused ;;
  r <- gets remaining_seconds ;;
  if negb paused
  then
    interruptible InDisplay i
      (display_timer r total_seconds task_description) ;;
    emit (EvCheck r total_seconds) ;;
    perform (play_time_notification (audio env) r total_seconds) ;;
    (if r <=? 5 then play_beep else ret tt) ;;
    interruptible InSleep i (sleep 10) ;;
    modify (set_remaining_seconds (r - 1)) ;;
    emit (EvTick (r - 1))
  else
    interruptible InDisplay i
      (display_timer r total_seconds task_description) ;;
    interruptible InSleep i (sleep 1).

(** [while remaining_seconds > 0 and self.is_running], one input per turn. *)
Fixpoint countdown_loop (total_seconds : Z) (task_description : string)
    (inputs : list iteration_input) : M unit :=
  fun w =>
    if (remaining_seconds w >? 0) && is_running w
    then
      match inputs with
      | [] => (Pending, w)
      | i :: rest =>
          (loop_body total_seconds task_description i ;;
           countdown_loop total_seconds task_description rest) w
      end
    else (Ok tt, w).

(** The path a call of [countdown] ended on. *)
Inductive session_outcome : Type :=
| Completed
| Stopped (remaining : Z)
| Neither.                         (* loop left with is_running false *)

(** Lines 463-500. *)
Definition completion_block (total_seconds : Z) (task_description : string)
    (log_number : option Z) (sch : schedule) : M session_outcome :=
  restore_terminal ;;
  sleep 1 ;;
  emit (EvPrint (MsgCompletionScreen total_seconds task_description)) ;;
  raise_if (at_completion sch) ;;
  play_sound ClipFinished ;;
  (if truthy log_number
   then log_timer_complete (match log_number with Some n => n | None => 0 end)
   else ret tt) ;;
  start_reminder_thread ;;
  ret Completed.

(** Lines 502-529: the handler of [KeyboardInterrupt]. *)
Definition stop_handler (task_description : string)
    (log_number : option Z) (sch : schedule) : M session_outcome :=
  modify (set_is_running false) ;;
  restore_terminal ;;
  sleep 1 ;;
  r <- gets remaining_seconds ;;
  emit (EvPrint (MsgStopScreen r task_description)) ;;
  raise_if (at_stop sch) ;;
  (if truthy log_number
   then log_timer_stop (match log_number with Some n => n | None => 0 end) r
   else ret tt) ;;
  ret (Stopped r).

(** Lines 419-429: what [countdown] does before its [try]. *)
Definition enter_countdown (total_seconds : Z) : M unit :=
  modify (set_is_running true) ;;
  modify (set_is_paused false) ;;
  modify (set_remaining_seconds total_seconds) ;;
  acquire_terminal.

Definition countdown (total_seconds : Z) (task_description : string)
    (log_number : option Z) (sch : schedule) : M session_outcome :=
  enter_countdown total_seconds ;;
  try_finally
    (try_except is_keyboard_interrupt
       (countdown_loop total_seconds task_description (iterations sch) ;;
        running <- gets is_running ;;
        if running
        then completion_block total_seconds task_description log_number sch
        else ret Neither)
       (stop_handler task_description log_number sch))
    restore_terminal.

(** ** The main loop *)

(** What the user does around one session: the answers given to
    [get_user_input] (already decoded), how long the prompts stay open,
    what happens during the countdown, and how long the final prompt
    waits for Enter. *)
Record user_session : Type := {
  typing_ticks : nat;
  chosen_total : Z;
  chosen_task : string;
  during : schedule;
  idle_ticks : nat
}.

Definition get_user_input (u : user_session) : M (Z * string) :=
  stop_reminder_thread ;;
  elapse (typing_ticks u) ;;
  ret (chosen_total u, chosen_task u).

(** [for i in range(3, 0, -1): play_beep(); time.sleep(1)]. *)
Fixpoint lead_in (n : nat) : M unit :=
  match n with
  | O => ret tt
  | S m => play_beep ;; sleep 10 ;; lead_in m
  end.

(** One turn of the [while True] of [main]. *)
Definition main_iteration (u : user_session) : M session_outcome :=
  input <- get_user_input u ;;
  log_number <- log_timer_start (fst input) (snd input) ;;
  lead_in 3 ;;
  outcome <- countdown (fst input) (snd input) (Some log_number) (during u) ;;
  elapse (idle_ticks u) ;;
  ret outcome.

Fixpoint main (sessions : list user_session) : M (list session_outcome) :=
  match sessions with
  | [] => ret []
  | u :: rest =>
      o <- main_iteration u ;;
      os <- main rest ;;
      ret (o :: os)
  end.

End Methods.

(** The program as it starts: [__init__], a terminal in line mode, no
    thread. *)
Definition initial_world (f : log_file_state) : world :=
  {| is_running := false; is_paused := false; old_settings := None;
     reminder_active := false; reminder_thread := None;
     remaining_seconds := 0; tty := Cooked; log_file := f;
     threads := []; clock := 0; trace := [] |}.

(** An environment in which nothing fails and every clip lasts [len]
    ticks. *)
Definition friendly (len : nat) : environment :=
  {| audio := {| status_of := fun _ => Playable; length_of := fun _ => len |};
     win32 := false; tcgetattr_ok := true; setcbreak_ok := true;
     tcsetattr_ok := true; log_writable := true |}.

(** A turn of the loop in which the user does nothing. *)
Definition quiet : iteration_input :=
  {| stdin_poll := NoData; delivered := None |}.

Definition press (c : ascii) : iteration_input :=
  {| stdin_poll := Char c; delivered := None |}.


Definition uneventful (n : nat) : schedule :=
  {| iterations := repeat quiet n; at_completion := None; at_stop := None |}.

(** ** Reading a trace *)

(** The successive values assigned to [remaining_seconds] by the loop. *)
Definition ticks_of (evs : list event) : list Z :=
  flat_map (fun e => match e with EvTick r => [r] | _ => [] end) evs.

(** The values of [remaining_seconds] the scheduler was called with. *)
Definition checks_of (evs : list event) : list Z :=
  flat_map (fun e => match e with EvCheck r _ => [r] | _ => [] end) evs.

(** The clips loaded, one entry per notification started. *)
Definition loads_of (evs : list event) : list clip :=
  flat_map (fun e => match e with EvAudio (Load c) => [c] | _ => [] end) evs.

(** The calls made on the terminal, each with its success. *)
Definition term_calls (evs : list event) : list (term_call * bool) :=
  flat_map (fun e => match e with EvTerm c ok => [(c, ok)] | _ => [] end) evs.

(** The calls [restore_terminal] makes in a given state. *)
Definition release_calls (env : environment) (w : world)
    : list (term_call * bool) :=
  match old_settings w with
  | Some saved =>
      if win32 env then [] else [(Tcsetattr saved, tcsetattr_ok env)]
  | None => []
  end.

(** [old_settings] and the terminal mode after [restore_terminal]. *)
Definition released (env : environment) (w : world)
    : option tty_mode * tty_mode :=
  match old_settings w with
  | Some saved =>
      if win32 env then (Some saved, tty w)
      else if tcsetattr_ok env then (None, saved)
      else (Some saved, tty w)
  | None => (None, tty w)
  end.

Definition term_event (c : term_call * bool) : event :=
  EvTerm (fst c) (snd c).

(** [hi >= v1 > v2 > ...]: each value one below the previous one at
    least. *)
Fixpoint descending (hi : Z) (l : list Z) : Prop :=
  match l with
  | [] => True
  | v :: rest => v <= hi /\ descending (v - 1) rest
  end.

(** The content of the log file as [_load_logs] reads it. *)
Definition logs_of (w : world) : list log_entry :=
  match log_file w with
  | LogContent logs => logs
  | LogAbsent | LogUnreadable => []
  end.

(** What is printed when [_save_logs] fails. *)
Definition save_events (env : environment) : list event :=
  if log_writable env then [] else [EvPrint MsgLogSaveError].

(** The file after [_save_logs logs]. *)
Definition saved (env : environment) (logs : list log_entry) (w : world)
    : log_file_state :=
  if log_writable env then LogContent logs else log_file w.

(** [w'] differs from [w] in the log file and the trace at most. *)
Definition only_log_written (w w' : world) : Prop :=
  is_running w' = is_running w
  /\ is_paused w' = is_paused w
  /\ old_settings w' = old_settings w
  /\ reminder_active w' = reminder_active w
  /\ reminder_thread w' = reminder_thread w
  /\ remaining_seconds w' = remaining_seconds w
  /\ tty w' = tty w
  /\ threads w' = threads w.

(** [w'] differs from [w] in [old_settings], the terminal mode and the
    trace at most. *)
Definition only_terminal_touched (w w' : world) : Prop :=
  is_running w' = is_running w
  /\ is_paused w' = is_paused w
  /\ reminder_active w' = reminder_active w
  /\ reminder_thread w' = reminder_thread w
  /\ remaining_seconds w' = remaining_seconds w
  /\ log_file w' = log_file w
  /\ threads w' = threads w
  /\ clock w' = clock w.

(** [n - 1, n - 2, ..., 0]. *)
Fixpoint countdown_values (n : nat) : list Z :=
  match n with
  | O => []
  | S m => Z.of_nat m :: countdown_values m
  end.

(** The clips of the threshold notifications. *)
Definition threshold_clips : list clip :=
  [ClipHalf; Clip15min; Clip10min; Clip5min; Clip3min; Clip1min;
   Clip30sec; Clip10sec].

(** The value of [remaining_seconds] at which a threshold clip can start. *)
Definition trigger (total_seconds : Z) (c : clip) : option Z :=
  match c with
  | ClipHalf => Some (total_seconds / 2)
  | Clip15min => Some (15 * 60)
  | Clip10min => Some (10 * 60)
  | Clip5min => Some (5 * 60)
  | Clip3min => Some (3 * 60)
  | Clip1min => Some (1 * 60)
  | Clip30sec => Some 30
  | Clip10sec => Some 10
  | ClipBeep | ClipFinished | ClipReminder => None
  end.

(** A turn of the loop in which the pause key is not pressed and nothing is
    raised. *)
Definition calm (env : environment) (i : iteration_input) : Prop :=
  is_p (_check_keyboard_input env (stdin_poll i)) = false
  /\ delivered i = None.

(** Ticks a reminder thread still runs once [reminder_active] stays
    false. *)
Definition time_to_exit (a : audio_env) (t : thread_state) : nat :=
  match t with
  | RSleeping n => Nat.max n 1
  | RPlay1 n =>
      Nat.max n 1 + Nat.max (length_of a ClipReminder) 1 + WAIT_TICKS
  | RPlay2 n => Nat.max n 1 + WAIT_TICKS
  | RExited => 0
  end.

(** [w'] differs from [w] in the clock, the state of the threads and the
    trace at most. *)
Definition only_time_passed (w w' : world) : Prop :=
  is_running w' = is_running w
  /\ is_paused w' = is_paused w
  /\ old_settings w' = old_settings w
  /\ reminder_active w' = reminder_active w
  /\ reminder_thread w' = reminder_thread w
  /\ remaining_seconds w' = remaining_seconds w
  /\ tty w' = tty w
  /\ log_file w' = log_file w
  /\ List.length (threads w') = List.length (threads w).

(** What a turn of the countdown loop leaves alone: everything but
    [is_paused], [remaining_seconds], the clock, the state of the threads
    and the trace. *)
Definition session_frame (w w' : world) : Prop :=
  is_running w' = is_running w
  /\ old_settings w' = old_settings w
  /\ reminder_active w' = reminder_active w
  /\ reminder_thread w' = reminder_thread w
  /\ tty w' = tty w
  /\ log_file w' = log_file w
  /\ List.length (threads w') = List.length (threads w).

(** The mixer calls of [play_beep]. *)
Definition beep_ops (env : environment) : list audio_op :=
  guarded (audio env) ClipBeep (once ClipBeep) [].

(** The mixer calls of one running turn of the loop: the scheduler's, then
    the beep of the last five seconds. *)
Definition turn_ops (env : environment) (total_seconds r : Z)
    : list audio_op :=
  play_time_notification (audio env) r total_seconds
  ++ (if r <=? 5 then beep_ops env else []).

Definition clip_eq_dec (a b : clip) : {a = b} + {a <> b}.
Proof. decide equality. Defined.

(** What the screen and the clock show during [k] turns of the loop spent
    paused at [r] seconds. *)
Definition paused_events (total_seconds : Z) (task_description : string)
    (r : Z) (k : nat) : list event :=
  List.concat
    (repeat [EvDisplay r total_seconds task_description true; EvSleep 1] k).

(** The number of checks on [v] a clip's starts are counted against. *)
Definition checks_on (total_seconds : Z) (c : clip) (checks : list Z) : nat :=
  match trigger total_seconds c with
  | Some v => count_occ Z.eq_dec checks v
  | None => 0
  end.

(** The number behind a [log_number] argument that is true. *)
Definition log_argument (log_number : option Z) : Z :=
  match log_number with Some n => n | None => 0 end.

(** What the completion branch of [countdown] does after it has put the
    terminal back, when nothing interrupts it. *)
Definition completion_events (env : environment) (total_seconds : Z)
    (task_description : string) (log_number : option Z) (thread_id : nat)
    : list event :=
  [EvSleep 1; EvPrint (MsgCompletionScreen total_seconds task_description)]
  ++ map EvAudio (play_sound_ops env ClipFinished)
  ++ (if truthy log_number then save_events env else [])
  ++ [EvStartThread thread_id].

(** What the handler of [KeyboardInterrupt] does after it has put the
    terminal back, when nothing interrupts it. *)
Definition stop_events (env : environment) (task_description : string)
    (log_number : option Z) (r : Z) : list event :=
  [EvSleep 1; EvPrint (MsgStopScreen r task_description)]
  ++ (if truthy log_number then save_events env else []).

(** The calls [acquire_terminal] makes. *)
Definition acquire_calls (env : environment) : list (term_call * bool) :=
  if win32 env then []
  else if tcgetattr_ok env
       then [(Tcgetattr, true); (Setcbreak, setcbreak_ok env)]
       else [(Tcgetattr, false)].

(** [old_settings] and the terminal mode after [acquire_terminal]. *)
Definition acquired (env : environment) (w : world)
    : option tty_mode * tty_mode :=
  if win32 env then (old_settings w, tty w)
  else if tcgetattr_ok env
       then (Some (tty w), if setcbreak_ok env then Cbreak else tty w)
       else (old_settings w, tty w).

(** A session of ten seconds (menu entry 5, then [10]): the prompts take
    five seconds, nothing happens during the countdown, and Enter comes
    [idle] ticks after the end. *)
Definition quick_session (name : string) (idle : nat) : user_session :=
  {| typing_ticks := 50; chosen_total := 10; chosen_task := name;
     during := uneventful 10; idle_ticks := idle |}.

(** A log file holding the entry of session number 1. *)
Definition one_entry_log : log_file_state :=
  LogContent
    [ {| number := Some 1; datetime := 0; timer_duration := 600;
         task := Some "plank"%string; status := StatusStarted; completed := false;
         logged_remaining := None; completed_datetime := None;
         stopped_datetime := None |} ].

Definition is_stop (e : event) : bool :=
  match e with EvStopReminder => true | _ => false end.

(** What follows the last call of [stop_reminder_thread] in a trace. *)
Fixpoint after_last_stop (evs : list event) : list event :=
  match evs with
  | [] => []
  | e :: rest =>
      if existsb is_stop rest then after_last_stop rest
      else if is_stop e then rest else e :: rest
  end.

(** [c] leaves what is already in the trace alone: it only adds to its
    end. *)
Definition appends {A : Type} (c : M A) : Prop :=
  forall w, exists evs, trace (snd (c w)) = trace w ++ evs.

(** What a successful call starts, by the specification's table lookup. *)
Definition announced (o : option (clip * nat)) : list clip * nat :=
  match o with
  | Some (c, n) => ([c], n)
  | None => ([], 0%nat)
  end.


(** ** More ways to read a run *)


(** Is the thread in one of its two playbacks? *)
Definition is_playing (t : thread_state) : bool :=
  match t with RPlay1 _ | RPlay2 _ => true | _ => false end.

(** The entry [log_timer_start] appends. *)
Definition started_entry (log_number : Z) (now : nat) (total_seconds : Z)
    (task_description : string) : log_entry :=
  {| number := Some log_number; datetime := now;
     timer_duration := total_seconds;
     task := match task_description with
             | EmptyString => None
             | _ => Some task_description
             end;
     status := StatusStarted; completed := false;
     logged_remaining := None; completed_datetime := None;
     stopped_datetime := None |}.

(** The number [_get_next_log_number] gives for a list of entries. *)
Definition next_number (logs : list log_entry) : Z :=
  match logs with
  | [] => 1
  | l :: rest =>
      fold_left Z.max (map number_or_zero rest) (number_or_zero l) + 1
  end.

(** The time the main thread spends in the busy-waits of a run of mixer
    calls. *)
Fixpoint busy_ticks (a : audio_env) (ops : list audio_op) : nat :=
  match ops with
  | [] => 0%nat
  | WaitIdle c :: rest => (length_of a c + busy_ticks a rest)%nat
  | _ :: rest => busy_ticks a rest
  end.

(** The playback length of a clip that can be played, and nothing for one
    that cannot. *)
Definition playable_length (a : audio_env) (c : clip) : nat :=
  match status_of a c with
  | Playable => length_of a c
  | Missing | Corrupt => 0%nat
  end.

(** The time the scheduler holds the loop back at [remaining_seconds]: the
    first playback of the two clips that are played twice. *)
Definition wait_at (a : audio_env) (remaining_seconds : Z) : nat :=
  if remaining_seconds =? 3 * 60 then playable_length a Clip3min
  else if remaining_seconds =? 1 * 60 then playable_length a Clip1min
  else 0%nat.

(** The time the loop takes to run from [n] seconds down to zero when it
    is never paused: a second per turn, and the two waits. *)
Definition run_ticks (a : audio_env) (n : nat) : nat :=
  (10 * n
   + (if (180 <=? n)%nat then playable_length a Clip3min else 0)
   + (if (60 <=? n)%nat then playable_length a Clip1min else 0))%nat.

Definition is_playable (a : audio_env) (c : clip) : bool :=
  match status_of a c with
  | Playable => true
  | Missing | Corrupt => false
  end.

(** What the test of a threshold asks of [total_seconds], beside the value
    of [remaining_seconds] given by [trigger]. *)
Definition enabled (total_seconds : Z) (c : clip) : bool :=
  match c with
  | ClipHalf =>
      negb (is_overlapping_with_other_notifications (total_seconds / 2))
  | Clip15min => total_seconds >=? 30 * 60
  | Clip10min | Clip5min | Clip3min | Clip1min | Clip30sec | Clip10sec =>
      true
  | ClipBeep | ClipFinished | ClipReminder => false
  end.

(** Does the test of the clip's threshold hold at [remaining_seconds]? *)
Definition due (total_seconds : Z) (c : clip) (remaining_seconds : Z)
    : bool :=
  enabled total_seconds c
  && match trigger total_seconds c with
     | Some v => remaining_seconds =? v
     | None => false
     end.

(** The values of [remaining_seconds] at the turns of a loop that runs
    from [n] down to zero: [n, n - 1, ..., 1]. *)
Fixpoint turn_values (n : nat) : list Z :=
  match n with
  | O => []
  | S m => Z.of_nat (S m) :: turn_values m
  end.

(** What one running turn of the loop at [r] seconds does. *)
Definition turn_events (env : environment) (total_seconds : Z)
    (task_description : string) (r : Z) : list event :=
  [EvDisplay r total_seconds task_description false;
   EvCheck r total_seconds]
  ++ map EvAudio (turn_ops env total_seconds r)
  ++ [EvSleep 10; EvTick (r - 1)].

(** The clips started by the turns of a loop left alone from [n] seconds. *)
Definition loop_loads (env : environment) (total_seconds : Z)
    (task_description : string) (n : nat) : list clip :=
  loads_of
    (flat_map (turn_events env total_seconds task_description)
       (turn_values n)).

(** The clips played by a run of audio calls: one entry per [play]. *)
Fixpoint played (ops : list audio_op) : list clip :=
  match ops with
  | [] => []
  | Play c :: rest => c :: played rest
  | _ :: rest => played rest
  end.

(** The clips played in a trace: one entry per [play]. *)
Definition plays_of (evs : list event) : list clip :=
  flat_map (fun e => match e with EvAudio (Play c) => [c] | _ => [] end) evs.

(** The clips played by the turns of a loop left alone from [n] seconds. *)
Definition loop_plays (env : environment) (total_seconds : Z)
    (task_description : string) (n : nat) : list clip :=
  plays_of
    (flat_map (turn_events env total_seconds task_description)
       (turn_values n)).

(** How many times in a row a notification says its clip. *)
Definition said (c : clip) : nat :=
  match c with
  | Clip3min | Clip1min => 2
  | _ => 1
  end.

(** A turn of the loop with the key taken away. *)
Definition without_key (i : iteration_input) : iteration_input :=
  {| stdin_poll := NoData; delivered := delivered i |}.

(** A schedule with every key taken away. *)
Definition without_keys (sch : schedule) : schedule :=
  {| iterations := map without_key (iterations sch);
     at_completion := at_completion sch; at_stop := at_stop sch |}.

(** A session during which the pause key is left alone and nothing is
    raised, watched until its countdown has run out. *)
Definition undisturbed (env : environment) (u : user_session) : Prop :=
  Forall (calm env) (iterations (during u))
  /\ at_completion (during u) = None
  /\ (Z.to_nat (chosen_total u) <= List.length (iterations (during u)))%nat.



(** ** TimeParser: [parse_time_input]

    A text is a [string] of ASCII characters, as typed at the prompt.
    [int] raising [ValueError] is [None]. *)

Definition is_digit (c : ascii) : bool :=
  let n := nat_of_ascii c in (48 <=? n)%nat && (n <=? 57)%nat.

(** [str.isspace] on an ASCII character, the characters [str.strip]
    removes: tab to carriage return, the separators 28 to 31, space. *)
Definition is_space (c : ascii) : bool :=
  let n := nat_of_ascii c in
  ((9 <=? n)%nat && (n <=? 13)%nat) || ((28 <=? n)%nat && (n <=? 32)%nat).

(** The white space [int] skips around an ASCII literal: tab to carriage
    return, and space. *)
Definition is_int_space (c : ascii) : bool :=
  let n := nat_of_ascii c in
  ((9 <=? n)%nat && (n <=? 13)%nat) || (n =? 32)%nat.

Fixpoint all_digits (s : string) : bool :=
  match s with
  | EmptyString => true
  | String c rest => is_digit c && all_digits rest
  end.

(** [s.isdigit()]: at least one character, and digits only. *)
Definition isdigit (s : string) : bool :=
  match s with
  | EmptyString => false
  | String _ _ => all_digits s
  end.

Fixpoint drop_left (space : ascii -> bool) (s : string) : string :=
  match s with
  | EmptyString => EmptyString
  | String c rest => if space c then drop_left space rest else s
  end.

Fixpoint drop_right (space : ascii -> bool) (s : string) : string :=
  match s with
  | EmptyString => EmptyString
  | String c rest =>
      match drop_right space rest with
      | EmptyString => if space c then EmptyString else String c EmptyString
      | kept => String c kept
      end
  end.

(** [s.strip()]. *)
Definition strip (s : string) : string :=
  drop_right is_space (drop_left is_space s).

(** [c in s], for one character. *)
Fixpoint contains (c : ascii) (s : string) : bool :=
  match s with
  | EmptyString => false
  | String d rest => Ascii.eqb d c || contains c rest
  end.

(** [s.split(c)], for one character: one more part than [c] occurs. *)
Fixpoint split (c : ascii) (s : string) : list string :=
  match s with
  | EmptyString => [EmptyString]
  | String d rest =>
      if Ascii.eqb d c then EmptyString :: split c rest
      else
        match split c rest with
        | part :: parts => String d part :: parts
        | [] => [String d EmptyString]
        end
  end.

Definition digit_value (c : ascii) : Z := Z.of_nat (nat_of_ascii c - 48).

(** The number a run of digits denotes, read after [acc]. *)
Fixpoint decimal_from (acc : Z) (s : string) : Z :=
  match s with
  | EmptyString => acc
  | String c rest => decimal_from (10 * acc + digit_value c) rest
  end.

Definition decimal (s : string) : Z := decimal_from 0 s.

(** The body of a decimal literal: digits, with single underscores
    between digits only. *)
Fixpoint literal_value (acc : Z) (after_digit : bool) (s : string)
    : option Z :=
  match s with
  | EmptyString => if after_digit then Some acc else None
  | String c rest =>
      if is_digit c
      then literal_value (10 * acc + digit_value c) true rest
      else if Ascii.eqb c "_" && after_digit
           then literal_value acc false rest
           else None
  end.

Fixpoint count_digits (s : string) : nat :=
  match s with
  | EmptyString => 0%nat
  | String c rest =>
      ((if is_digit c then 1 else 0) + count_digits rest)%nat
  end.

Section TimeParser.

(** [sys.get_int_max_str_digits()]: the number of digits [int] accepts,
    0 for no limit (and for an interpreter that has none). *)
Variable max_str_digits : nat.

(** [int(s)] in base ten: white space around, an optional sign, the
    literal; more digits than the limit raise. *)
Definition py_int (s : string) : option Z :=
  let t := drop_right is_int_space (drop_left is_int_space s) in
  let signed :=
    match t with
    | String c body =>
        if Ascii.eqb c "-" then (true, body)
        else if Ascii.eqb c "+" then (false, body)
        else (false, t)
    | EmptyString => (false, t)
    end in
  match literal_value 0 false (snd signed) with
  | Some v =>
      if (0 <? max_str_digits)%nat
         && (max_str_digits <? count_digits (snd signed))%nat
      then None
      else Some (if fst signed then - v else v)
  | None => None
  end.

(** One of the three blocks of [parse_time_input]:
<<
    if 'h' in time_str:
        parts = time_str.split('h')
        if len(parts) == 2:
            hours = int(parts[0]) if parts[0] else 0
            total_seconds += hours * 3600
            time_str = parts[1]
>>
    It gives the new [total_seconds] and [time_str]. *)
Definition take_unit (unit : ascii) (weight : Z) (total_seconds : Z)
    (time_str : string) : option (Z * string) :=
  if contains unit time_str
  then
    match split unit time_str with
    | [before; after] =>
        match (match before with
               | EmptyString => Some 0
               | String _ _ => py_int before
               end) with
        | Some amount => Some (total_seconds + amount * weight, after)
        | None => None
        end
    | _ => Some (total_seconds, time_str)
    end
  else Some (total_seconds, time_str).

Definition parse_time_input (time_str : string) : option Z :=
  if isdigit time_str then py_int time_str
  else
    match take_unit "h" 3600 0 time_str with
    | None => None
    | Some (after_hours, str1) =>
        match take_unit "m" 60 after_hours str1 with
        | None => None
        | Some (after_minutes, str2) =>
            match take_unit "s" 1 after_minutes str2 with
            | None => None
            | Some (after_seconds, str3) =>
                if isdigit (strip str3)
                then
                  match py_int (strip str3) with
                  | Some seconds => Some (after_seconds + seconds)
                  | None => None
                  end
                else Some after_seconds
            end
        end
    end.

End TimeParser.

(** Does the digit limit of [int] let a text of digits through? *)
Definition fits (max_str_digits : nat) (digits : string) : bool :=
  (max_str_digits =? 0)%nat
  || (String.length digits <=? max_str_digits)%nat.

(** A number with its unit, or nothing. *)
Definition with_unit (present : bool) (digits : string) (unit : ascii)
    : string :=
  if present then digits ++ String unit EmptyString else EmptyString.

(** What a number with its unit stands for; no digits before the unit
    count as zero. *)
Definition amount (present : bool) (digits : string) : Z :=
  if present then decimal digits else 0.

(** How many times a character occurs. *)
Fixpoint occurrences (c : ascii) (s : string) : nat :=
  match s with
  | EmptyString => 0%nat
  | String d rest =>
      ((if Ascii.eqb d c then 1 else 0) + occurrences c rest)%nat
  end.

(** The values of [remaining_seconds] the screen was drawn with. *)
Definition displays_of (evs : list event) : list Z :=
  flat_map
    (fun e => match e with EvDisplay r _ _ _ => [r] | _ => [] end) evs.

(** [c], started in a state where [I] holds, only adds to the trace, and
    what it adds satisfies [P]. *)
Definition adds_from {A : Type} (I : world -> Prop)
    (P : list event -> Prop) (c : M A) : Prop :=
  forall w, I w -> exists evs, trace (snd (c w)) = trace w ++ evs /\ P evs.

(** Every value the screen and the scheduler were given lies in
    [lo < r <= hi]. *)
Definition shown_within (lo hi : Z) (evs : list event) : Prop :=
  Forall (fun r => lo < r <= hi) (displays_of evs)
  /\ Forall (fun r => lo < r <= hi) (checks_of evs).

(** No condition on the state. *)
Definition anywhere : world -> Prop := fun _ => True.
(** * Properties of the notification scheduler *)

Section Scheduler.

Variable a : audio_env.

Lemma guarded_playable (c : clip) (rest otherwise : list audio_op) :
  status_of a c = Playable -> guarded a c rest otherwise = Load c :: rest.
Proof. unfold guarded; intros ->; reflexivity. Qed.

(** One test of the chain, [if b: <guarded block>] followed by [next]:
    a property of the calls made follows from the same property of the
    three ways out. *)
Lemma layer_cases (P : list audio_op -> Prop) (b : bool) (c : clip)
    (rest next : list audio_op) :
  (b = true -> P (Load c :: rest)) -> P next ->
  P [LoadRaises c; ReportError] ->
  P (if b then guarded a c rest next else next).
Proof.
  intros Hload Hnext Hraise; destruct b; auto.
  unfold guarded; destruct (status_of a c); auto.
Qed.

(** Whatever [play_time_notification] does is one of: nothing; a failed
    [load]; or the clip of a threshold that [remaining] sits on, played
    once or twice. *)
Lemma play_time_notification_cases (P : list audio_op -> Prop)
    (remaining total : Z) :
  P [] ->
  (forall c, P [LoadRaises c; ReportError]) ->
  (forall c ops, trigger total c = Some remaining ->
                 ops = once c \/ ops = twice c -> P (Load c :: ops)) ->
  P (play_time_notification a remaining total).
Proof.
  intros Hnil Hraise Hload.
  unfold play_time_notification; cbv zeta.
  set (s10 := if remaining =? 10 then _ else _).
  set (s30 := if remaining =? 30 then _ else _).
  set (s60 := if remaining =? 1 * 60 then _ else _).
  set (s180 := if remaining =? 3 * 60 then _ else _).
  set (s300 := if remaining =? 5 * 60 then _ else _).
  set (s600 := if remaining =? 10 * 60 then _ else _).
  set (s900 := if (remaining =? 15 * 60) && _ then _ else _).
  assert (H10 : P s10).
  { apply layer_cases; auto.
    intros E%Z.eqb_eq; apply Hload; [subst; reflexivity | auto]. }
  assert (H30 : P s30).
  { apply layer_cases; auto.
    intros E%Z.eqb_eq; apply Hload; [subst; reflexivity | auto]. }
  assert (H60 : P s60).
  { apply layer_cases; auto.
    intros E%Z.eqb_eq; apply Hload; [subst; reflexivity | auto]. }
  assert (H180 : P s180).
  { apply layer_cases; auto.
    intros E%Z.eqb_eq; apply Hload; [subst; reflexivity | auto]. }
  assert (H300 : P s300).
  { apply layer_cases; auto.
    intros E%Z.eqb_eq; apply Hload; [subst; reflexivity | auto]. }
  assert (H600 : P s600).
  { apply layer_cases; auto.
    intros E%Z.eqb_eq; apply Hload; [subst; reflexivity | auto]. }
  assert (H900 : P s900).
  { apply layer_cases; auto.
    intros [E%Z.eqb_eq _]%andb_prop; apply Hload; [subst; reflexivity | auto]. }
  destruct (Z.eqb_spec remaining (total / 2)) as [E | _]; [ | exact H900].
  destruct (negb _); [ | exact H900].
  unfold guarded; destruct (status_of a ClipHalf); auto.
  apply Hload; [subst; reflexivity | auto].
Qed.

Lemma at_most_one_fired (remaining total : Z) :
  (List.length (fired (play_time_notification a remaining total)) <= 1)%nat.
Proof.
  apply play_time_notification_cases; simpl; auto.
  intros c ops _ [-> | ->]; simpl; lia.
Qed.

(** A threshold clip starts only at its own value of [remaining]. *)
Lemma fired_at_trigger (remaining total : Z) (c : clip) :
  In c (fired (play_time_notification a remaining total)) ->
  trigger total c = Some remaining.
Proof.
  apply play_time_notification_cases; simpl; try tauto.
  intros c' ops Ht [-> | ->]; simpl; intros [<- | []]; exact Ht.
Qed.

Lemma half_is_twice (total : Z) : 2 * (total / 2) <= total < 2 * (total / 2) + 2.
Proof.
  pose proof (Z.div_mod total 2 ltac:(lia)).
  pose proof (Z.mod_pos_bound total 2 ltac:(lia)). lia.
Qed.

Ltac on_threshold r v :=
  destruct (Z.eqb_spec r v) as [-> | ?]; [try reflexivity | ].

(** With every clip in place the function is the specification's table
    lookup. *)
Lemma calls_are_spec_check (remaining total : Z) :
  all_playable a ->
  let ops := play_time_notification a remaining total in
  (fired ops, plays ops) = announced (spec_check remaining total).
Proof.
  intros Hall.
  unfold play_time_notification; cbv zeta.
  rewrite !guarded_playable by apply Hall.
  unfold spec_check, fixed_values, fixed_table, matches,
    is_overlapping_with_other_notifications, notification_times.
  pose proof (half_is_twice total) as Hhalf.
  cbn [find map existsb remaining_at min_total notification_id repeat_count].
  change (15 * 60) with 900; change (10 * 60) with 600;
    change (5 * 60) with 300; change (3 * 60) with 180;
    change (1 * 60) with 60; change (30 * 60) with 1800.
  destruct (Z.eqb_spec remaining (total / 2)) as [Eh | Nh].
  - rewrite <- Eh.
    on_threshold remaining 900.
    { replace (total >=? 1800) with true by (symmetry; apply Z.geb_le; lia).
      reflexivity. }
    on_threshold remaining 600. on_threshold remaining 300.
    on_threshold remaining 180. on_threshold remaining 60.
    on_threshold remaining 30. on_threshold remaining 10.
    reflexivity.
  - on_threshold remaining 900.
    { destruct (total >=? 1800); reflexivity. }
    on_threshold remaining 600. on_threshold remaining 300.
    on_threshold remaining 180. on_threshold remaining 60.
    on_threshold remaining 30. on_threshold remaining 10.
    reflexivity.
Qed.

Lemma selected_is_spec_check (remaining total : Z) :
  all_playable a ->
  selected (play_time_notification a remaining total)
  = spec_check remaining total.
Proof.
  intros Hall. pose proof (calls_are_spec_check remaining total Hall) as H.
  cbv zeta in H. unfold selected.
  destruct (spec_check remaining total) as [[c n] | ]; simpl in H;
    injection H as Hf Hp; rewrite Hf; simpl; rewrite ?Hp; reflexivity.
Qed.

(** The table entry a fixed value of [remaining] selects. *)
Lemma spec_check_on_fixed_value (total : Z) :
  In (total / 2) notification_times ->
  exists t, In t fixed_table /\ remaining_at t = total / 2
            /\ notification_id t <> ClipHalf
            /\ spec_check (total / 2) total
               = Some (notification_id t, repeat_count t).
Proof.
  pose proof (half_is_twice total) as Hhalf.
  unfold notification_times, spec_check, fixed_table, matches.
  cbn [In find remaining_at min_total notification_id repeat_count].
  change (15 * 60) with 900; change (10 * 60) with 600;
    change (5 * 60) with 300; change (3 * 60) with 180;
    change (1 * 60) with 60; change (30 * 60) with 1800.
  assert (Hentry : forall t, In t fixed_table -> notification_id t <> ClipHalf)
    by (intros t Ht; unfold fixed_table in Ht; simpl in Ht;
        repeat destruct Ht as [<- | Ht]; try discriminate; destruct Ht).
  intros [E | [E | [E | [E | [E | [E | [E | []]]]]]]]; rewrite <- E;
    try replace (total >=? 1800) with true
      by (symmetry; apply Z.geb_le; lia);
    cbn [Z.eqb Pos.eqb andb];
    (eexists; split; [ | split; [ | split; [ | reflexivity]]];
     [ | reflexivity | apply Hentry ]); unfold fixed_table; simpl; tauto.
Qed.

Lemma spec_check_off_fixed_values (total : Z) :
  ~ In (total / 2) notification_times ->
  spec_check (total / 2) total = Some (ClipHalf, 1%nat).
Proof.
  unfold notification_times, spec_check, fixed_values, fixed_table, matches.
  cbn [In find map existsb remaining_at min_total notification_id
       repeat_count].
  change (15 * 60) with 900; change (10 * 60) with 600;
    change (5 * 60) with 300; change (3 * 60) with 180;
    change (1 * 60) with 60; change (30 * 60) with 1800.
  intros Hn.
  repeat match goal with
         | |- context [?x =? ?v] =>
             destruct (Z.eqb_spec x v); [exfalso; lia | ]
         end.
  simpl. rewrite Z.eqb_refl. reflexivity.
Qed.




End Scheduler.

(** C2: one call of the notification check starts at most one
    notification; with every clip in place what it selects is the first
    match of the fixed table read first and the half-duration threshold
    read second; and where the half-duration value sits on a fixed
    threshold, the fixed entry alone plays. *)
Theorem check_plays_first_match_only (a : audio_env) (remaining total : Z) :
  let ops := play_time_notification a remaining total in
  (List.length (fired ops) <= 1)%nat
  /\ (all_playable a -> selected ops = spec_check remaining total)
  /\ (all_playable a -> remaining = total / 2 ->
      In remaining notification_times ->
      exists t, In t fixed_table /\ remaining_at t = remaining
                /\ fired ops = [notification_id t]
                /\ ~ In ClipHalf (fired ops)).
Proof.
  cbv zeta. split; [apply at_most_one_fired | ].
  split; [apply selected_is_spec_check | ].
  intros Hall -> Hin.
  destruct (spec_check_on_fixed_value total Hin) as (t & Ht & Hat & Hid & Hs).
  pose proof (calls_are_spec_check a (total / 2) total Hall) as Hc.
  cbv zeta in Hc. rewrite Hs in Hc. simpl in Hc. injection Hc as Hf _.
  exists t. rewrite Hf. repeat split; auto.
  simpl. intros [E | []]. congruence.
Qed.

Lemma check_plays_first_match_only_witness :
  selected (play_time_notification (audio (friendly 30)) 600 1200)
  = spec_check 600 1200.
Proof.
  apply (proj1 (proj2 (check_plays_first_match_only
                         (audio (friendly 30)) 600 1200))).
  intro c; reflexivity.
Defined.



(** * Properties of the pause toggle *)

(** C10: one toggle always changes [is_paused], and two toggles in a row
    bring it back to what it was. *)
Theorem toggle_pause_is_involution (w : world) :
  fst (_toggle_pause w) = Ok tt
  /\ is_paused (snd (_toggle_pause w)) = negb (is_paused w)
  /\ is_paused (snd (_toggle_pause w)) <> is_paused w
  /\ is_paused (snd ((_toggle_pause ;; _toggle_pause) w)) = is_paused w.
Proof.
  unfold _toggle_pause, bind, modify, gets, emit, modify.
  destruct w as [run paused s act th r t lf ts c tr].
  destruct paused; simpl; repeat split; discriminate.
Qed.

(** * Traces *)

Lemma ticks_of_app (xs ys : list event) :
  ticks_of (xs ++ ys) = ticks_of xs ++ ticks_of ys.
Proof. apply flat_map_app. Qed.

Lemma checks_of_app (xs ys : list event) :
  checks_of (xs ++ ys) = checks_of xs ++ checks_of ys.
Proof. apply flat_map_app. Qed.

Lemma loads_of_app (xs ys : list event) :
  loads_of (xs ++ ys) = loads_of xs ++ loads_of ys.
Proof. apply flat_map_app. Qed.

Lemma term_calls_app (xs ys : list event) :
  term_calls (xs ++ ys) = term_calls xs ++ term_calls ys.
Proof. apply flat_map_app. Qed.

Lemma ticks_of_audio (ops : list audio_op) : ticks_of (map EvAudio ops) = [].
Proof. induction ops; simpl; auto. Qed.

Lemma checks_of_audio (ops : list audio_op) : checks_of (map EvAudio ops) = [].
Proof. induction ops; simpl; auto. Qed.

Lemma term_calls_audio (ops : list audio_op) :
  term_calls (map EvAudio ops) = [].
Proof. induction ops; simpl; auto. Qed.

Lemma term_calls_term_events (cs : list (term_call * bool)) :
  term_calls (map term_event cs) = cs.
Proof.
  induction cs as [ | [c ok] cs IH]; simpl; [ | rewrite IH]; reflexivity.
Qed.

Lemma ticks_of_term_events (cs : list (term_call * bool)) :
  ticks_of (map term_event cs) = [].
Proof. induction cs; simpl; auto. Qed.

Lemma checks_of_term_events (cs : list (term_call * bool)) :
  checks_of (map term_event cs) = [].
Proof. induction cs; simpl; auto. Qed.

Lemma loads_of_term_events (cs : list (term_call * bool)) :
  loads_of (map term_event cs) = [].
Proof. induction cs; simpl; auto. Qed.

Lemma loads_of_audio (ops : list audio_op) :
  loads_of (map EvAudio ops) = fired ops.
Proof.
  induction ops as [ | op ops IH]; simpl; auto.
  destruct op; simpl; rewrite ?IH; reflexivity.
Qed.

Create Rewrite HintDb trace.
#[local] Hint Rewrite ticks_of_app checks_of_app loads_of_app term_calls_app
  ticks_of_audio checks_of_audio term_calls_audio loads_of_audio
  term_calls_term_events ticks_of_term_events checks_of_term_events
  loads_of_term_events : trace.

(** * Effects that only let time pass *)

Arguments thread_run : simpl never.

Section Effects.

Variable env : environment.

Lemma perform_spec (ops : list audio_op) (w : world) :
  exists w', perform env ops w = (Ok tt, w')
             /\ only_time_passed w w'
             /\ trace w' = trace w ++ map EvAudio ops.
Proof.
  revert w; induction ops as [ | op ops IH]; intros w.
  - exists w. simpl. rewrite app_nil_r. repeat split.
  - assert (Hop : exists w1, perform_op env op w = (Ok tt, w1)
                             /\ only_time_passed w w1
                             /\ trace w1 = trace w ++ [EvAudio op]).
    { unfold perform_op, bind, emit, modify, elapse, modify, ret.
      destruct op; simpl; eexists; (split; [reflexivity | ]);
        repeat split; simpl; rewrite ?length_map; reflexivity. }
    destruct Hop as (w1 & E1 & S1 & T1).
    destruct (IH w1) as (w2 & E2 & S2 & T2).
    exists w2. simpl. unfold bind at 1. rewrite E1, E2.
    split; [reflexivity | split].
    + unfold only_time_passed in *. intuition congruence.
    + rewrite T2, T1, <- app_assoc. reflexivity.
Qed.


Ltac run_perform :=
  match goal with
  | |- context [perform env ?ops ?w1] =>
      let w2 := fresh "w" in
      let E := fresh "E" in
      let S := fresh "S" in
      let T := fresh "T" in
      destruct (perform_spec ops w1) as (w2 & E & S & T);
      rewrite E; clear E;
      destruct S as (? & ? & ? & ? & ? & ? & ? & ? & ?)
  | H : context [perform env ?ops ?w1] |- _ =>
      let w2 := fresh "w" in
      let E := fresh "E" in
      let S := fresh "S" in
      let T := fresh "T" in
      destruct (perform_spec ops w1) as (w2 & E & S & T);
      rewrite E in H; clear E;
      destruct S as (? & ? & ? & ? & ? & ? & ? & ? & ?)
  end.

Ltac unfold_effects :=
  unfold play_beep, play_sound, display_timer, sleep, elapse, emit, modify,
    gets, ret, raise, bind in *.

Lemma fired_beep_ops : Forall (eq ClipBeep) (fired (beep_ops env)).
Proof.
  unfold beep_ops, guarded. destruct (status_of (audio env) ClipBeep);
    simpl; auto.
Qed.

(** A turn of the loop while paused, the pause key left alone: the screen
    is drawn, 0.1 second passes, nothing else. *)
Lemma paused_turn (total : Z) (task : string) (i : iteration_input)
    (w : world) :
  calm env i -> is_paused w = true ->
  exists w', loop_body env total task i w = (Ok tt, w')
             /\ only_time_passed w w'
             /\ trace w' = trace w
                   ++ [EvDisplay (remaining_seconds w) total task true;
                       EvSleep 1].
Proof.
  intros [Hkey Hnone] Hp.
  unfold loop_body. cbv zeta. rewrite Hkey.
  unfold interruptible. rewrite Hnone. unfold_effects.
  rewrite Hp. simpl.
  eexists; split; [reflexivity | split].
  - repeat split; simpl; rewrite ?length_map; auto.
  - simpl. rewrite Hp, <- app_assoc. reflexivity.
Qed.

(** A turn of the loop while running, the pause key left alone: screen,
    scheduler, beep, one second, then the decrement. *)
Lemma running_turn (total : Z) (task : string) (i : iteration_input)
    (w : world) :
  calm env i -> is_paused w = false ->
  exists w', loop_body env total task i w = (Ok tt, w')
             /\ session_frame w w'
             /\ is_paused w' = false
             /\ remaining_seconds w' = remaining_seconds w - 1
             /\ trace w' = trace w
                   ++ [EvDisplay (remaining_seconds w) total task false;
                       EvCheck (remaining_seconds w) total]
                   ++ map EvAudio (turn_ops env total (remaining_seconds w))
                   ++ [EvSleep 10; EvTick (remaining_seconds w - 1)].
Proof.
  intros [Hkey Hnone] Hp.
  unfold loop_body. cbv zeta. rewrite Hkey.
  unfold interruptible. rewrite Hnone. unfold_effects.
  rewrite Hp. simpl. run_perform.
  unfold turn_ops.
  destruct (remaining_seconds w <=? 5).
  - run_perform. simpl in *.
    eexists; split; [reflexivity | split; [ | split; [ | split]]]; simpl.
    + repeat split; simpl; rewrite ?length_map; congruence.
    + congruence.
    + reflexivity.
    + rewrite T0, T, Hp, map_app, <- !app_assoc. reflexivity.
  - simpl in *.
    eexists; split; [reflexivity | split; [ | split; [ | split]]]; simpl.
    + repeat split; simpl; rewrite ?length_map; congruence.
    + congruence.
    + reflexivity.
    + rewrite T, Hp, app_nil_r, <- !app_assoc. reflexivity.
Qed.

(** [restore_terminal] never raises; it puts the saved mode back when
    there is one and the call succeeds, and forgets it then. *)
Lemma restore_terminal_spec (w : world) :
  exists w', restore_terminal env w = (Ok tt, w')
             /\ only_terminal_touched w w'
             /\ old_settings w' = fst (released env w)
             /\ tty w' = snd (released env w)
             /\ trace w' = trace w ++ map term_event (release_calls env w).
Proof.
  unfold restore_terminal, try_except, tcsetattr, released, release_calls.
  unfold_effects.
  destruct (old_settings w) as [m | ] eqn:Eo; simpl;
    [destruct (win32 env); simpl; [ | destruct (tcsetattr_ok env); simpl] | ];
    eexists; (split; [reflexivity | ]); simpl;
    rewrite ?app_nil_r; repeat split; auto.
Qed.

Lemma log_timer_complete_spec (n : Z) (w : world) :
  exists w', log_timer_complete env n w = (Ok tt, w')
             /\ only_log_written w w'
             /\ log_file w'
                = saved env (update_first (has_number n)
                               (mark_completed (clock w)) (logs_of w)) w
             /\ clock w' = clock w
             /\ trace w' = trace w ++ save_events env.
Proof.
  unfold log_timer_complete, _load_logs, _save_logs, saved, save_events,
    logs_of.
  unfold_effects.
  destruct (log_writable env); simpl;
    eexists; (split; [reflexivity | ]); simpl;
    rewrite ?app_nil_r; repeat split; auto.
Qed.

Lemma log_timer_stop_spec (n r : Z) (w : world) :
  exists w', log_timer_stop env n r w = (Ok tt, w')
             /\ only_log_written w w'
             /\ log_file w'
                = saved env (update_first (has_number n)
                               (mark_stopped (clock w) r) (logs_of w)) w
             /\ clock w' = clock w
             /\ trace w' = trace w ++ save_events env.
Proof.
  unfold log_timer_stop, _load_logs, _save_logs, saved, save_events,
    logs_of.
  unfold_effects.
  destruct (log_writable env); simpl;
    eexists; (split; [reflexivity | ]); simpl;
    rewrite ?app_nil_r; repeat split; auto.
Qed.

(** Any turn of the loop: it never touches the terminal, and either it
    checks nothing and leaves [remaining_seconds] alone (paused, or cut
    short before the scheduler), or it calls the scheduler once on the
    current value and then decrements, unless an exception cuts the
    sleep short. *)
Lemma loop_body_spec (total : Z) (task : string) (i : iteration_input)
    (w : world) (res : res unit) (w' : world) :
  loop_body env total task i w = (res, w') ->
  session_frame w w' /\ res <> Pending
  /\ exists evs,
      trace w' = trace w ++ evs /\ term_calls evs = []
      /\ ((checks_of evs = [] /\ loads_of evs = [] /\ ticks_of evs = []
           /\ remaining_seconds w' = remaining_seconds w)
          \/ (exists beeps,
                 checks_of evs = [remaining_seconds w]
                 /\ loads_of evs
                    = fired (play_time_notification (audio env)
                               (remaining_seconds w) total) ++ beeps
                 /\ Forall (eq ClipBeep) beeps
                 /\ ((res = Ok tt
                      /\ ticks_of evs = [remaining_seconds w - 1]
                      /\ remaining_seconds w' = remaining_seconds w - 1)
                     \/ (res <> Ok tt /\ ticks_of evs = []
                         /\ remaining_seconds w' = remaining_seconds w)))).
Proof.
  unfold loop_body. cbv zeta.
  destruct (is_p (_check_keyboard_input env (stdin_poll i)));
    unfold interruptible, _toggle_pause;
    destruct (delivered i) as [[[ | ] e] | ];
    destruct (is_paused w) eqn:Hp;
    unfold_effects; simpl; rewrite ?Hp; simpl;
    repeat run_perform;
    try (destruct (remaining_seconds w <=? 5) eqn:Hfive; repeat run_perform);
    simpl in *; intros Hrun; injection Hrun as <- <-;
    (split; [repeat split; simpl; rewrite ?length_map; congruence | ]);
    (split; [discriminate | ]);
    (eexists; split;
     [simpl; repeat match goal with T : trace _ = _ |- _ =>
                      rewrite T; clear T end;
      simpl; rewrite <- ?app_assoc;
      first [reflexivity | symmetry; apply app_nil_r] | ]);
    autorewrite with trace; simpl; (split; [reflexivity | ]).
  all: try (left; repeat split; congruence).
  all: right;
    first [ exists (fired (beep_ops env)); split; [reflexivity | ];
            split; [rewrite ?app_nil_r; reflexivity | ];
            split; [apply fired_beep_ops | ]
          | exists []; split; [reflexivity | ];
            split; [rewrite ?app_nil_r; reflexivity | ];
            split; [constructor | ] ];
    first [ left; repeat split; congruence
          | right; repeat split; first [discriminate | congruence] ].
Qed.

Lemma descending_le (hi : Z) (l : list Z) :
  descending hi l -> Forall (fun v => v <= hi) l.
Proof.
  revert hi; induction l as [ | x l IH]; intros hi; simpl; auto.
  intros [Hx Hl]. constructor; auto.
  apply IH in Hl. eapply Forall_impl; [ | exact Hl]. simpl; intros; lia.
Qed.

(** A descending list holds no value twice. *)
Lemma descending_count (hi v : Z) (l : list Z) :
  descending hi l -> (count_occ Z.eq_dec l v <= 1)%nat.
Proof.
  revert hi; induction l as [ | x l IH]; intros hi; simpl; auto.
  intros [Hx Hl]. destruct (Z.eq_dec x v) as [-> | _]; [ | eauto].
  apply descending_le in Hl.
  replace (count_occ Z.eq_dec l v) with 0%nat; auto.
  symmetry; apply count_occ_not_In. intros Hin.
  rewrite Forall_forall in Hl. apply Hl in Hin. lia.
Qed.

Lemma count_occ_beeps (c : clip) (beeps : list clip) :
  c <> ClipBeep -> Forall (eq ClipBeep) beeps ->
  count_occ clip_eq_dec beeps c = 0%nat.
Proof.
  intros Hc Hb. apply count_occ_not_In. intros Hin.
  rewrite Forall_forall in Hb. apply Hb in Hin. congruence.
Qed.

(** The starts of a clip in one turn are covered by the check of that
    turn. *)
Lemma turn_loads_bound (total r : Z) (c : clip) (beeps : list clip) :
  c <> ClipBeep -> Forall (eq ClipBeep) beeps ->
  (count_occ clip_eq_dec
     (fired (play_time_notification (audio env) r total) ++ beeps) c
   <= checks_on total c [r])%nat.
Proof.
  intros Hc Hb. rewrite count_occ_app, (count_occ_beeps c beeps Hc Hb).
  rewrite Nat.add_0_r.
  pose proof (at_most_one_fired (audio env) r total) as Hlen.
  pose proof (fired_at_trigger (audio env) r total c) as Htrig.
  destruct (fired (play_time_notification (audio env) r total))
    as [ | c1 [ | c2 rest]]; simpl in *; try lia.
  destruct (clip_eq_dec c1 c) as [-> | _]; [ | lia].
  unfold checks_on. rewrite Htrig by auto. simpl.
  destruct (Z.eq_dec r r); [lia | congruence].
Qed.

Lemma checks_on_app (total : Z) (c : clip) (l1 l2 : list Z) :
  checks_on total c (l1 ++ l2)
  = (checks_on total c l1 + checks_on total c l2)%nat.
Proof.
  unfold checks_on. destruct (trigger total c); [apply count_occ_app | auto].
Qed.

Lemma session_frame_trans (w1 w2 w3 : world) :
  session_frame w1 w2 -> session_frame w2 w3 -> session_frame w1 w3.
Proof. unfold session_frame. intuition congruence. Qed.

Lemma session_frame_refl (w : world) : session_frame w w.
Proof. unfold session_frame. intuition. Qed.

Lemma countdown_loop_cons (total : Z) (task : string)
    (i : iteration_input) (rest : list iteration_input) (w : world) :
  (remaining_seconds w >? 0) && is_running w = true ->
  countdown_loop env total task (i :: rest) w
  = match loop_body env total task i w with
    | (Ok _, w1) => countdown_loop env total task rest w1
    | (Raised e, w1) => (Raised e, w1)
    | (Pending, w1) => (Pending, w1)
    end.
Proof.
  intros Hc. simpl. rewrite Hc. unfold bind.
  destruct (loop_body env total task i w) as [[[] | e | ] w1]; reflexivity.
Qed.

(** The countdown loop, whatever happens around it: it leaves the terminal
    and the log alone, calls the scheduler on values that only descend,
    and starts no clip more often than the scheduler was called on the
    value of that clip. *)
Lemma countdown_loop_spec (total : Z) (task : string)
    (inputs : list iteration_input) (w : world) (res : res unit)
    (w' : world) :
  countdown_loop env total task inputs w = (res, w') ->
  session_frame w w'
  /\ remaining_seconds w' <= remaining_seconds w
  /\ (res = Ok tt -> (remaining_seconds w' >? 0) && is_running w' = false)
  /\ exists evs,
      trace w' = trace w ++ evs /\ term_calls evs = []
      /\ descending (remaining_seconds w) (checks_of evs)
      /\ (forall c, c <> ClipBeep ->
            (count_occ clip_eq_dec (loads_of evs) c
             <= checks_on total c (checks_of evs))%nat).
Proof.
  revert w; induction inputs as [ | i rest IH]; intros w.
  - simpl. destruct ((remaining_seconds w >? 0) && is_running w) eqn:Hc;
      intros Hrun; injection Hrun as <- <-;
      (split; [apply session_frame_refl | ]); (split; [lia | ]);
      (split; [first [discriminate | auto] | ]);
      exists []; rewrite app_nil_r; simpl; repeat split; auto;
      intros; unfold checks_on; destruct (trigger total c); simpl; lia.
  - destruct ((remaining_seconds w >? 0) && is_running w) eqn:Hc.
    + rewrite countdown_loop_cons by exact Hc.
      destruct (loop_body env total task i w) as [r1 w1] eqn:Hbody.
      destruct (loop_body_spec _ _ _ _ _ _ Hbody)
        as (Hf1 & Hnp & evs1 & Ht1 & Hc1 & Hcase).
      destruct r1 as [[] | e | ]; [ | | congruence].
      * intros Hrest.
        destruct (IH w1 Hrest) as (Hf2 & Hle & Hend & evs2 & Ht2 & Hc2 & Hd2 & Hl2).
        split; [eapply session_frame_trans; eauto | ].
        assert (Hr1 : remaining_seconds w1 <= remaining_seconds w)
          by (destruct Hcase as [(_ & _ & _ & ->) | (b & _ & _ & _ & [(_ & _ & ->) | (_ & _ & ->)])]; lia).
        split; [lia | ]. split; [exact Hend | ].
        exists (evs1 ++ evs2).
        split; [rewrite Ht2, Ht1, app_assoc; reflexivity | ].
        autorewrite with trace. rewrite Hc1, Hc2.
        split; [reflexivity | ].
        destruct Hcase as [(Hk & Hl & _ & Hr) | (b & Hk & Hl & Hb & [(_ & _ & Hr) | (Hne & _)])];
          [ | | congruence].
        -- rewrite Hk, Hl, Hr in *. simpl. split; auto.
        -- rewrite Hk, Hl, Hr in *. simpl. split; [split; [lia | auto] | ].
           intros c Hcb. rewrite count_occ_app.
           change (remaining_seconds w :: checks_of evs2)
             with ([remaining_seconds w] ++ checks_of evs2).
           rewrite checks_on_app.
           pose proof (turn_loads_bound total (remaining_seconds w) c b Hcb Hb).
           pose proof (Hl2 c Hcb). lia.
      * intros Hrun; injection Hrun as <- <-.
        split; [exact Hf1 | ].
        assert (Hr1 : remaining_seconds w1 <= remaining_seconds w)
          by (destruct Hcase as [(_ & _ & _ & ->) | (b & _ & _ & _ & [(_ & _ & ->) | (_ & _ & ->)])]; lia).
        split; [lia | ]. split; [discriminate | ].
        exists evs1. split; [exact Ht1 | ]. split; [exact Hc1 | ].
        destruct Hcase as [(Hk & Hl & _ & Hr) | (b & Hk & Hl & Hb & _)].
        -- rewrite Hk, Hl. simpl. split; auto.
           intros; unfold checks_on; destruct (trigger total c); simpl; lia.
        -- rewrite Hk, Hl. simpl. split; [split; [lia | auto] | ].
           intros c Hcb. apply turn_loads_bound; auto.
    + simpl. rewrite Hc. intros Hrun; injection Hrun as <- <-.
      split; [apply session_frame_refl | ]. split; [lia | ].
      split; [auto | ].
      exists []; rewrite app_nil_r; simpl; repeat split; auto;
      intros; unfold checks_on; destruct (trigger total c); simpl; lia.
Qed.

Ltac run_restore :=
  match goal with
  | |- context [restore_terminal env ?w1] =>
      let w2 := fresh "w" in
      let E := fresh "E" in
      let S := fresh "S" in
      let Ho := fresh "Ho" in
      let Hy := fresh "Hy" in
      let T := fresh "T" in
      destruct (restore_terminal_spec w1) as (w2 & E & S & Ho & Hy & T);
      rewrite E;
      destruct S as (? & ? & ? & ? & ? & ? & ? & ?)
  end.

Ltac run_log :=
  match goal with
  | |- context [log_timer_complete env ?n ?w1] =>
      let w2 := fresh "w" in
      let E := fresh "E" in
      let S := fresh "S" in
      let L := fresh "L" in
      let C := fresh "C" in
      let T := fresh "T" in
      destruct (log_timer_complete_spec n w1) as (w2 & E & S & L & C & T);
      rewrite E; clear E;
      destruct S as (? & ? & ? & ? & ? & ? & ? & ?)
  | |- context [log_timer_stop env ?n ?r ?w1] =>
      let w2 := fresh "w" in
      let E := fresh "E" in
      let S := fresh "S" in
      let L := fresh "L" in
      let C := fresh "C" in
      let T := fresh "T" in
      destruct (log_timer_stop_spec n r w1) as (w2 & E & S & L & C & T);
      rewrite E; clear E;
      destruct S as (? & ? & ? & ? & ? & ? & ? & ?)
  end.

Lemma fired_play_sound_ops (c : clip) :
  Forall (eq c) (fired (play_sound_ops env c)).
Proof.
  unfold play_sound_ops. destruct (status_of (audio env) c); simpl; auto.
Qed.

Lemma trace_facts_save_events :
  term_calls (save_events env) = [] /\ checks_of (save_events env) = []
  /\ ticks_of (save_events env) = [] /\ loads_of (save_events env) = [].
Proof. unfold save_events. destruct (log_writable env); simpl; auto. Qed.

(** The completion branch (lines 463-500), from any state. *)
Lemma completion_block_spec (total : Z) (task : string)
    (log_number : option Z) (sch : schedule) (w : world) :
  exists w1 res w' evs,
    restore_terminal env w = (Ok tt, w1)
    /\ completion_block env total task log_number sch w = (res, w')
    /\ trace w' = trace w1 ++ evs
    /\ old_settings w' = old_settings w1 /\ tty w' = tty w1
    /\ is_running w' = is_running w
    /\ remaining_seconds w' = remaining_seconds w
    /\ term_calls evs = [] /\ checks_of evs = [] /\ ticks_of evs = []
    /\ Forall (eq ClipFinished) (loads_of evs)
    /\ match at_completion sch with
       | Some e => res = Raised e
       | None =>
           res = Ok Completed
           /\ evs = completion_events env total task log_number
                      (List.length (threads w))
           /\ reminder_active w' = true
           /\ reminder_thread w' = Some (List.length (threads w))
           /\ (exists ts, threads w' = ts ++ [RSleeping WAIT_TICKS]
                          /\ List.length ts = List.length (threads w))
           /\ (exists now,
                  log_file w'
                  = if truthy log_number
                    then saved env
                           (update_first (has_number (log_argument log_number))
                              (mark_completed now) (logs_of w)) w
                    else log_file w)
       end.
Proof.
  unfold completion_block. unfold bind at 1. run_restore.
  exists w0. unfold raise_if, start_reminder_thread.
  destruct (at_completion sch) as [e | ].
  - unfold_effects. simpl.
    do 3 eexists. split; [reflexivity | ]. split; [reflexivity | ].
    simpl. split; [rewrite <- app_assoc; reflexivity | ].
    repeat split; auto.
  - unfold_effects. simpl. run_perform.
    pose proof (fired_play_sound_ops ClipFinished) as Hfin.
    destruct trace_facts_save_events as (Hs1 & Hs2 & Hs3 & Hs4).
    assert (Hevs : forall evs,
      evs = completion_events env total task log_number
              (List.length (threads w)) ->
      term_calls evs = [] /\ checks_of evs = [] /\ ticks_of evs = []
      /\ Forall (eq ClipFinished) (loads_of evs)).
    { intros evs ->. unfold completion_events.
      autorewrite with trace. simpl.
      destruct (truthy log_number); rewrite ?Hs1, ?Hs2, ?Hs3, ?Hs4;
        simpl; rewrite ?app_nil_r; auto. }
    simpl in *. rewrite ?length_map in *.
    destruct (truthy log_number) eqn:Hlog.
    + run_log. simpl in *.
      do 3 eexists. split; [reflexivity | ]. split; [reflexivity | ].
      simpl.
      assert (Htr : trace w2 ++ [EvStartThread (List.length (threads w2))]
                    = trace w0
                      ++ completion_events env total task log_number
                           (List.length (threads w))).
      { unfold completion_events. rewrite Hlog, T1, T0.
        replace (List.length (threads w2)) with (List.length (threads w))
          by congruence.
        rewrite <- !app_assoc. reflexivity. }
      split; [exact Htr | ].
      split; [congruence | ]. split; [congruence | ].
      split; [congruence | ]. split; [congruence | ].
      destruct (Hevs _ eq_refl) as (? & ? & ? & ?).
      repeat (split; [assumption | ]).
      split; [reflexivity | ]. split; [reflexivity | ].
      split; [reflexivity | ].
      split; [f_equal; congruence | ].
      split.
      * eexists; split; [reflexivity | congruence].
      * exists (clock w1). rewrite L. unfold saved, logs_of, log_argument.
        replace (log_file w1) with (log_file w) by congruence.
        reflexivity.
    + simpl in *.
      do 3 eexists. split; [reflexivity | ]. split; [reflexivity | ].
      simpl.
      assert (Htr : trace w1 ++ [EvStartThread (List.length (threads w1))]
                    = trace w0
                      ++ completion_events env total task log_number
                           (List.length (threads w))).
      { unfold completion_events. rewrite Hlog, T0.
        replace (List.length (threads w1)) with (List.length (threads w))
          by congruence.
        simpl. rewrite <- !app_assoc. reflexivity. }
      split; [exact Htr | ].
      split; [congruence | ]. split; [congruence | ].
      split; [congruence | ]. split; [congruence | ].
      destruct (Hevs _ eq_refl) as (? & ? & ? & ?).
      repeat (split; [assumption | ]).
      split; [reflexivity | ]. split; [reflexivity | ].
      split; [reflexivity | ].
      split; [f_equal; congruence | ].
      split.
      * eexists; split; [reflexivity | congruence].
      * exists 0%nat. congruence.
Qed.

(** The handler of [KeyboardInterrupt] (lines 502-529), from any state. *)
Lemma stop_handler_spec (task : string) (log_number : option Z)
    (sch : schedule) (w : world) :
  exists w1 res w' evs,
    restore_terminal env (set_is_running false w) = (Ok tt, w1)
    /\ stop_handler env task log_number sch w = (res, w')
    /\ trace w' = trace w1 ++ evs
    /\ old_settings w' = old_settings w1 /\ tty w' = tty w1
    /\ is_running w' = false
    /\ remaining_seconds w' = remaining_seconds w
    /\ reminder_active w' = reminder_active w
    /\ term_calls evs = [] /\ checks_of evs = [] /\ ticks_of evs = []
    /\ loads_of evs = []
    /\ match at_stop sch with
       | Some e => res = Raised e
       | None =>
           res = Ok (Stopped (remaining_seconds w))
           /\ evs = stop_events env task log_number (remaining_seconds w)
           /\ (exists now,
                  log_file w'
                  = if truthy log_number
                    then saved env
                           (update_first (has_number (log_argument log_number))
                              (mark_stopped now (remaining_seconds w))
                              (logs_of w)) w
                    else log_file w)
       end.
Proof.
  unfold stop_handler. unfold bind at 1. unfold modify at 1.
  unfold bind at 1. run_restore.
  exists w0. unfold raise_if.
  destruct trace_facts_save_events as (Hs1 & Hs2 & Hs3 & Hs4).
  assert (Hevs : forall evs,
    evs = stop_events env task log_number (remaining_seconds w) ->
    term_calls evs = [] /\ checks_of evs = [] /\ ticks_of evs = []
    /\ loads_of evs = []).
  { intros evs ->. unfold stop_events.
    autorewrite with trace. simpl.
    destruct (truthy log_number); rewrite ?Hs1, ?Hs2, ?Hs3, ?Hs4; auto. }
  simpl in *.
  destruct (at_stop sch) as [e | ].
  - unfold_effects. simpl.
    do 3 eexists. split; [reflexivity | ]. split; [reflexivity | ].
    simpl. split; [rewrite <- app_assoc; reflexivity | ].
    repeat split; auto; congruence.
  - unfold_effects. simpl.
    destruct (truthy log_number) eqn:Hlog.
    + run_log. simpl in *.
      do 3 eexists. split; [reflexivity | ]. split; [reflexivity | ].
      assert (Htr : trace w1
                    = trace w0
                      ++ stop_events env task log_number
                           (remaining_seconds w)).
      { unfold stop_events. rewrite Hlog, T0.
        replace (remaining_seconds w0) with (remaining_seconds w)
          by congruence.
        rewrite <- !app_assoc. reflexivity. }
      split; [exact Htr | ].
      split; [congruence | ]. split; [congruence | ].
      split; [congruence | ]. split; [congruence | ].
      split; [congruence | ].
      destruct (Hevs _ eq_refl) as (? & ? & ? & ?).
      repeat (split; [assumption | ]).
      split; [f_equal; f_equal; congruence | ].
      split; [reflexivity | ].
      exists (clock w0 + 1)%nat. rewrite L.
      unfold saved, logs_of, log_argument. simpl.
      replace (remaining_seconds w0) with (remaining_seconds w) by congruence.
      replace (log_file w0) with (log_file w) by congruence.
      reflexivity.
    + simpl in *.
      do 3 eexists. split; [reflexivity | ]. split; [reflexivity | ].
      simpl.
      assert (Htr : (trace w0 ++ [EvSleep 1]) ++
                    [EvPrint (MsgStopScreen (remaining_seconds w0) task)]
                    = trace w0
                      ++ stop_events env task log_number
                           (remaining_seconds w)).
      { unfold stop_events. rewrite Hlog.
        replace (remaining_seconds w0) with (remaining_seconds w)
          by congruence.
        simpl. rewrite <- !app_assoc. reflexivity. }
      split; [exact Htr | ].
      split; [congruence | ]. split; [congruence | ].
      split; [congruence | ]. split; [congruence | ].
      split; [congruence | ].
      destruct (Hevs _ eq_refl) as (? & ? & ? & ?).
      repeat (split; [assumption | ]).
      split; [f_equal; f_equal; congruence | ].
      split; [reflexivity | ].
      exists 0%nat. congruence.
Qed.

(** Lines 419-429, from any state. *)
Lemma enter_countdown_spec (total : Z) (w : world) :
  exists w0,
    enter_countdown env total w = (Ok tt, w0)
    /\ is_running w0 = true /\ is_paused w0 = false
    /\ remaining_seconds w0 = total
    /\ reminder_active w0 = reminder_active w
    /\ reminder_thread w0 = reminder_thread w
    /\ log_file w0 = log_file w /\ threads w0 = threads w
    /\ clock w0 = clock w
    /\ old_settings w0 = fst (acquired env w)
    /\ tty w0 = snd (acquired env w)
    /\ trace w0 = trace w ++ map term_event (acquire_calls env).
Proof.
  unfold enter_countdown, acquire_terminal, try_except, tcgetattr, setcbreak,
    acquired, acquire_calls.
  unfold_effects.
  destruct (win32 env); simpl;
    [ | destruct (tcgetattr_ok env); simpl;
        [destruct (setcbreak_ok env); simpl | ] ];
    eexists; (split; [reflexivity | ]); simpl;
    rewrite ?app_nil_r, <- ?app_assoc; repeat split; auto.
Qed.

(** Once a successful [restore_terminal] has run, another one does
    nothing. *)
Lemma release_again (w w1 : world) :
  tcsetattr_ok env = true ->
  old_settings w1 = fst (released env w) ->
  release_calls env w1 = []
  /\ fst (released env w1) = old_settings w1
  /\ snd (released env w1) = tty w1.
Proof.
  unfold released, release_calls. intros Hok ->. rewrite Hok.
  destruct (old_settings w) as [m | ]; [destruct (win32 env) eqn:Hw | ];
    simpl; rewrite ?Hw; auto.
Qed.

(** A whole call of [countdown], finished or observed up to some turn of
    its loop: what it did before the loop, in the loop and after it. *)
Lemma countdown_spec (total : Z) (task : string) (log_number : option Z)
    (sch : schedule) (w : world) (res : res session_outcome) (w' : world) :
  countdown env total task log_number sch w = (res, w') ->
  exists w0 evs_loop evs_exit,
    enter_countdown env total w = (Ok tt, w0)
    /\ trace w' = trace w0 ++ evs_loop ++ evs_exit
    /\ term_calls evs_loop = []
    /\ descending total (checks_of evs_loop)
    /\ (forall c, c <> ClipBeep ->
          (count_occ clip_eq_dec (loads_of evs_loop) c
           <= checks_on total c (checks_of evs_loop))%nat)
    /\ checks_of evs_exit = []
    /\ Forall (eq ClipFinished) (loads_of evs_exit)
    /\ (tcsetattr_ok env = true -> res <> Pending ->
        term_calls evs_exit = release_calls env w0
        /\ old_settings w' = fst (released env w0)
        /\ tty w' = snd (released env w0)).
Proof.
  unfold countdown. unfold bind at 1.
  destruct (enter_countdown_spec total w)
    as (w0 & Eenter & Hrun0 & _ & Hrem0 & _ & _ & _ & _ & _ & _ & _ & _).
  rewrite Eenter.
  unfold try_finally, try_except. unfold bind at 1.
  destruct (countdown_loop env total task (iterations sch) w0)
    as [r1 w2] eqn:Hloop.
  destruct (countdown_loop_spec _ _ _ _ _ _ Hloop)
    as (Hframe & _ & _ & evs_loop & Tloop & Hterm & Hdesc & Hloads).
  rewrite Hrem0 in Hdesc.
  destruct Hframe as (Hrun2 & Hold2 & _ & _ & Htty2 & _ & _).
  assert (Hrel2 : release_calls env w2 = release_calls env w0
                  /\ released env w2 = released env w0)
    by (unfold release_calls, released; rewrite Hold2, Htty2; auto).
  destruct Hrel2 as [Hcalls2 Hreleased2].
  destruct r1 as [[] | e | ].
  - (* the loop ended by its test *)
    unfold bind at 1. unfold gets at 1. rewrite Hrun2, Hrun0.
    destruct (completion_block_spec total task log_number sch w2)
      as (w3 & r3 & w4 & evs3 & E3 & Eblock & T4 & Hold4 & Htty4 & _ & _
          & Hterm3 & Hchk3 & _ & Hloads3 & Hcase).
    rewrite Eblock.
    destruct (restore_terminal_spec w2)
      as (w3' & E3' & _ & Hold3 & Htty3 & T3).
    rewrite E3 in E3'. injection E3' as <-.
    assert (Ho4 : old_settings w4 = fst (released env w2)) by congruence.
    destruct (at_completion sch) as [e | ].
    + subst r3. destruct (is_keyboard_interrupt e).
      * (* interrupted on the completion screen *)
        destruct (stop_handler_spec task log_number sch w4)
          as (w5 & r6 & w6 & evs6 & E5 & Ehandler & T6 & Hold6 & Htty6 & _
              & _ & _ & Hterm6 & Hchk6 & _ & Hloads6 & Hcase6).
        rewrite Ehandler.
        destruct (restore_terminal_spec (set_is_running false w4))
          as (w5' & E5' & _ & Hold5 & Htty5 & T5).
        rewrite E5 in E5'. injection E5' as <-.
        destruct (restore_terminal_spec w6)
          as (w7 & E7 & _ & Hold7 & Htty7 & T7).
        rewrite E7.
        assert (Htrace : trace w7 = trace w0 ++ evs_loop ++
                  map term_event (release_calls env w2) ++ evs3 ++
                  map term_event (release_calls env (set_is_running false w4))
                  ++ evs6 ++ map term_event (release_calls env w6)).
        { rewrite T7, T6, T5. simpl. rewrite T4, T3, Tloop.
          rewrite <- !app_assoc. reflexivity. }
        destruct r6 as [o | e6 | ];
          [ | | destruct (at_stop sch);
              [discriminate Hcase6
              | destruct Hcase6 as [Hc6 _]; discriminate Hc6] ];
          intros Hres; injection Hres as <- <-;
          exists w0, evs_loop,
            (map term_event (release_calls env w2) ++ evs3 ++
             map term_event (release_calls env (set_is_running false w4))
             ++ evs6 ++ map term_event (release_calls env w6));
          (split; [reflexivity | ]); (split; [exact Htrace | ]);
          repeat (split; [assumption | ]);
          autorewrite with trace;
          rewrite Hchk3, Hchk6, Hloads6, Hterm3, Hterm6; simpl;
          (split; [reflexivity | ]);
          (split; [rewrite app_nil_r; assumption | ]);
          intros Hok _;
          assert (Ho4' : old_settings (set_is_running false w4)
                         = fst (released env w2)) by exact Ho4;
          destruct (release_again w2 (set_is_running false w4) Hok Ho4')
            as (Hc5 & Ho5 & Ht5);
          assert (Ho6 : old_settings w6 = fst (released env w2))
            by (rewrite Hold6, Hold5, Ho5; exact Ho4);
          destruct (release_again w2 w6 Hok Ho6) as (Hc7 & Ho7 & Ht7);
          rewrite Hc5, Hc7, Hcalls2; simpl; rewrite app_nil_r;
          (split; [reflexivity | ]);
          rewrite Hold7, Htty7, Ho7, Ht7, Ho6, Htty6, Htty5, Ht5,
            <- Hreleased2;
          simpl; split; congruence.
      * (* another exception on the completion screen *)
        destruct (restore_terminal_spec w4)
          as (w7 & E7 & _ & Hold7 & Htty7 & T7).
        rewrite E7.
        intros Hres; injection Hres as <- <-.
        exists w0, evs_loop,
          (map term_event (release_calls env w2) ++ evs3
           ++ map term_event (release_calls env w4)).
        split; [reflexivity | ].
        split; [rewrite T7, T4, T3, Tloop, <- !app_assoc; reflexivity | ].
        repeat (split; [assumption | ]).
        autorewrite with trace. rewrite Hchk3, Hterm3. simpl.
        split; [reflexivity | ]. split; [rewrite app_nil_r; assumption | ].
        intros Hok _.
        destruct (release_again w2 w4 Hok Ho4) as (Hc7 & Ho7 & Ht7).
        rewrite Hc7, Hcalls2, app_nil_r. split; [reflexivity | ].
        rewrite Hold7, Htty7, Ho7, Ht7, <- Hreleased2. split; congruence.
    + (* completed *)
      destruct Hcase as (-> & _).
      destruct (restore_terminal_spec w4)
        as (w7 & E7 & _ & Hold7 & Htty7 & T7).
      rewrite E7.
      intros Hres; injection Hres as <- <-.
      exists w0, evs_loop,
        (map term_event (release_calls env w2) ++ evs3
         ++ map term_event (release_calls env w4)).
      split; [reflexivity | ].
      split; [rewrite T7, T4, T3, Tloop, <- !app_assoc; reflexivity | ].
      repeat (split; [assumption | ]).
      autorewrite with trace. rewrite Hchk3, Hterm3. simpl.
      split; [reflexivity | ]. split; [rewrite app_nil_r; assumption | ].
      intros Hok _.
      destruct (release_again w2 w4 Hok Ho4) as (Hc7 & Ho7 & Ht7).
      rewrite Hc7, Hcalls2, app_nil_r. split; [reflexivity | ].
      rewrite Hold7, Htty7, Ho7, Ht7, <- Hreleased2. split; congruence.
  - destruct (is_keyboard_interrupt e).
    + (* interrupted in the loop *)
      destruct (stop_handler_spec task log_number sch w2)
        as (w5 & r6 & w6 & evs6 & E5 & Ehandler & T6 & Hold6 & Htty6 & _
            & _ & _ & Hterm6 & Hchk6 & _ & Hloads6 & Hcase6).
      rewrite Ehandler.
      destruct (restore_terminal_spec (set_is_running false w2))
        as (w5' & E5' & _ & Hold5 & Htty5 & T5).
      rewrite E5 in E5'. injection E5' as <-.
      destruct (restore_terminal_spec w6)
        as (w7 & E7 & _ & Hold7 & Htty7 & T7).
      rewrite E7.
      assert (Htrace : trace w7 = trace w0 ++ evs_loop ++
                map term_event (release_calls env (set_is_running false w2))
                ++ evs6 ++ map term_event (release_calls env w6)).
      { rewrite T7, T6, T5. simpl. rewrite Tloop.
        rewrite <- !app_assoc. reflexivity. }
      destruct r6 as [o | e6 | ];
        [ | | destruct (at_stop sch);
              [discriminate Hcase6
              | destruct Hcase6 as [Hc6 _]; discriminate Hc6] ];
        intros Hres; injection Hres as <- <-;
        exists w0, evs_loop,
          (map term_event (release_calls env (set_is_running false w2))
           ++ evs6 ++ map term_event (release_calls env w6));
        (split; [reflexivity | ]); (split; [exact Htrace | ]);
        repeat (split; [assumption | ]);
        autorewrite with trace; rewrite Hchk6, Hloads6, Hterm6; simpl;
        (split; [reflexivity | ]); (split; [constructor | ]);
        intros Hok _;
        assert (Ho6 : old_settings w6
                      = fst (released env (set_is_running false w2)))
          by congruence;
        destruct (release_again (set_is_running false w2) w6 Hok Ho6)
          as (Hc7 & Ho7 & Ht7);
        rewrite Hc7, app_nil_r;
        (split; [unfold release_calls; simpl; rewrite Hold2; reflexivity | ]);
        rewrite Hold7, Htty7, Ho7, Ht7, Ho6, Htty6, Htty5, <- Hreleased2;
        unfold released; simpl; split; reflexivity.
    + (* another exception in the loop *)
      destruct (restore_terminal_spec w2)
        as (w7 & E7 & _ & Hold7 & Htty7 & T7).
      rewrite E7.
      intros Hres; injection Hres as <- <-.
      exists w0, evs_loop, (map term_event (release_calls env w2)).
      split; [reflexivity | ].
      split; [rewrite T7, Tloop, <- !app_assoc; reflexivity | ].
      repeat (split; [assumption | ]).
      autorewrite with trace.
      split; [reflexivity | ]. split; [constructor | ].
      intros Hok _. rewrite Hcalls2. split; [reflexivity | ].
      rewrite Hold7, Htty7, Hreleased2. split; reflexivity.
  - intros Hres. injection Hres as <- <-.
    exists w0, evs_loop, [].
    split; [reflexivity | ]. split; [rewrite app_nil_r; exact Tloop | ].
    repeat (split; [assumption | ]).
    split; [reflexivity | ]. split; [constructor | ].
    intros _ Hnp. congruence.
Qed.

(** The turns already made can be split off a run of the loop that is
    still turning. *)
Lemma countdown_loop_app (total : Z) (task : string)
    (pre rest : list iteration_input) (w w1 : world) :
  countdown_loop env total task pre w = (Pending, w1) ->
  countdown_loop env total task (pre ++ rest) w
  = countdown_loop env total task rest w1.
Proof.
  revert w; induction pre as [ | i pre IH]; intros w.
  - simpl. destruct ((remaining_seconds w >? 0) && is_running w);
      intros Hrun; [injection Hrun as <-; reflexivity | discriminate].
  - destruct ((remaining_seconds w >? 0) && is_running w) eqn:Hc.
    + rewrite <- app_comm_cons, !countdown_loop_cons by exact Hc.
      destruct (loop_body env total task i w) as [r1 w2] eqn:Hbody.
      destruct (loop_body_spec _ _ _ _ _ _ Hbody) as (_ & Hnp & _).
      destruct r1 as [[] | e | ]; [apply IH | discriminate | congruence].
    + simpl. rewrite Hc. discriminate.
Qed.

Lemma loop_test (w : world) (r : Z) :
  remaining_seconds w = r -> is_running w = true -> 0 < r ->
  (remaining_seconds w >? 0) && is_running w = true.
Proof.
  intros -> -> Hr. rewrite andb_true_r. apply Z.gtb_lt. lia.
Qed.

(** Turns of the loop in which nothing happens, while the timer runs:
    each one makes one tick. *)
Lemma calm_turns (total : Z) (task : string) (inputs : list iteration_input)
    (w : world) :
  Forall (calm env) inputs ->
  is_paused w = false -> is_running w = true ->
  Z.of_nat (List.length inputs) < remaining_seconds w ->
  exists w',
    countdown_loop env total task inputs w = (Pending, w')
    /\ session_frame w w' /\ is_paused w' = false
    /\ remaining_seconds w'
       = remaining_seconds w - Z.of_nat (List.length inputs).
Proof.
  revert w; induction inputs as [ | i rest IH]; intros w Hcalm Hp Hr Hlen.
  - simpl in *. exists w.
    rewrite (loop_test w _ eq_refl Hr) by lia.
    repeat split; auto; lia.
  - inversion Hcalm as [ | ? ? Hi Hrest]; subst.
    cbn [List.length] in Hlen.
    rewrite countdown_loop_cons by (apply (loop_test w _ eq_refl Hr); lia).
    destruct (running_turn total task i w Hi Hp)
      as (w1 & E1 & Hf1 & Hp1 & Hr1 & _).
    rewrite E1.
    assert (Hrun1 : is_running w1 = true)
      by (destruct Hf1 as (-> & _); exact Hr).
    destruct (IH w1 Hrest Hp1 Hrun1) as (w' & E' & Hf' & Hp' & Hr');
      [lia | ].
    exists w'. split; [exact E' | ].
    split; [eapply session_frame_trans; eauto | ].
    split; [exact Hp' | ].
    cbn [List.length]. lia.
Qed.


(** The loop while paused, the pause key left alone: it turns without
    end and only redraws the screen. *)
Lemma paused_run (total : Z) (task : string) (inputs : list iteration_input)
    (w : world) :
  Forall (calm env) inputs ->
  is_paused w = true -> is_running w = true -> 0 < remaining_seconds w ->
  exists w',
    countdown_loop env total task inputs w = (Pending, w')
    /\ only_time_passed w w'
    /\ trace w' = trace w
         ++ paused_events total task (remaining_seconds w)
              (List.length inputs).
Proof.
  revert w; induction inputs as [ | i rest IH]; intros w Hcalm Hp Hr Hrem.
  - exists w. simpl. rewrite (loop_test w _ eq_refl Hr Hrem).
    rewrite app_nil_r. repeat split.
  - inversion Hcalm as [ | ? ? Hi Hrest]; subst.
    rewrite countdown_loop_cons by (apply (loop_test w _ eq_refl Hr Hrem)).
    destruct (paused_turn total task i w Hi Hp) as (w1 & E1 & S1 & T1).
    rewrite E1.
    destruct S1 as (S1a & S1b & S1c & S1d & S1e & S1f & S1g & S1h & S1i).
    destruct (IH w1 Hrest) as (w' & E' & S' & T'); try congruence.
    exists w'. split; [exact E' | ]. split.
    + unfold only_time_passed in *. intuition congruence.
    + rewrite T', T1, S1f. unfold paused_events. simpl.
      rewrite <- !app_assoc. reflexivity.
Qed.

(** The pause key pressed while paused: the countdown goes on from the
    value it was paused at. *)
Lemma resume_turn (total : Z) (task : string) (i : iteration_input)
    (w : world) :
  is_p (_check_keyboard_input env (stdin_poll i)) = true ->
  delivered i = None -> is_paused w = true ->
  exists w',
    loop_body env total task i w = (Ok tt, w')
    /\ session_frame w w' /\ is_paused w' = false
    /\ remaining_seconds w' = remaining_seconds w - 1
    /\ trace w' = trace w
         ++ [EvPrint MsgResumed;
             EvDisplay (remaining_seconds w) total task false;
             EvDisplay (remaining_seconds w) total task false;
             EvCheck (remaining_seconds w) total]
         ++ map EvAudio (turn_ops env total (remaining_seconds w))
         ++ [EvSleep 10; EvTick (remaining_seconds w - 1)].
Proof.
  intros Hkey Hnone Hp.
  unfold loop_body. cbv zeta. rewrite Hkey.
  unfold interruptible, _toggle_pause. rewrite Hnone. unfold_effects.
  rewrite Hp. simpl. run_perform.
  unfold turn_ops.
  destruct (remaining_seconds w <=? 5).
  - run_perform. simpl in *.
    eexists; split; [reflexivity | split; [ | split; [ | split]]]; simpl.
    + repeat split; simpl; rewrite ?length_map; congruence.
    + congruence.
    + reflexivity.
    + rewrite T0, T, map_app, <- !app_assoc. reflexivity.
  - simpl in *.
    eexists; split; [reflexivity | split; [ | split; [ | split]]]; simpl.
    + repeat split; simpl; rewrite ?length_map; congruence.
    + congruence.
    + reflexivity.
    + rewrite T, app_nil_r, <- !app_assoc. reflexivity.
Qed.

(** A turn of the loop in which an exception comes up ends on that
    exception, before the decrement. *)
Lemma raised_turn (total : Z) (task : string) (i : iteration_input)
    (w : world) (pt : raise_point) (e : exn) :
  delivered i = Some (pt, e) ->
  exists w',
    loop_body env total task i w = (Raised e, w')
    /\ session_frame w w'
    /\ remaining_seconds w' = remaining_seconds w.
Proof.
  intros Hd. unfold loop_body. cbv zeta.
  destruct (is_p (_check_keyboard_input env (stdin_poll i)));
    unfold interruptible, _toggle_pause; rewrite Hd;
    destruct pt; destruct (is_paused w) eqn:Hp;
    unfold_effects; simpl; rewrite ?Hp; simpl;
    repeat run_perform;
    try (destruct (remaining_seconds w <=? 5) eqn:Hfive; repeat run_perform);
    simpl in *;
    (eexists; split; [reflexivity | ]);
    (split; [repeat split; simpl; rewrite ?length_map; congruence | ]);
    simpl; congruence.
Qed.


Lemma countdown_values_below (n : nat) (v : Z) :
  In v (countdown_values n) -> 0 <= v < Z.of_nat n.
Proof.
  induction n as [ | n IH]; simpl; [tauto | ].
  intros [<- | Hin]; [lia | apply IH in Hin; lia].
Qed.





(** A run of the loop observed while still turning stands before a turn:
    the test of the loop holds. *)
Lemma pending_means_turning (total : Z) (task : string)
    (inputs : list iteration_input) (w w1 : world) :
  countdown_loop env total task inputs w = (Pending, w1) ->
  (remaining_seconds w1 >? 0) && is_running w1 = true.
Proof.
  revert w; induction inputs as [ | i rest IH]; intros w.
  - simpl. destruct ((remaining_seconds w >? 0) && is_running w) eqn:Hc;
      intros Hrun; [injection Hrun as <-; exact Hc | discriminate].
  - destruct ((remaining_seconds w >? 0) && is_running w) eqn:Hc.
    + rewrite countdown_loop_cons by exact Hc.
      destruct (loop_body env total task i w) as [r1 w2] eqn:Hbody.
      destruct (loop_body_spec _ _ _ _ _ _ Hbody) as (_ & Hnp & _).
      destruct r1 as [[] | e | ]; [apply IH | discriminate | congruence].
    + simpl. rewrite Hc. discriminate.
Qed.


End Effects.

(** * Properties of a countdown session *)

Lemma descending_NoDup (hi : Z) (l : list Z) : descending hi l -> NoDup l.
Proof.
  revert hi; induction l as [ | x l IH]; intros hi; simpl.
  - constructor.
  - intros [Hx Hl]. constructor; [ | eauto].
    intros Hin. apply descending_le in Hl.
    rewrite Forall_forall in Hl. apply Hl in Hin. lia.
Qed.

(** C4: in a session, observed to its end or up to any turn of its loop
    and whatever the keyboard does (pause and resume included), the
    scheduler is called on values of [remaining_seconds] that only
    descend, hence never twice on the same value, and no threshold
    notification starts more than once. *)
Theorem thresholds_fire_at_most_once (env : environment) (total : Z)
    (task : string) (log_number : option Z) (sch : schedule) (w : world) :
  exists evs,
    trace (snd (countdown env total task log_number sch w)) = trace w ++ evs
    /\ descending total (checks_of evs)
    /\ NoDup (checks_of evs)
    /\ Forall (fun c => (count_occ clip_eq_dec (loads_of evs) c <= 1)%nat)
         threshold_clips.
Proof.
  destruct (countdown env total task log_number sch w) as [res w'] eqn:Hrun.
  destruct (countdown_spec _ _ _ _ _ _ _ _ Hrun)
    as (w0 & evs_loop & evs_exit & Eenter & T & _ & Hdesc & Hloads & Hchk
        & Hfin & _).
  destruct (enter_countdown_spec env total w)
    as (w0' & Eenter' & _ & _ & _ & _ & _ & _ & _ & _ & _ & _ & T0).
  rewrite Eenter in Eenter'. injection Eenter' as <-.
  exists (map term_event (acquire_calls env) ++ evs_loop ++ evs_exit).
  simpl. split; [rewrite T, T0, <- !app_assoc; reflexivity | ].
  autorewrite with trace. rewrite Hchk, app_nil_r. simpl.
  split; [exact Hdesc | ]. split; [eapply descending_NoDup; eauto | ].
  assert (Hone : forall c, c <> ClipBeep -> c <> ClipFinished ->
            (count_occ clip_eq_dec (loads_of evs_loop ++ loads_of evs_exit) c
             <= 1)%nat).
  { intros c Hb Hf. rewrite count_occ_app.
    replace (count_occ clip_eq_dec (loads_of evs_exit) c) with 0%nat.
    - pose proof (Hloads c Hb) as Hle. unfold checks_on in Hle.
      destruct (trigger total c) as [v | ]; [ | lia].
      pose proof (descending_count total v _ Hdesc). lia.
    - symmetry. apply count_occ_not_In. intros Hin.
      rewrite Forall_forall in Hfin. apply Hfin in Hin. congruence. }
  unfold threshold_clips.
  repeat (constructor; [apply Hone; discriminate | ]). constructor.
Qed.




(** The events of the completion branch, one by one. *)
Lemma completion_events_spelled (env : environment) (total : Z)
    (task : string) (log_number : option Z) (id : nat) :
  completion_events env total task log_number id
  = [EvSleep 1; EvPrint (MsgCompletionScreen total task)]
    ++ map EvAudio
         match status_of (audio env) ClipFinished with
         | Playable =>
             [Load ClipFinished; Play ClipFinished; WaitIdle ClipFinished]
         | Missing => [ReportMissing ClipFinished]
         | Corrupt => [LoadRaises ClipFinished; ReportError]
         end
    ++ (if truthy log_number && negb (log_writable env)
        then [EvPrint MsgLogSaveError] else [])
    ++ [EvStartThread id].
Proof.
  unfold completion_events, play_sound_ops, save_events.
  destruct (status_of (audio env) ClipFinished), (truthy log_number),
    (log_writable env); reflexivity.
Qed.



(** C5: paused at [r > 0] seconds, the loop turns any number of times
    while the pause key is left alone without a decrement, a scheduler
    call or a sound: only the screen is redrawn; and when the pause key
    comes again the countdown goes on from [r]: the screen shows [r], the
    scheduler is called on [r], and the next value is [r - 1]. *)
Theorem pause_freezes_remaining (env : environment) (total : Z)
    (task : string) (idle : list iteration_input) (w : world) (r : Z) :
  0 < r -> remaining_seconds w = r ->
  is_running w = true -> is_paused w = true ->
  Forall (calm env) idle ->
  exists w1,
    countdown_loop env total task idle w = (Pending, w1)
    /\ remaining_seconds w1 = r /\ is_paused w1 = true
    /\ trace w1 = trace w ++ paused_events total task r (List.length idle)
    /\ ticks_of (paused_events total task r (List.length idle)) = []
    /\ checks_of (paused_events total task r (List.length idle)) = []
    /\ loads_of (paused_events total task r (List.length idle)) = []
    /\ forall i,
        is_p (_check_keyboard_input env (stdin_poll i)) = true ->
        delivered i = None ->
        exists w2 evs,
          loop_body env total task i w1 = (Ok tt, w2)
          /\ is_paused w2 = false
          /\ remaining_seconds w2 = r - 1
          /\ trace w2 = trace w1
               ++ EvPrint MsgResumed :: EvDisplay r total task false :: evs
          /\ checks_of evs = [r]
          /\ ticks_of evs = [r - 1].
Proof.
  intros Hr Hrem Hrun Hp Hcalm.
  destruct (paused_run env total task idle w Hcalm Hp Hrun)
    as (w1 & E1 & S1 & T1); [lia | ].
  destruct S1 as (Hrun1 & Hp1 & _ & _ & _ & Hrem1 & _).
  exists w1. split; [exact E1 | ].
  split; [congruence | ]. split; [congruence | ].
  split; [rewrite T1, Hrem; reflexivity | ].
  assert (Hquiet : forall k,
            ticks_of (paused_events total task r k) = []
            /\ checks_of (paused_events total task r k) = []
            /\ loads_of (paused_events total task r k) = []).
  { unfold paused_events. induction k as [ | k IH]; simpl; auto. }
  destruct (Hquiet (List.length idle)) as (Hq1 & Hq2 & Hq3).
  repeat (split; [assumption | ]).
  intros i Hkey Hnone.
  destruct (resume_turn env total task i w1 Hkey Hnone)
    as (w2 & E2 & _ & Hp2 & Hrem2 & T2); [congruence | ].
  assert (Hr1 : remaining_seconds w1 = r) by congruence.
  rewrite Hr1 in *.
  exists w2. eexists.
  split; [exact E2 | ]. split; [exact Hp2 | ]. split; [exact Hrem2 | ].
  split; [rewrite T2; simpl; reflexivity | ].
  unfold checks_of, ticks_of. simpl.
  fold (checks_of (map EvAudio (turn_ops env total r)
                   ++ [EvSleep 10; EvTick (r - 1)])).
  fold (ticks_of (map EvAudio (turn_ops env total r)
                  ++ [EvSleep 10; EvTick (r - 1)])).
  autorewrite with trace. simpl. auto.
Qed.

Lemma pause_freezes_remaining_witness :
  exists w1,
    countdown_loop (friendly 30) 600 "plank" (repeat quiet 5)
      (set_is_paused true
         (set_is_running true
            (set_remaining_seconds 42 (initial_world LogAbsent))))
    = (Pending, w1)
    /\ remaining_seconds w1 = 42.
Proof.
  destruct (pause_freezes_remaining (friendly 30) 600 "plank"
              (repeat quiet 5)
              (set_is_paused true
                 (set_is_running true
                    (set_remaining_seconds 42 (initial_world LogAbsent))))
              42)
    as (w1 & Hrun & Hrem & _).
  - lia.
  - reflexivity.
  - reflexivity.
  - reflexivity.
  - repeat constructor.
  - exists w1. split; [exact Hrun | exact Hrem].
Defined.




(** * Properties of the reminder thread *)

Section Reminder.

Variable a : audio_env.

Lemma thread_run_S (active : bool) (n : nat) (t : thread_state) :
  thread_run a active (S n) t = thread_run a active n (thread_tick a active t).
Proof. reflexivity. Qed.

Lemma thread_run_add (active : bool) (n m : nat) (t : thread_state) :
  thread_run a active (n + m) t
  = thread_run a active m (thread_run a active n t).
Proof.
  revert t; induction n as [ | n IH]; intros t; [reflexivity | ].
  cbn [Nat.add]. rewrite !thread_run_S. apply IH.
Qed.

Lemma exited_stays (active : bool) (n : nat) :
  thread_run a active n RExited = RExited.
Proof. induction n as [ | n IH]; [reflexivity | rewrite thread_run_S; exact IH]. Qed.

(** With [reminder_active] false a sleeping thread leaves at the end of
    its sleep. *)
Lemma sleeper_exits (m : nat) :
  thread_run a false (Nat.max m 1) (RSleeping m) = RExited.
Proof.
  induction m as [ | [ | m] IH]; try reflexivity.
  replace (Nat.max (S (S m)) 1) with (S (Nat.max (S m) 1)) by lia.
  rewrite thread_run_S. exact IH.
Qed.

Lemma second_play_ends (active : bool) (m : nat) :
  thread_run a active (Nat.max m 1) (RPlay2 m) = RSleeping WAIT_TICKS.
Proof.
  induction m as [ | [ | m] IH]; try reflexivity.
  replace (Nat.max (S (S m)) 1) with (S (Nat.max (S m) 1)) by lia.
  rewrite thread_run_S. exact IH.
Qed.

Lemma first_play_ends (active : bool) (m : nat) :
  thread_run a active (Nat.max m 1) (RPlay1 m)
  = RPlay2 (length_of a ClipReminder).
Proof.
  induction m as [ | [ | m] IH]; try reflexivity.
  replace (Nat.max (S (S m)) 1) with (S (Nat.max (S m) 1)) by lia.
  rewrite thread_run_S. exact IH.
Qed.

Lemma exits_after_time_to_exit (t : thread_state) :
  thread_run a false (time_to_exit a t) t = RExited.
Proof.
  assert (Hwait : thread_run a false WAIT_TICKS (RSleeping WAIT_TICKS)
                  = RExited)
    by (change WAIT_TICKS with (Nat.max WAIT_TICKS 1) at 1;
        apply sleeper_exits).
  destruct t as [m | m | m | ]; unfold time_to_exit.
  - apply sleeper_exits.
  - rewrite !thread_run_add, first_play_ends, second_play_ends. exact Hwait.
  - rewrite thread_run_add, second_play_ends. exact Hwait.
  - reflexivity.
Qed.

(** A waiting thread starts no playback once [reminder_active] is
    false. *)
Lemma sleeper_stays_silent (m k : nat) :
  (exists m', thread_run a false k (RSleeping m) = RSleeping m')
  \/ thread_run a false k (RSleeping m) = RExited.
Proof.
  revert m; induction k as [ | k IH]; intros m;
    [left; exists m; reflexivity | ].
  change (thread_run a false (S k) (RSleeping m))
    with (thread_run a false k (thread_tick a false (RSleeping m))).
  destruct m as [ | [ | m]]; cbn [thread_tick loop_head];
    [right; apply exited_stays | right; apply exited_stays | apply IH].
Qed.

End Reminder.

(** C9, as the specification words it, fails: a reminder thread that has
    just begun a playback when [stop_reminder_thread] is called is still
    running one full wait interval (and one playback) later; it sleeps
    its whole five minutes before it looks at the flag again. *)
Lemma reminder_outlives_stop :
  let env := friendly 30 in
  let w := snd (main env [quick_session "plank" WAIT_TICKS]
                  (initial_world LogAbsent)) in
  let w' := snd ((stop_reminder_thread env ;;
                  elapse env (Nat.max WAIT_TICKS 30)) w) in
  threads w = [RPlay1 30]
  /\ reminder_active w' = false
  /\ threads w' = [RSleeping 50]
  /\ alive_threads w' = 1%nat.
Proof. vm_compute. repeat split. Qed.

(** * The main loop and the reminder threads *)

(** Every method only adds to the trace. *)

Lemma appends_ret {A : Type} (x : A) : appends (ret x).
Proof. intros w. exists []. simpl. rewrite app_nil_r. reflexivity. Qed.

Lemma appends_raise {A : Type} (e : exn) : appends (@raise A e).
Proof. intros w. exists []. simpl. rewrite app_nil_r. reflexivity. Qed.

Lemma appends_gets {A : Type} (f : world -> A) : appends (gets f).
Proof. intros w. exists []. simpl. rewrite app_nil_r. reflexivity. Qed.

Lemma appends_emit (e : event) : appends (emit e).
Proof. intros w. exists [e]. reflexivity. Qed.

Lemma appends_modify (f : world -> world) :
  (forall w, trace (f w) = trace w) -> appends (modify f).
Proof.
  intros Hf w. exists []. simpl. rewrite app_nil_r. apply Hf.
Qed.

Lemma appends_bind {A B : Type} (c : M A) (k : A -> M B) :
  appends c -> (forall x, appends (k x)) -> appends (bind c k).
Proof.
  intros Hc Hk w. unfold bind.
  destruct (Hc w) as (evs1 & T1).
  destruct (c w) as [[x | e | ] w1]; simpl in T1.
  - destruct (Hk x w1) as (evs2 & T2).
    exists (evs1 ++ evs2). rewrite T2, T1, app_assoc. reflexivity.
  - exists evs1. exact T1.
  - exists evs1. exact T1.
Qed.

Lemma appends_try_except {A : Type} (sel : exn -> bool) (body handler : M A) :
  appends body -> appends handler -> appends (try_except sel body handler).
Proof.
  intros Hb Hh w. unfold try_except.
  destruct (Hb w) as (evs1 & T1).
  destruct (body w) as [[x | e | ] w1]; simpl in T1; try (exists evs1; exact T1).
  destruct (sel e); [ | exists evs1; exact T1].
  destruct (Hh w1) as (evs2 & T2).
  exists (evs1 ++ evs2). rewrite T2, T1, app_assoc. reflexivity.
Qed.

Lemma appends_try_finally {A : Type} (body : M A) (fin : M unit) :
  appends body -> appends fin -> appends (try_finally body fin).
Proof.
  intros Hb Hf w. unfold try_finally.
  destruct (Hb w) as (evs1 & T1).
  destruct (body w) as [[x | e | ] w1]; simpl in T1;
    try (exists evs1; exact T1);
    destruct (Hf w1) as (evs2 & T2);
    destruct (fin w1) as [[[] | e' | ] w2]; simpl in T2;
    exists (evs1 ++ evs2); simpl; rewrite T2, T1, app_assoc; reflexivity.
Qed.

Lemma appends_if {A : Type} (b : bool) (c1 c2 : M A) :
  appends c1 -> appends c2 -> appends (if b then c1 else c2).
Proof. destruct b; auto. Qed.

Create HintDb appends.
#[local] Hint Resolve appends_ret appends_raise appends_gets appends_emit
  appends_bind appends_try_except appends_try_finally appends_if : appends.
#[local] Hint Extern 1 (appends (modify _)) =>
  apply appends_modify; intros; reflexivity : appends.

Ltac grow :=
  repeat first
    [ solve [auto with appends]
    | apply appends_bind; [ | intros ? ]
    | apply appends_if
    | apply appends_try_except
    | apply appends_try_finally
    | match goal with
      | |- appends (match ?x with _ => _ end) => destruct x
      end ].

Section MainLoop.

Variable env : environment.

Lemma appends_elapse (n : nat) : appends (elapse env n).
Proof. unfold elapse. grow. Qed.

Lemma appends_perform (ops : list audio_op) : appends (perform env ops).
Proof.
  pose proof appends_elapse.
  induction ops as [ | op ops IH]; simpl; [grow | ].
  apply appends_bind; [ | intros; exact IH].
  unfold perform_op. grow.
Qed.

Lemma appends_join (id timeout : nat) : appends (join env id timeout).
Proof.
  pose proof appends_elapse.
  induction timeout as [ | n IH]; simpl; grow.
Qed.

Lemma appends_countdown_loop (total : Z) (task : string)
    (inputs : list iteration_input) :
  appends (countdown_loop env total task inputs).
Proof.
  induction inputs as [ | i rest IH]; intros w; simpl;
    destruct ((remaining_seconds w >? 0) && is_running w);
    try (exists []; simpl; rewrite app_nil_r; reflexivity).
  unfold bind.
  destruct (loop_body env total task i w) as [r1 w1] eqn:Hbody.
  destruct (loop_body_spec _ _ _ _ _ _ _ Hbody) as (_ & _ & evs1 & T1 & _).
  destruct r1 as [[] | e | ]; try (exists evs1; exact T1).
  destruct (IH w1) as (evs2 & T2).
  exists (evs1 ++ evs2). rewrite T2, T1, app_assoc. reflexivity.
Qed.

#[local] Hint Resolve appends_elapse appends_perform appends_join
  appends_countdown_loop : appends.

Lemma appends_countdown (total : Z) (task : string) (log_number : option Z)
    (sch : schedule) :
  appends (countdown env total task log_number sch).
Proof.
  unfold countdown, enter_countdown, acquire_terminal, restore_terminal,
    tcgetattr, setcbreak, tcsetattr, completion_block, stop_handler,
    raise_if, play_sound, sleep, start_reminder_thread, log_timer_complete,
    log_timer_stop, _load_logs, _save_logs.
  grow.
Qed.

#[local] Hint Resolve appends_countdown : appends.

Lemma stop_reminder_thread_spec (w : world) :
  exists w', stop_reminder_thread env w = (Ok tt, w')
             /\ trace w' = trace w ++ [EvStopReminder].
Proof.
  unfold stop_reminder_thread. generalize JOIN_TICKS; intros n.
  unfold bind at 1. unfold emit at 1, modify at 1.
  unfold bind at 1. unfold modify at 1.
  unfold bind at 1. unfold gets at 1.
  cbn [reminder_thread set_reminder_active set_trace].
  set (w1 := set_reminder_active false
               (set_trace (trace w ++ [EvStopReminder]) w)).
  assert (T1 : trace w1 = trace w ++ [EvStopReminder]) by reflexivity.
  assert (Hjoin : forall id k w2, exists w3,
            join env id k w2 = (Ok tt, w3) /\ trace w3 = trace w2).
  { intros id k; induction k as [ | k IH]; intros w2;
      [exists w2; split; reflexivity | ].
    cbn [join]. unfold bind at 1. unfold gets at 1.
    destruct (thread_alive id w2); [ | exists w2; split; reflexivity].
    unfold bind at 1. unfold elapse, modify.
    match goal with
    | |- context [join env id k ?w4] => destruct (IH w4) as (w3 & E & T)
    end.
    exists w3. split; [exact E | exact T]. }
  destruct (reminder_thread w) as [id | ];
    [ | exists w1; split; [reflexivity | exact T1] ].
  unfold bind at 1. unfold gets at 1.
  destruct (thread_alive id w1);
    [ | exists w1; split; [reflexivity | exact T1] ].
  destruct (Hjoin id n w1) as (w3 & E & T).
  exists w3. split; [exact E | congruence].
Qed.

(** [main] calls [stop_reminder_thread] before anything else of a new
    session: whatever the session does, all of it comes after that call
    in the trace. *)
Lemma stop_comes_first (u : user_session) (w : world) :
  exists evs,
    trace (snd (main_iteration env u w)) = trace w ++ EvStopReminder :: evs.
Proof.
  unfold main_iteration, get_user_input.
  destruct (stop_reminder_thread_spec w) as (w1 & E1 & T1).
  assert (Hrest : appends
    (input <- (elapse env (typing_ticks u) ;;
               ret (chosen_total u, chosen_task u)) ;;
     log_number <- log_timer_start env (fst input) (snd input) ;;
     lead_in env 3 ;;
     outcome <- countdown env (fst input) (snd input) (Some log_number)
                  (during u) ;;
     elapse env (idle_ticks u) ;;
     ret outcome)).
  { unfold log_timer_start, _get_next_log_number, _load_logs, _save_logs,
      lead_in, play_beep, sleep.
    grow. }
  destruct (Hrest w1) as (evs & T).
  exists evs. unfold bind at 1. unfold bind at 1. rewrite E1.
  unfold bind at 1 in T. cbv beta iota.
  rewrite T, T1, <- app_assoc. reflexivity.
Qed.

End MainLoop.

(** C8, at two ten-second sessions started one after the other:
    [stop_reminder_thread] is called before the first tick of the second
    session, all ten ticks of which follow it in the trace; yet the thread
    started by the first session is still asleep in its five-minute wait
    when the second session completes, the second completion sets
    [reminder_active] again and starts a second thread, so two reminder
    threads are alive, and the first one, waking up, finds the flag set
    and plays. *)
Theorem reminder_threads_pile_up :
  let env := friendly 30 in
  let run := main env [quick_session "plank" 20; quick_session "squats" 20]
               (initial_world LogAbsent) in
  fst run = Ok [Completed; Completed]
  /\ ticks_of (after_last_stop (trace (snd run))) = countdown_values 10
  /\ reminder_active (snd run) = true
  /\ threads (snd run) = [RSleeping 2739; RSleeping 2980]
  /\ alive_threads (snd run) = 2%nat
  /\ thread_run (audio env) (reminder_active (snd run)) 2739
       (nth 0 (threads (snd run)) RExited)
     = RPlay1 30.
Proof. vm_compute. repeat split. Qed.

(** * Further properties of the reminder thread *)

Section ReminderMore.

Variable a : audio_env.

Lemma tick_keeps_alive (t : thread_state) :
  is_alive t = true -> is_alive (thread_tick a true t) = true.
Proof.
  destruct t as [[ | [ | m]] | [ | [ | m]] | [ | [ | m]] | ]; simpl;
    try reflexivity; try discriminate;
    unfold loop_head; destruct (status_of a ClipReminder); reflexivity.
Qed.

Lemma still_sleeping (active : bool) (k m : nat) :
  (k < m)%nat -> thread_run a active k (RSleeping m) = RSleeping (m - k).
Proof.
  revert m; induction k as [ | k IH]; intros m Hk.
  - rewrite Nat.sub_0_r. reflexivity.
  - destruct m as [ | [ | m]]; try lia.
    rewrite thread_run_S. cbn [thread_tick]. rewrite IH by lia.
    f_equal.
Qed.

Lemma sleeper_wakes (active : bool) (m : nat) :
  (1 <= m)%nat -> thread_run a active m (RSleeping m) = loop_head a active.
Proof.
  intros Hm. replace m with ((m - 1) + 1)%nat at 1 by lia.
  rewrite thread_run_add, still_sleeping by lia.
  replace (m - (m - 1))%nat with 1%nat by lia. reflexivity.
Qed.

Lemma play_of_length (active : bool) (d : nat) :
  (1 <= d)%nat ->
  thread_run a active d (RPlay1 d) = RPlay2 (length_of a ClipReminder)
  /\ thread_run a active d (RPlay2 d) = RSleeping WAIT_TICKS.
Proof.
  intros Hd. replace d with (Nat.max d 1) at 1 3 by lia.
  split; [apply first_play_ends | apply second_play_ends].
Qed.

Lemma tick_stays_silent (active : bool) (t : thread_state) :
  status_of a ClipReminder <> Playable ->
  is_playing t = false -> is_playing (thread_tick a active t) = false.
Proof.
  intros Hs. destruct t as [[ | [ | m]] | m | m | ]; simpl;
    try reflexivity; try discriminate; intros _;
    unfold loop_head; destruct active;
    destruct (status_of a ClipReminder); try reflexivity; congruence.
Qed.

Lemma time_to_exit_tick (t : thread_state) :
  (time_to_exit a t <= S (time_to_exit a (thread_tick a false t)))%nat.
Proof.
  assert (1 <= WAIT_TICKS)%nat by (unfold WAIT_TICKS; lia).
  destruct t as [[ | [ | m]] | [ | [ | m]] | [ | [ | m]] | ];
    cbn [thread_tick loop_head time_to_exit]; lia.
Qed.

Lemma alive_before_time_to_exit (n : nat) (t : thread_state) :
  (n < time_to_exit a t)%nat -> is_alive (thread_run a false n t) = true.
Proof.
  revert t; induction n as [ | n IH]; intros t Hn.
  - destruct t; try reflexivity. simpl in Hn. lia.
  - rewrite thread_run_S. apply IH.
    pose proof (time_to_exit_tick t). lia.
Qed.

Lemma gone_after_time_to_exit (n : nat) (t : thread_state) :
  (time_to_exit a t <= n)%nat -> thread_run a false n t = RExited.
Proof.
  intros Hn.
  replace n with (time_to_exit a t + (n - time_to_exit a t))%nat by lia.
  rewrite thread_run_add, exits_after_time_to_exit. apply exited_stays.
Qed.

End ReminderMore.

(** X1: while [reminder_active] stays true a reminder thread never ends,
    whatever the state of the clip file. *)
Theorem reminder_never_exits_while_active (a : audio_env) (n : nat)
    (t : thread_state) :
  is_alive t = true -> is_alive (thread_run a true n t) = true.
Proof.
  revert t; induction n as [ | n IH]; intros t Ht; [exact Ht | ].
  change (thread_run a true (S n) t)
    with (thread_run a true n (thread_tick a true t)).
  apply IH, tick_keeps_alive, Ht.
Qed.

Lemma reminder_never_exits_while_active_witness :
  is_alive (thread_run (audio (friendly 30)) true 4000 (RSleeping WAIT_TICKS))
  = true.
Proof.
  apply (reminder_never_exits_while_active (audio (friendly 30)) 4000
           (RSleeping WAIT_TICKS)).
  reflexivity.
Defined.

(** X2: with the reminder clip in place and of length [d >= 1], an active
    reminder thread is silent for its first five minutes, then plays the
    clip twice back to back, and is back at the start of a five-minute
    sleep [WAIT_TICKS + 2 * d] ticks after it began: the cycle repeats
    with that period. *)
Theorem reminder_cycle (a : audio_env) (d : nat) :
  status_of a ClipReminder = Playable ->
  length_of a ClipReminder = d -> (1 <= d)%nat ->
  (forall k, (k < WAIT_TICKS)%nat ->
     is_playing (thread_run a true k (RSleeping WAIT_TICKS)) = false)
  /\ thread_run a true WAIT_TICKS (RSleeping WAIT_TICKS) = RPlay1 d
  /\ thread_run a true (WAIT_TICKS + d) (RSleeping WAIT_TICKS) = RPlay2 d
  /\ thread_run a true (WAIT_TICKS + d + d) (RSleeping WAIT_TICKS)
     = RSleeping WAIT_TICKS.
Proof.
  intros Hs Hd Hpos.
  assert (Hwake : thread_run a true WAIT_TICKS (RSleeping WAIT_TICKS)
                  = RPlay1 d).
  { rewrite sleeper_wakes by (unfold WAIT_TICKS; lia).
    unfold loop_head. rewrite Hs, Hd. reflexivity. }
  destruct (play_of_length a true d Hpos) as [H1 H2]. rewrite Hd in H1.
  split; [ | split; [exact Hwake | split] ].
  - intros k Hk. rewrite still_sleeping by exact Hk. reflexivity.
  - rewrite thread_run_add, Hwake. exact H1.
  - rewrite !thread_run_add, Hwake, H1. exact H2.
Qed.

Lemma reminder_cycle_witness :
  thread_run (audio (friendly 30)) true (WAIT_TICKS + 30 + 30)
    (RSleeping WAIT_TICKS)
  = RSleeping WAIT_TICKS.
Proof.
  apply (reminder_cycle (audio (friendly 30)) 30 eq_refl eq_refl).
  apply Nat.leb_le. reflexivity.
Defined.

(** X3: when the reminder clip is missing or cannot be loaded, a reminder
    thread never plays anything: it only sleeps, active or not. *)
Theorem reminder_silent_without_clip (a : audio_env) (active : bool)
    (n : nat) (t : thread_state) :
  status_of a ClipReminder <> Playable ->
  is_playing t = false ->
  is_playing (thread_run a active n t) = false.
Proof.
  intros Hs. revert t; induction n as [ | n IH]; intros t Ht; [exact Ht | ].
  change (thread_run a active (S n) t)
    with (thread_run a active n (thread_tick a active t)).
  apply IH, tick_stays_silent; assumption.
Qed.

Lemma reminder_silent_without_clip_witness :
  is_playing
    (thread_run {| status_of := fun _ => Missing; length_of := fun _ => 30%nat |}
       true 4000 (RSleeping WAIT_TICKS))
  = false.
Proof.
  apply (reminder_silent_without_clip
           {| status_of := fun _ => Missing; length_of := fun _ => 30%nat |}
           true 4000 (RSleeping WAIT_TICKS)).
  - discriminate.
  - reflexivity.
Defined.

(** * Stopping the reminder thread *)

Section StopMore.

Variable env : environment.

Lemma threads_run_zero (active : bool) (ts : list thread_state) :
  map (thread_run (audio env) active 0) ts = ts.
Proof. induction ts as [ | t ts IH]; simpl; [ | rewrite IH]; reflexivity. Qed.

Lemma threads_run_add (active : bool) (n m : nat) (ts : list thread_state) :
  map (thread_run (audio env) active m)
    (map (thread_run (audio env) active n) ts)
  = map (thread_run (audio env) active (n + m)) ts.
Proof.
  rewrite map_map. apply map_ext. intros t.
  symmetry. apply thread_run_add.
Qed.

Lemma thread_after_run (active : bool) (k id : nat)
    (ts : list thread_state) :
  nth id (map (thread_run (audio env) active k) ts) RExited
  = thread_run (audio env) active k (nth id ts RExited).
Proof.
  rewrite <- (exited_stays (audio env) active k) at 1. apply map_nth.
Qed.

(** [join]: it waits while the thread lives, [timeout] ticks at most, and
    does nothing else. *)
Lemma join_run (id timeout : nat) (w : world) :
  reminder_active w = false ->
  exists k w',
    join env id timeout w = (Ok tt, w')
    /\ (k <= timeout)%nat
    /\ clock w' = (clock w + k)%nat
    /\ threads w' = map (thread_run (audio env) false k) (threads w)
    /\ trace w' = trace w
    /\ only_time_passed w w'
    /\ ((k < timeout)%nat -> thread_alive id w' = false).
Proof.
  revert w; induction timeout as [ | n IH]; intros w Hflag.
  - exists 0%nat, w. rewrite threads_run_zero, Nat.add_0_r.
    repeat split; lia.
  - cbn [join]. unfold bind at 1. unfold gets at 1.
    destruct (thread_alive id w) eqn:Halive.
    + unfold bind at 1. unfold elapse, modify.
      match goal with
      | |- context [join env id n ?w1] =>
          destruct (IH w1) as (k & w' & E & Hk & Hc & Hth & Ht & Hs & Hgone);
            [exact Hflag | ]
      end.
      rewrite E. exists (S k), w'.
      cbn [clock threads trace set_clock set_threads] in Hc, Hth, Ht.
      rewrite Hflag, threads_run_add in Hth.
      split; [reflexivity | ]. split; [lia | ]. split; [lia | ].
      split; [exact Hth | ]. split; [exact Ht | ].
      split; [ | intros; apply Hgone; lia].
      destruct Hs as (? & ? & ? & ? & ? & ? & ? & ? & Hlen).
      cbn in *. rewrite length_map in Hlen. repeat split; assumption.
    + exists 0%nat, w. rewrite threads_run_zero, Nat.add_0_r.
      repeat split; auto; lia.
Qed.

(** [stop_reminder_thread], from any state. *)
Lemma stop_run (w : world) :
  exists k w',
    stop_reminder_thread env w = (Ok tt, w')
    /\ (k <= JOIN_TICKS)%nat
    /\ clock w' = (clock w + k)%nat
    /\ reminder_active w' = false
    /\ threads w' = map (thread_run (audio env) false k) (threads w)
    /\ trace w' = trace w ++ [EvStopReminder]
    /\ reminder_thread w' = reminder_thread w
    /\ log_file w' = log_file w
    /\ (reminder_thread w = None -> k = 0%nat)
    /\ (forall id, reminder_thread w = Some id ->
          thread_alive id w'
          = is_alive (thread_run (audio env) false JOIN_TICKS
                        (nth id (threads w) RExited))).
Proof.
  unfold stop_reminder_thread. generalize JOIN_TICKS; intros n.
  unfold bind at 1. unfold emit at 1, modify at 1.
  unfold bind at 1. unfold modify at 1.
  unfold bind at 1. unfold gets at 1.
  cbn [reminder_thread set_reminder_active set_trace].
  set (w1 := set_reminder_active false
               (set_trace (trace w ++ [EvStopReminder]) w)).
  destruct (reminder_thread w) as [id | ] eqn:Hid.
  - unfold bind at 1. unfold gets at 1.
    destruct (join_run id n w1 eq_refl)
      as (k & w' & E & Hk & Hc & Hth & Ht & Hs & Hgone).
    destruct Hs as (_ & _ & _ & Hact & Hrt & _ & _ & Hlog & _).
    assert (Hstate : forall k' w2,
              threads w2 = map (thread_run (audio env) false k') (threads w) ->
              ((k' < n)%nat -> thread_alive id w2 = false) ->
              (k' <= n)%nat ->
              thread_alive id w2
              = is_alive (thread_run (audio env) false n
                            (nth id (threads w) RExited))).
    { intros k' w2 Hth2 Hgone2 Hk2. unfold thread_alive in *.
      rewrite Hth2, thread_after_run in *.
      destruct (Nat.eq_dec k' n) as [-> | Hne]; [reflexivity | ].
      assert (Hsplit :
        thread_run (audio env) false n (nth id (threads w) RExited)
        = thread_run (audio env) false (n - k')
            (thread_run (audio env) false k' (nth id (threads w) RExited)))
        by (rewrite <- thread_run_add; f_equal; lia).
      rewrite Hsplit.
      assert (Hex : is_alive (thread_run (audio env) false k'
                                (nth id (threads w) RExited)) = false)
        by (apply Hgone2; lia).
      destruct (thread_run (audio env) false k' (nth id (threads w) RExited));
        try discriminate.
      rewrite exited_stays. reflexivity. }
    destruct (thread_alive id w1) eqn:Halive.
    + rewrite E. exists k, w'.
      split; [reflexivity | ]. split; [exact Hk | ]. split; [exact Hc | ].
      split; [exact Hact | ]. split; [exact Hth | ]. split; [exact Ht | ].
      split; [transitivity (reminder_thread w1); [exact Hrt | exact Hid] | ].
      split; [exact Hlog | ].
      split; [discriminate | ].
      intros id' Hid'. injection Hid' as <-.
      apply (Hstate k w' Hth Hgone Hk).
    + exists 0%nat, w1.
      split; [reflexivity | ]. split; [lia | ].
      split; [simpl; lia | ]. split; [reflexivity | ].
      split; [simpl; rewrite threads_run_zero; reflexivity | ].
      split; [reflexivity | ]. split; [exact Hid | ].
      split; [reflexivity | ]. split; [discriminate | ].
      intros id' Hid'. injection Hid' as <-.
      rewrite Halive. unfold thread_alive in Halive. simpl in Halive.
      destruct (nth id (threads w) RExited); try discriminate.
      rewrite exited_stays. reflexivity.
  - exists 0%nat, w1.
    split; [reflexivity | ]. split; [lia | ].
    split; [simpl; lia | ]. split; [reflexivity | ].
    split; [simpl; rewrite threads_run_zero; reflexivity | ].
    split; [reflexivity | ]. split; [exact Hid | ].
    split; [reflexivity | ]. split; [reflexivity | ].
    discriminate.
Qed.

End StopMore.

(** X4: [stop_reminder_thread] always returns, with [reminder_active]
    false, after one second (ten ticks) at most and at once when there is
    no thread; the time it takes is time the threads run with the flag
    down, and it does nothing else than stamp the trace. *)
Theorem stop_waits_at_most_a_second (env : environment) (w : world) :
  exists k w',
    stop_reminder_thread env w = (Ok tt, w')
    /\ (k <= JOIN_TICKS)%nat
    /\ clock w' = (clock w + k)%nat
    /\ reminder_active w' = false
    /\ threads w' = map (thread_run (audio env) false k) (threads w)
    /\ trace w' = trace w ++ [EvStopReminder]
    /\ log_file w' = log_file w
    /\ (reminder_thread w = None -> k = 0%nat).
Proof.
  destruct (stop_run env w)
    as (k & w' & E & Hk & Hc & Hact & Hth & Ht & _ & Hlog & Hnone & _).
  exists k, w'. repeat split; assumption.
Qed.

(** X5: the thread that [stop_reminder_thread] joins is gone when the call
    returns exactly when it was within one second of the end of a sleep;
    in any other state (sleeping longer, or playing) it outlives the
    call. *)
Theorem stop_ends_only_a_thread_about_to_wake (env : environment)
    (w : world) (id : nat) :
  reminder_thread w = Some id ->
  thread_alive id (snd (stop_reminder_thread env w)) = false
  <-> (time_to_exit (audio env) (nth id (threads w) RExited)
       <= JOIN_TICKS)%nat.
Proof.
  intros Hid.
  destruct (stop_run env w)
    as (k & w' & E & _ & _ & _ & _ & _ & _ & _ & _ & Hstate).
  rewrite E. cbn [snd]. rewrite (Hstate id Hid). split.
  - intros Hgone.
    destruct (Nat.le_gt_cases
                (time_to_exit (audio env) (nth id (threads w) RExited))
                JOIN_TICKS) as [Hle | Hgt]; [exact Hle | ].
    rewrite alive_before_time_to_exit in Hgone by exact Hgt. discriminate.
  - intros Hle. rewrite gone_after_time_to_exit by exact Hle. reflexivity.
Qed.

Lemma stop_ends_only_a_thread_about_to_wake_witness :
  thread_alive 0
    (snd (stop_reminder_thread (friendly 30)
            (set_reminder_thread (Some 0%nat)
               (set_threads [RSleeping 7]
                  (set_reminder_active true (initial_world LogAbsent))))))
  = false.
Proof.
  apply (stop_ends_only_a_thread_about_to_wake (friendly 30)
           (set_reminder_thread (Some 0%nat)
              (set_threads [RSleeping 7]
                 (set_reminder_active true (initial_world LogAbsent))))
           0 eq_refl).
  vm_compute. repeat constructor.
Defined.

(** * The reminder thread once [reminder_active] is false *)

Section ReminderAfterStop.

Variable a : audio_env.

Lemma exits_exactly (n : nat) (t : thread_state) :
  thread_run a false n t = RExited <-> (time_to_exit a t <= n)%nat.
Proof.
  split.
  - intros Hgone.
    destruct (Nat.le_gt_cases (time_to_exit a t) n) as [Hle | Hgt];
      [exact Hle | ].
    pose proof (alive_before_time_to_exit a n t Hgt) as Halive.
    rewrite Hgone in Halive. discriminate.
  - apply gone_after_time_to_exit.
Qed.

Lemma sleeper_never_plays (m n : nat) :
  is_playing (thread_run a false n (RSleeping m)) = false.
Proof.
  destruct (sleeper_stays_silent a m n) as [[m' ->] | ->]; reflexivity.
Qed.

Lemma still_in_first_play (active : bool) (k m : nat) :
  (k < Nat.max m 1)%nat ->
  thread_run a active k (RPlay1 m) = RPlay1 (m - k).
Proof.
  revert m; induction k as [ | k IH]; intros m Hk.
  - rewrite Nat.sub_0_r. reflexivity.
  - destruct m as [ | [ | m]]; try lia.
    rewrite thread_run_S. cbn [thread_tick]. rewrite IH by lia.
    f_equal.
Qed.

Lemma still_in_second_play (active : bool) (k m : nat) :
  (k < Nat.max m 1)%nat ->
  thread_run a active k (RPlay2 m) = RPlay2 (m - k).
Proof.
  revert m; induction k as [ | k IH]; intros m Hk.
  - rewrite Nat.sub_0_r. reflexivity.
  - destruct m as [ | [ | m]]; try lia.
    rewrite thread_run_S. cbn [thread_tick]. rewrite IH by lia.
    f_equal.
Qed.

Lemma second_play_is_finished (m n : nat) :
  is_playing (thread_run a false n (RPlay2 m)) = true
  <-> (n < Nat.max m 1)%nat.
Proof.
  split.
  - intros Hplay.
    destruct (Nat.le_gt_cases (Nat.max m 1) n) as [Hle | Hgt];
      [ | exact Hgt].
    replace n with (Nat.max m 1 + (n - Nat.max m 1))%nat in Hplay by lia.
    rewrite thread_run_add, second_play_ends, sleeper_never_plays in Hplay.
    discriminate.
  - intros Hlt. rewrite still_in_second_play by exact Hlt. reflexivity.
Qed.

Lemma first_play_is_followed (m n : nat) :
  is_playing (thread_run a false n (RPlay1 m)) = true
  <-> (n < Nat.max m 1 + Nat.max (length_of a ClipReminder) 1)%nat.
Proof.
  destruct (Nat.le_gt_cases (Nat.max m 1) n) as [Hle | Hgt].
  - replace n with (Nat.max m 1 + (n - Nat.max m 1))%nat at 1 by lia.
    rewrite thread_run_add, first_play_ends, second_play_is_finished.
    lia.
  - rewrite still_in_first_play by exact Hgt. split; [lia | reflexivity].
Qed.

End ReminderAfterStop.

(** C9, as the code has it: once [reminder_active] is false and stays
    false, a reminder thread starts no further cycle and leaves at its
    next look at the flag, not before.  A thread that waits leaves
    exactly at the end of its current five-minute wait and plays nothing
    any more.  A thread that plays goes on playing: what is left of the
    playback under way, then the second playback when it was in the
    first; it then sleeps the full five minutes that follow and leaves
    exactly at their end.  [stop_reminder_thread] itself waits one second
    at most: when it returns, the thread is gone exactly when it was
    within one second of the end of a wait. *)
Theorem reminder_exits_at_next_check (env : environment) :
  let a := audio env in
  let playback := Nat.max (length_of a ClipReminder) 1 in
  (forall m n,
      thread_run a false n (RSleeping m) = RExited
      <-> (Nat.max m 1 <= n)%nat)
  /\ (forall m n, is_playing (thread_run a false n (RSleeping m)) = false)
  /\ (forall m n,
         thread_run a false n (RPlay2 m) = RExited
         <-> (Nat.max m 1 + WAIT_TICKS <= n)%nat)
  /\ (forall m n,
         is_playing (thread_run a false n (RPlay2 m)) = true
         <-> (n < Nat.max m 1)%nat)
  /\ (forall m n,
         thread_run a false n (RPlay1 m) = RExited
         <-> (Nat.max m 1 + playback + WAIT_TICKS <= n)%nat)
  /\ (forall m n,
         is_playing (thread_run a false n (RPlay1 m)) = true
         <-> (n < Nat.max m 1 + playback)%nat)
  /\ (forall w, exists k w',
         stop_reminder_thread env w = (Ok tt, w')
         /\ (k <= JOIN_TICKS)%nat
         /\ clock w' = (clock w + k)%nat
         /\ reminder_active w' = false
         /\ threads w' = map (thread_run a false k) (threads w)
         /\ forall id, reminder_thread w = Some id ->
              thread_alive id w' = false
              <-> (time_to_exit a (nth id (threads w) RExited)
                   <= JOIN_TICKS)%nat).
Proof.
  cbv zeta.
  split; [intros m n; apply (exits_exactly (audio env) n (RSleeping m)) | ].
  split; [intros m n; apply sleeper_never_plays | ].
  split; [intros m n; apply (exits_exactly (audio env) n (RPlay2 m)) | ].
  split; [intros m n; apply second_play_is_finished | ].
  split; [intros m n; apply (exits_exactly (audio env) n (RPlay1 m)) | ].
  split; [intros m n; apply first_play_is_followed | ].
  intros w.
  destruct (stop_run env w)
    as (k & w' & E & Hk & Hc & Hact & Hth & _ & _ & _ & _ & Hstate).
  exists k, w'. split; [exact E | ]. split; [exact Hk | ].
  split; [exact Hc | ]. split; [exact Hact | ]. split; [exact Hth | ].
  intros id Hid. rewrite (Hstate id Hid).
  rewrite <- exits_exactly.
  destruct (thread_run (audio env) false JOIN_TICKS
              (nth id (threads w) RExited));
    simpl; split; congruence.
Qed.

Lemma reminder_exits_at_next_check_witness :
  thread_run (audio (friendly 30)) false 3060 (RPlay1 30) = RExited
  /\ is_playing (thread_run (audio (friendly 30)) false 59 (RPlay1 30))
     = true.
Proof.
  pose proof (reminder_exits_at_next_check (friendly 30))
    as (_ & _ & _ & _ & Hexit & Hplay & _).
  split.
  - apply (proj2 (Hexit 30%nat 3060%nat)). vm_compute. apply le_n.
  - apply (proj2 (Hplay 30%nat 59%nat)). vm_compute. apply le_n.
Defined.

(** * The session log *)

Lemma fold_max_bounds (xs : list Z) (a : Z) :
  a <= fold_left Z.max xs a
  /\ forall x, In x xs -> x <= fold_left Z.max xs a.
Proof.
  revert a; induction xs as [ | y xs IH]; intros a; simpl.
  - split; [lia | tauto].
  - destruct (IH (Z.max a y)) as [Ha Hin]. split; [lia | ].
    intros x [<- | Hx]; [lia | auto].
Qed.

Lemma next_number_above (logs : list log_entry) (l : log_entry) :
  In l logs -> number_or_zero l < next_number logs.
Proof.
  destruct logs as [ | l0 rest]; [intros [] | ].
  unfold next_number.
  destruct (fold_max_bounds (map number_or_zero rest) (number_or_zero l0))
    as [H0 Hin].
  intros [<- | Hl]; [lia | ].
  specialize (Hin (number_or_zero l) (in_map _ _ _ Hl)). lia.
Qed.

Lemma next_number_fresh (logs : list log_entry) (l : log_entry) :
  In l logs -> has_number (next_number logs) l = false.
Proof.
  intros Hl. pose proof (next_number_above logs l Hl) as Hlt.
  unfold has_number, number_or_zero in *.
  destruct (number l) as [m | ]; [apply Z.eqb_neq; lia | reflexivity].
Qed.

Lemma update_first_no_match (test : log_entry -> bool)
    (update : log_entry -> log_entry) (logs : list log_entry) :
  (forall l, In l logs -> test l = false) ->
  update_first test update logs = logs.
Proof.
  induction logs as [ | l logs IH]; intros Hno; simpl; [reflexivity | ].
  rewrite (Hno l (or_introl eq_refl)). f_equal. apply IH.
  intros l' Hl'. apply Hno. right; exact Hl'.
Qed.

Lemma update_first_at (test : log_entry -> bool)
    (update : log_entry -> log_entry) (pre post : list log_entry)
    (l : log_entry) :
  (forall x, In x pre -> test x = false) -> test l = true ->
  update_first test update (pre ++ l :: post) = pre ++ update l :: post.
Proof.
  induction pre as [ | p pre IH]; intros Hno Hl; simpl.
  - rewrite Hl. reflexivity.
  - rewrite (Hno p (or_introl eq_refl)). f_equal. apply IH; [ | exact Hl].
    intros x Hx. apply Hno. right; exact Hx.
Qed.

Ltac unfold_log :=
  unfold log_timer_start, log_timer_complete, log_timer_stop,
    _get_next_log_number, _load_logs, _save_logs, emit, modify, gets, ret,
    bind in *.

Section LogMore.

Variable env : environment.

(** [log_timer_start] on a writable file, from any state. *)
Lemma log_timer_start_run (total : Z) (task_description : string) (w : world) :
  log_writable env = true ->
  log_timer_start env total task_description w
  = (Ok (next_number (logs_of w)),
     set_log_file
       (LogContent
          (logs_of w
           ++ [started_entry (next_number (logs_of w)) (clock w) total
                 task_description])) w).
Proof.
  intros Hw. unfold_log. rewrite Hw. unfold logs_of, next_number.
  destruct (log_file w) as [ | | [ | l rest]]; reflexivity.
Qed.

End LogMore.

(** X6: on a writable log file [log_timer_start] appends one entry, marked
    started and not completed, and leaves the entries already there as
    they are; the number it returns and writes is larger than every
    number in the file, so no older entry carries it, and it is at least
    1 (hence true as a [log_number]) when no number in the file is
    negative. *)
Theorem log_timer_start_appends_fresh_entry (env : environment)
    (total : Z) (task_description : string) (w : world) :
  log_writable env = true ->
  exists n w' e,
    log_timer_start env total task_description w = (Ok n, w')
    /\ log_file w' = LogContent (logs_of w ++ [e])
    /\ number e = Some n /\ status e = StatusStarted
    /\ completed e = false /\ timer_duration e = total
    /\ trace w' = trace w
    /\ (forall l, In l (logs_of w) -> has_number n l = false)
    /\ (forall l, In l (logs_of w) -> number_or_zero l < n)
    /\ (Forall (fun l => 0 <= number_or_zero l) (logs_of w) ->
        truthy (Some n) = true).
Proof.
  intros Hw. rewrite (log_timer_start_run env total task_description w Hw).
  do 3 eexists. split; [reflexivity | ].
  repeat (split; [reflexivity | ]).
  split; [intros l; apply next_number_fresh | ].
  split; [intros l; apply next_number_above | ].
  intros Hpos. simpl. apply negb_true_iff, Z.eqb_neq.
  destruct (logs_of w) as [ | l0 rest] eqn:Hlogs; [discriminate | ].
  pose proof (next_number_above (l0 :: rest) l0 (or_introl eq_refl)).
  inversion Hpos; subst. lia.
Qed.

Lemma log_timer_start_appends_fresh_entry_witness :
  exists n w',
    log_timer_start (friendly 30) 600 "squats" (initial_world one_entry_log)
    = (Ok n, w')
    /\ truthy (Some n) = true.
Proof.
  destruct (log_timer_start_appends_fresh_entry (friendly 30) 600 "squats"
              (initial_world one_entry_log) eq_refl)
    as (n & w' & e & Hrun & _ & _ & _ & _ & _ & _ & _ & _ & Htruthy).
  exists n, w'. split; [exact Hrun | ].
  apply Htruthy. cbn. constructor; [cbn; lia | constructor].
Defined.

Section LogMore2.

Variable env : environment.

Lemma log_timer_complete_run (n : Z) (w : world) :
  log_writable env = true ->
  log_timer_complete env n w
  = (Ok tt,
     set_log_file
       (LogContent
          (update_first (has_number n) (mark_completed (clock w))
             (logs_of w))) w).
Proof.
  intros Hw. unfold_log. rewrite Hw. unfold logs_of.
  destruct (log_file w); reflexivity.
Qed.

Lemma log_timer_stop_run (n r : Z) (w : world) :
  log_writable env = true ->
  log_timer_stop env n r w
  = (Ok tt,
     set_log_file
       (LogContent
          (update_first (has_number n) (mark_stopped (clock w) r)
             (logs_of w))) w).
Proof.
  intros Hw. unfold_log. rewrite Hw. unfold logs_of.
  destruct (log_file w); reflexivity.
Qed.

End LogMore2.

(** X7: when the log file is missing, or exists and reading it raises one
    of the two exceptions [_load_logs] catches ([IOError] from [open] or the
    read, [json.JSONDecodeError] from [json.load]: the state
    [LogUnreadable]), the three log functions go on as if it were empty and,
    the file being writable, replace it: [log_timer_complete] and
    [log_timer_stop] leave an empty list, [log_timer_start] a single entry
    numbered 1; what such a file held is lost.  A file whose reading raises
    anything else (bytes that are not UTF-8 raise [UnicodeDecodeError], which
    is not caught) is not in [log_file_state] and not covered. *)
Theorem unreadable_log_is_replaced (env : environment) (total n r : Z)
    (task_description : string) (w : world) :
  log_writable env = true ->
  log_file w = LogAbsent \/ log_file w = LogUnreadable ->
  log_file (snd (log_timer_complete env n w)) = LogContent []
  /\ log_file (snd (log_timer_stop env n r w)) = LogContent []
  /\ fst (log_timer_start env total task_description w) = Ok 1
  /\ log_file (snd (log_timer_start env total task_description w))
     = LogContent [started_entry 1 (clock w) total task_description].
Proof.
  intros Hw Hfile.
  rewrite (log_timer_complete_run env n w Hw),
    (log_timer_stop_run env n r w Hw),
    (log_timer_start_run env total task_description w Hw).
  unfold logs_of. destruct Hfile as [-> | ->]; repeat split.
Qed.

Lemma unreadable_log_is_replaced_witness :
  log_file
    (snd (log_timer_stop (friendly 30) 3 437
            (set_log_file LogUnreadable (initial_world LogAbsent))))
  = LogContent [].
Proof.
  apply (unreadable_log_is_replaced (friendly 30) 600 3 437 "plank"
           (set_log_file LogUnreadable (initial_world LogAbsent)) eq_refl).
  right; reflexivity.
Defined.

(** X8: when the log file cannot be written, the three log functions
    change nothing in it, print the save error once and still return,
    [log_timer_start] with the number it would have written; so the
    number handed to [countdown] then names no entry. *)
Theorem unwritable_log_is_left_alone (env : environment) (total n r : Z)
    (task_description : string) (w : world) :
  log_writable env = false ->
  log_timer_start env total task_description w
  = (Ok (next_number (logs_of w)),
     set_trace (trace w ++ [EvPrint MsgLogSaveError]) w)
  /\ log_timer_complete env n w
     = (Ok tt, set_trace (trace w ++ [EvPrint MsgLogSaveError]) w)
  /\ log_timer_stop env n r w
     = (Ok tt, set_trace (trace w ++ [EvPrint MsgLogSaveError]) w).
Proof.
  intros Hw. unfold_log. rewrite Hw. unfold logs_of, next_number.
  destruct (log_file w) as [ | | [ | l rest]]; repeat split.
Qed.

Lemma unwritable_log_is_left_alone_witness :
  log_timer_complete
    {| audio := audio (friendly 30); win32 := false; tcgetattr_ok := true;
       setcbreak_ok := true; tcsetattr_ok := true; log_writable := false |}
    1 (initial_world one_entry_log)
  = (Ok tt,
     set_trace [EvPrint MsgLogSaveError] (initial_world one_entry_log)).
Proof.
  apply (unwritable_log_is_left_alone
           {| audio := audio (friendly 30); win32 := false;
              tcgetattr_ok := true; setcbreak_ok := true;
              tcsetattr_ok := true; log_writable := false |}
           600 1 437 "plank" (initial_world one_entry_log) eq_refl).
Defined.

(** X9: [log_timer_complete] and [log_timer_stop] change the first entry
    that carries the number and nothing else: the entries before and
    after it, later entries with the same number included, stay as they
    are; and when no entry carries the number the list is written back
    unchanged. *)
Theorem log_update_touches_first_match_only (env : environment) (n r : Z)
    (w : world) (logs : list log_entry) :
  log_writable env = true ->
  log_file w = LogContent logs ->
  (forall pre l post,
      logs = pre ++ l :: post ->
      (forall x, In x pre -> has_number n x = false) ->
      has_number n l = true ->
      log_file (snd (log_timer_complete env n w))
      = LogContent (pre ++ mark_completed (clock w) l :: post)
      /\ log_file (snd (log_timer_stop env n r w))
         = LogContent (pre ++ mark_stopped (clock w) r l :: post))
  /\ ((forall x, In x logs -> has_number n x = false) ->
      log_file (snd (log_timer_complete env n w)) = LogContent logs
      /\ log_file (snd (log_timer_stop env n r w)) = LogContent logs).
Proof.
  intros Hw Hfile.
  rewrite (log_timer_complete_run env n w Hw),
    (log_timer_stop_run env n r w Hw).
  unfold logs_of. rewrite Hfile. cbn [snd log_file set_log_file].
  split.
  - intros pre l post -> Hpre Hl.
    rewrite !update_first_at by assumption. split; reflexivity.
  - intros Hno. rewrite !update_first_no_match by assumption.
    split; reflexivity.
Qed.

Lemma log_update_touches_first_match_only_witness :
  log_file (snd (log_timer_complete (friendly 30) 7
                   (initial_world one_entry_log)))
  = one_entry_log.
Proof.
  apply (proj2 (log_update_touches_first_match_only (friendly 30) 7 0
                  (initial_world one_entry_log) _ eq_refl eq_refl)).
  intros x [<- | []]. reflexivity.
Defined.

(** * The scheduler, clip by clip *)

Section SchedulerMore.

Variable a : audio_env.

Ltac at_value r v :=
  destruct (Z.eqb_spec r v) as [-> | ?];
  [ cbn;
    repeat match goal with
           | |- context [status_of a ?c] => destruct (status_of a c); cbn
           | |- context [?t >=? 1800] => destruct (t >=? 1800); cbn
           end;
    rewrite ?andb_false_r, ?Nat.add_0_r; reflexivity | ].

(** The scheduler starts a clip exactly when the clip can be played and
    its own test holds. *)
Lemma starts_of_scheduler (r total : Z) (c : clip) :
  count_occ clip_eq_dec (fired (play_time_notification a r total)) c
  = if is_playable a c && due total c r then 1%nat else 0%nat.
Proof.
  unfold play_time_notification, is_playable, due, guarded, once, twice;
    cbv zeta.
  destruct c; cbn [enabled trigger];
    unfold is_overlapping_with_other_notifications, notification_times;
    cbn [existsb];
    change (15 * 60) with 900; change (10 * 60) with 600;
    change (5 * 60) with 300; change (3 * 60) with 180;
    change (1 * 60) with 60; change (30 * 60) with 1800;
    (destruct (Z.eqb_spec r (total / 2)) as [Eh | Nh];
     [rewrite <- ?Eh | ]);
    at_value r 900; at_value r 600; at_value r 300; at_value r 180;
    at_value r 60; at_value r 30; at_value r 10;
    cbn;
    repeat match goal with
           | |- context [status_of a ?c] => destruct (status_of a c); cbn
           | |- context [?t >=? 1800] => destruct (t >=? 1800); cbn
           end;
    rewrite ?andb_false_r; reflexivity.
Qed.

(** It plays a clip it starts once, the 3-minute and the 1-minute clip
    twice, and no other. *)
Lemma plays_of_scheduler (r total : Z) (c : clip) :
  count_occ clip_eq_dec (played (play_time_notification a r total)) c
  = if is_playable a c && due total c r then said c else 0%nat.
Proof.
  unfold play_time_notification, is_playable, due, guarded, once, twice;
    cbv zeta.
  destruct c; cbn [enabled trigger said];
    unfold is_overlapping_with_other_notifications, notification_times;
    cbn [existsb];
    change (15 * 60) with 900; change (10 * 60) with 600;
    change (5 * 60) with 300; change (3 * 60) with 180;
    change (1 * 60) with 60; change (30 * 60) with 1800;
    (destruct (Z.eqb_spec r (total / 2)) as [Eh | Nh];
     [rewrite <- ?Eh | ]);
    at_value r 900; at_value r 600; at_value r 300; at_value r 180;
    at_value r 60; at_value r 30; at_value r 10;
    cbn;
    repeat match goal with
           | |- context [status_of a ?c] => destruct (status_of a c); cbn
           | |- context [?t >=? 1800] => destruct (t >=? 1800); cbn
           end;
    rewrite ?andb_false_r; reflexivity.
Qed.

(** The scheduler holds the loop back only for the first playback of the
    3-minute and of the 1-minute clip. *)
Lemma busy_ticks_scheduler (r total : Z) :
  busy_ticks a (play_time_notification a r total) = wait_at a r.
Proof.
  unfold play_time_notification, wait_at, playable_length, guarded, once,
    twice; cbv zeta.
  unfold is_overlapping_with_other_notifications, notification_times;
    cbn [existsb];
    change (15 * 60) with 900; change (10 * 60) with 600;
    change (5 * 60) with 300; change (3 * 60) with 180;
    change (1 * 60) with 60; change (30 * 60) with 1800;
    (destruct (Z.eqb_spec r (total / 2)) as [Eh | Nh];
     [rewrite <- ?Eh | ]);
    at_value r 900; at_value r 600; at_value r 300; at_value r 180;
    at_value r 60; at_value r 30; at_value r 10;
    cbn;
    repeat match goal with
           | |- context [status_of a ?c] => destruct (status_of a c); cbn
           | |- context [?t >=? 1800] => destruct (t >=? 1800); cbn
           end;
    rewrite ?Nat.add_0_r; reflexivity.
Qed.

Lemma busy_ticks_app (xs ys : list audio_op) :
  busy_ticks a (xs ++ ys) = (busy_ticks a xs + busy_ticks a ys)%nat.
Proof.
  induction xs as [ | op xs IH]; [reflexivity | ].
  destruct op; simpl; rewrite IH; lia.
Qed.

Lemma run_ticks_S (n : nat) :
  run_ticks a (S n)
  = (10 + wait_at a (Z.of_nat (S n)) + run_ticks a n)%nat.
Proof.
  unfold run_ticks, wait_at.
  change (3 * 60) with 180; change (1 * 60) with 60.
  destruct (Z.eqb_spec (Z.of_nat (S n)) 180) as [E180 | N180];
    [ | destruct (Z.eqb_spec (Z.of_nat (S n)) 60) as [E60 | N60] ];
    destruct (Nat.leb_spec 180 (S n)); destruct (Nat.leb_spec 180 n);
    destruct (Nat.leb_spec 60 (S n)); destruct (Nat.leb_spec 60 n);
    lia.
Qed.

End SchedulerMore.

(** * The countdown, turn by turn *)

Section CountdownMore.

Variable env : environment.

Ltac step_effects :=
  unfold play_beep, play_sound, display_timer, sleep, elapse, emit, modify,
    gets, ret, raise, bind in *.

Lemma perform_timed (ops : list audio_op) (w : world) :
  exists w', perform env ops w = (Ok tt, w')
             /\ only_time_passed w w'
             /\ trace w' = trace w ++ map EvAudio ops
             /\ clock w' = (clock w + busy_ticks (audio env) ops)%nat.
Proof.
  revert w; induction ops as [ | op ops IH]; intros w.
  - exists w. simpl. rewrite app_nil_r, Nat.add_0_r. repeat split.
  - assert (Hop : exists w1,
               perform_op env op w = (Ok tt, w1)
               /\ only_time_passed w w1
               /\ trace w1 = trace w ++ [EvAudio op]
               /\ (clock w1 + busy_ticks (audio env) ops
                   = clock w + busy_ticks (audio env) (op :: ops))%nat).
    { unfold perform_op, bind, emit, modify, elapse, modify, ret.
      destruct op; simpl; eexists; (split; [reflexivity | ]);
        repeat split; simpl; rewrite ?length_map; try reflexivity; lia. }
    destruct Hop as (w1 & E1 & S1 & T1 & C1).
    destruct (IH w1) as (w2 & E2 & S2 & T2 & C2).
    exists w2. simpl perform. unfold bind at 1. rewrite E1, E2.
    split; [reflexivity | split; [ | split]].
    + unfold only_time_passed in *. intuition congruence.
    + rewrite T2, T1, <- app_assoc. reflexivity.
    + rewrite C2. exact C1.
Qed.

Ltac run_timed :=
  match goal with
  | |- context [perform env ?ops ?w1] =>
      let w2 := fresh "w" in
      let E := fresh "E" in
      let S := fresh "S" in
      let T := fresh "T" in
      let C := fresh "C" in
      destruct (perform_timed ops w1) as (w2 & E & S & T & C);
      rewrite E; clear E;
      destruct S as (? & ? & ? & ? & ? & ? & ? & ? & ?)
  end.

(** A turn in which the pause key does not come leaves [is_paused]
    alone, whatever else happens in it. *)
Lemma loop_body_keeps_pause (total : Z) (task : string)
    (i : iteration_input) (w : world) :
  is_p (_check_keyboard_input env (stdin_poll i)) = false ->
  is_paused (snd (loop_body env total task i w)) = is_paused w.
Proof.
  intros Hkey. unfold loop_body. cbv zeta. rewrite Hkey.
  unfold interruptible.
  destruct (delivered i) as [[[ | ] e] | ];
    destruct (is_paused w) eqn:Hp;
    step_effects; simpl; rewrite ?Hp; simpl;
    repeat run_timed;
    try (destruct (remaining_seconds w <=? 5); repeat run_timed);
    simpl in *; congruence.
Qed.

Lemma busy_ticks_turn (total r : Z) :
  busy_ticks (audio env) (turn_ops env total r) = wait_at (audio env) r.
Proof.
  unfold turn_ops. rewrite busy_ticks_app, busy_ticks_scheduler.
  destruct (r <=? 5); [ | simpl; lia].
  unfold beep_ops, guarded, once.
  destruct (status_of (audio env) ClipBeep); simpl; lia.
Qed.

(** A running turn, the pause key left alone, with the time it takes. *)
Lemma running_turn_timed (total : Z) (task : string) (i : iteration_input)
    (w : world) :
  calm env i -> is_paused w = false ->
  exists w', loop_body env total task i w = (Ok tt, w')
             /\ session_frame w w'
             /\ is_paused w' = false
             /\ remaining_seconds w' = remaining_seconds w - 1
             /\ trace w'
                = trace w ++ turn_events env total task (remaining_seconds w)
             /\ clock w'
                = (clock w + (10 + wait_at (audio env) (remaining_seconds w)))%nat.
Proof.
  intros [Hkey Hnone] Hp.
  rewrite <- (busy_ticks_turn total (remaining_seconds w)).
  unfold loop_body. cbv zeta. rewrite Hkey.
  unfold interruptible. rewrite Hnone. step_effects.
  rewrite Hp. simpl. run_timed.
  unfold turn_events, turn_ops.
  destruct (remaining_seconds w <=? 5).
  - run_timed. simpl in *.
    eexists; split; [reflexivity | split; [ | split; [ | split; [ | split]]]];
      simpl.
    + repeat split; simpl; rewrite ?length_map; congruence.
    + congruence.
    + reflexivity.
    + rewrite T0, T, Hp, map_app, <- !app_assoc. reflexivity.
    + rewrite C0, C. simpl. rewrite busy_ticks_app. unfold beep_ops. lia.
  - simpl in *.
    eexists; split; [reflexivity | split; [ | split; [ | split; [ | split]]]];
      simpl.
    + repeat split; simpl; rewrite ?length_map; congruence.
    + congruence.
    + reflexivity.
    + rewrite T, Hp, app_nil_r, <- !app_assoc. reflexivity.
    + rewrite C. simpl. rewrite app_nil_r. lia.
Qed.

(** The loop left alone: one running turn per second that remains, and
    none at all from zero or below. *)
Lemma calm_run_exact (total : Z) (task : string) (n : nat)
    (inputs : list iteration_input) (w : world) :
  Forall (calm env) inputs ->
  is_paused w = false -> is_running w = true ->
  Z.to_nat (remaining_seconds w) = n ->
  (n <= List.length inputs)%nat ->
  exists w',
    countdown_loop env total task inputs w = (Ok tt, w')
    /\ session_frame w w' /\ is_paused w' = false
    /\ remaining_seconds w' = Z.min (remaining_seconds w) 0
    /\ trace w'
       = trace w ++ flat_map (turn_events env total task) (turn_values n)
    /\ clock w' = (clock w + run_ticks (audio env) n)%nat.
Proof.
  revert inputs w; induction n as [ | n IH];
    intros inputs w Hcalm Hp Hr Hrem Hlen.
  - exists w. simpl. rewrite app_nil_r.
    assert (Hc : (remaining_seconds w >? 0) && is_running w = false).
    { rewrite Hr, andb_true_r, Z.gtb_ltb. apply Z.ltb_ge. lia. }
    destruct inputs; simpl; rewrite Hc;
      repeat split; auto using session_frame_refl; try lia.
    all: unfold run_ticks; simpl; lia.
  - destruct inputs as [ | i rest]; [simpl in Hlen; lia | ].
    inversion Hcalm as [ | ? ? Hi Hrest]; subst.
    assert (Hrem1 : remaining_seconds w = Z.of_nat (S n)) by lia.
    rewrite countdown_loop_cons
      by (apply (loop_test w _ Hrem1 Hr); lia).
    destruct (running_turn_timed total task i w Hi Hp)
      as (w1 & E1 & Hf1 & Hp1 & Hr1 & T1 & C1).
    rewrite E1.
    assert (Hrun1 : is_running w1 = true)
      by (destruct Hf1 as (-> & _); exact Hr).
    destruct (IH rest w1 Hrest Hp1 Hrun1) as
      (w' & E' & Hf' & Hp' & Hr' & T' & C');
      [lia | simpl in Hlen; lia | ].
    exists w'. split; [exact E' | ].
    split; [eapply session_frame_trans; eauto | ].
    split; [exact Hp' | ]. split; [lia | ].
    split.
    + rewrite T', T1, <- app_assoc. cbn [turn_values flat_map].
      rewrite Hrem1. reflexivity.
    + rewrite C', C1, run_ticks_S, Hrem1. lia.
Qed.

Lemma completion_block_timed (total : Z) (task : string)
    (log_number : option Z) (sch : schedule) (w : world) :
  at_completion sch = None ->
  clock (snd (completion_block env total task log_number sch w))
  = (clock w + 1 + playable_length (audio env) ClipFinished)%nat.
Proof.
  intros Hnone.
  unfold completion_block. unfold bind at 1.
  destruct (restore_terminal_spec env w) as (w1 & E1 & S1 & _).
  rewrite E1. destruct S1 as (_ & _ & _ & _ & _ & _ & _ & Hc1).
  unfold raise_if, start_reminder_thread. rewrite Hnone.
  step_effects. simpl. run_timed.
  assert (Hbusy : busy_ticks (audio env) (play_sound_ops env ClipFinished)
                  = playable_length (audio env) ClipFinished).
  { unfold play_sound_ops, playable_length.
    destruct (status_of (audio env) ClipFinished); simpl; lia. }
  destruct (truthy log_number).
  - match goal with
    | |- context [log_timer_complete env ?n ?w2] =>
        destruct (log_timer_complete_spec env n w2)
          as (w3 & E3 & _ & _ & C3 & _)
    end.
    rewrite E3. simpl. rewrite C3, C, Hbusy. simpl. lia.
  - simpl. rewrite C, Hbusy. simpl. lia.
Qed.

(** A whole call of [countdown] that nothing disturbs. *)
Lemma calm_session (total : Z) (task : string) (log_number : option Z)
    (sch : schedule) (w : world) :
  Forall (calm env) (iterations sch) ->
  at_completion sch = None ->
  (Z.to_nat total <= List.length (iterations sch))%nat ->
  exists w' pre mid post,
    countdown env total task log_number sch w = (Ok Completed, w')
    /\ trace w'
       = trace w ++ map term_event pre
         ++ flat_map (turn_events env total task)
              (turn_values (Z.to_nat total))
         ++ map term_event mid
         ++ completion_events env total task log_number
              (List.length (threads w))
         ++ map term_event post
    /\ clock w'
       = (clock w + run_ticks (audio env) (Z.to_nat total) + 1
          + playable_length (audio env) ClipFinished)%nat
    /\ remaining_seconds w' = Z.min total 0
    /\ reminder_active w' = true
    /\ reminder_thread w' = Some (List.length (threads w))
    /\ (exists ts, threads w' = ts ++ [RSleeping WAIT_TICKS]
                   /\ List.length ts = List.length (threads w))
    /\ (exists now,
           log_file w'
           = if truthy log_number
             then saved env
                    (update_first (has_number (log_argument log_number))
                       (mark_completed now) (logs_of w)) w
             else log_file w).
Proof.
  intros Hcalm Hnone Hlen.
  unfold countdown. unfold bind at 1.
  destruct (enter_countdown_spec env total w)
    as (w0 & Eenter & Hrun0 & Hp0 & Hrem0 & _ & _ & Hlog0 & Hth0 & Hc0 & _
        & _ & T0).
  rewrite Eenter.
  unfold try_finally, try_except. unfold bind at 1.
  destruct (calm_run_exact total task (Z.to_nat total) (iterations sch) w0
              Hcalm Hp0 Hrun0)
    as (w2 & Eloop & Hframe & _ & Hrem2 & T2 & C2);
    [congruence | exact Hlen | ].
  rewrite Eloop.
  destruct Hframe as (Hrun2 & _ & _ & _ & _ & Hlog2 & Hth2).
  unfold bind at 1. unfold gets at 1. rewrite Hrun2, Hrun0.
  pose proof (completion_block_timed total task log_number sch w2 Hnone)
    as C4.
  destruct (completion_block_spec env total task log_number sch w2)
    as (w3 & r3 & w4 & evs3 & E3 & Eblock & T4 & _ & _ & _ & Hrem4
        & _ & _ & _ & _ & Hcase).
  rewrite Eblock in C4 |- *. simpl in C4. rewrite Hnone in Hcase.
  destruct Hcase as (-> & -> & Hact & Hthr & (ts & Hts & Hlts) & (now & Hlogf)).
  destruct (restore_terminal_spec env w2) as (w3' & E3' & _ & _ & _ & T3).
  rewrite E3 in E3'. injection E3' as <-.
  destruct (restore_terminal_spec env w4)
    as (w7 & E7 & S7 & _ & _ & T7).
  rewrite E7.
  destruct S7 as (_ & _ & Hact7 & Hthr7 & Hrem7 & Hlog7 & Hth7 & Hc7).
  assert (Hlen2 : List.length (threads w2) = List.length (threads w))
    by congruence.
  rewrite Hlen2 in *.
  exists w7, (acquire_calls env), (release_calls env w2),
    (release_calls env w4).
  split; [reflexivity | ].
  split; [rewrite T7, T4, T3, T2, T0, <- !app_assoc; reflexivity | ].
  split; [rewrite Hc7, C4, C2, Hc0; lia | ].
  split; [congruence | ].
  split; [congruence | ]. split; [congruence | ].
  split; [exists ts; split; congruence | ].
  exists now. rewrite Hlog7, Hlogf. unfold saved, logs_of.
  rewrite Hlog2, Hlog0. reflexivity.
Qed.

End CountdownMore.

(** * The sounds and the length of an undisturbed session *)

Lemma fired_app (xs ys : list audio_op) :
  fired (xs ++ ys) = fired xs ++ fired ys.
Proof.
  induction xs as [ | op xs IH]; [reflexivity | ].
  destruct op; simpl; rewrite IH; reflexivity.
Qed.

Lemma played_app (xs ys : list audio_op) :
  played (xs ++ ys) = played xs ++ played ys.
Proof.
  induction xs as [ | op xs IH]; [reflexivity | ].
  destruct op; simpl; rewrite IH; reflexivity.
Qed.

Lemma plays_of_app (xs ys : list event) :
  plays_of (xs ++ ys) = plays_of xs ++ plays_of ys.
Proof. apply flat_map_app. Qed.

Lemma plays_of_audio (ops : list audio_op) :
  plays_of (map EvAudio ops) = played ops.
Proof.
  induction ops as [ | op ops IH]; simpl; auto.
  destruct op; simpl; rewrite ?IH; reflexivity.
Qed.

Lemma plays_of_term_events (cs : list (term_call * bool)) :
  plays_of (map term_event cs) = [].
Proof. induction cs; simpl; auto. Qed.

Section SessionSounds.

Variable env : environment.
Variable total : Z.
Variable task : string.

(** The beep of a turn, call by call. *)
Lemma beep_ops_spelled :
  beep_ops env
  = match status_of (audio env) ClipBeep with
    | Playable => [Load ClipBeep; Play ClipBeep]
    | Missing => []
    | Corrupt => [LoadRaises ClipBeep; ReportError]
    end.
Proof. reflexivity. Qed.

Lemma loop_loads_S (n : nat) :
  loop_loads env total task (S n)
  = fired (play_time_notification (audio env) (Z.of_nat (S n)) total)
    ++ (if Z.of_nat (S n) <=? 5 then fired (beep_ops env) else [])
    ++ loop_loads env total task n.
Proof.
  unfold loop_loads. cbn [turn_values flat_map].
  rewrite loads_of_app. unfold turn_events at 1.
  rewrite !loads_of_app, loads_of_audio. unfold turn_ops.
  rewrite fired_app. cbn [loads_of flat_map app].
  rewrite app_nil_r, <- app_assoc.
  destruct (Z.of_nat (S n) <=? 5); reflexivity.
Qed.

Lemma loop_plays_S (n : nat) :
  loop_plays env total task (S n)
  = played (play_time_notification (audio env) (Z.of_nat (S n)) total)
    ++ (if Z.of_nat (S n) <=? 5 then played (beep_ops env) else [])
    ++ loop_plays env total task n.
Proof.
  unfold loop_plays. cbn [turn_values flat_map].
  rewrite plays_of_app. unfold turn_events at 1.
  rewrite !plays_of_app, plays_of_audio. unfold turn_ops.
  rewrite played_app. cbn [plays_of flat_map app].
  rewrite app_nil_r, <- app_assoc.
  destruct (Z.of_nat (S n) <=? 5); reflexivity.
Qed.

Lemma threshold_count (c : clip) (v : Z) (n : nat) :
  trigger total c = Some v ->
  count_occ clip_eq_dec (loop_loads env total task n) c
  = if is_playable (audio env) c && enabled total c
       && (1 <=? v) && (v <=? Z.of_nat n)
    then 1%nat else 0%nat.
Proof.
  intros Htrig.
  assert (Hc : c <> ClipBeep) by (intros ->; discriminate).
  induction n as [ | n IH].
  - unfold loop_loads. cbn [turn_values flat_map loads_of count_occ].
    destruct (is_playable (audio env) c), (enabled total c),
      (Z.leb_spec 1 v), (Z.leb_spec v (Z.of_nat 0)); simpl; lia.
  - rewrite loop_loads_S, !count_occ_app, IH, starts_of_scheduler.
    assert (Hbeep : count_occ clip_eq_dec
                      (if Z.of_nat (S n) <=? 5
                       then fired (beep_ops env) else []) c = 0%nat).
    { apply count_occ_beeps; [exact Hc | ].
      destruct (Z.of_nat (S n) <=? 5);
        [apply fired_beep_ops | constructor]. }
    rewrite Hbeep. unfold due. rewrite Htrig.
    destruct (is_playable (audio env) c), (enabled total c),
      (Z.eqb_spec (Z.of_nat (S n)) v), (Z.leb_spec 1 v),
      (Z.leb_spec v (Z.of_nat n)), (Z.leb_spec v (Z.of_nat (S n)));
      simpl; lia.
Qed.

Lemma played_beep_ops : Forall (eq ClipBeep) (played (beep_ops env)).
Proof.
  unfold beep_ops, guarded. destruct (status_of (audio env) ClipBeep);
    simpl; auto.
Qed.

Lemma played_play_sound_ops (c : clip) :
  Forall (eq c) (played (play_sound_ops env c)).
Proof.
  unfold play_sound_ops. destruct (status_of (audio env) c); simpl; auto.
Qed.

Lemma threshold_plays (c : clip) (v : Z) (n : nat) :
  trigger total c = Some v ->
  count_occ clip_eq_dec (loop_plays env total task n) c
  = if is_playable (audio env) c && enabled total c
       && (1 <=? v) && (v <=? Z.of_nat n)
    then said c else 0%nat.
Proof.
  intros Htrig.
  assert (Hc : c <> ClipBeep) by (intros ->; discriminate).
  induction n as [ | n IH].
  - unfold loop_plays. cbn [turn_values flat_map plays_of count_occ].
    destruct (is_playable (audio env) c), (enabled total c),
      (Z.leb_spec 1 v), (Z.leb_spec v (Z.of_nat 0)); simpl; lia.
  - rewrite loop_plays_S, !count_occ_app, IH, plays_of_scheduler.
    assert (Hbeep : count_occ clip_eq_dec
                      (if Z.of_nat (S n) <=? 5
                       then played (beep_ops env) else []) c = 0%nat).
    { apply count_occ_beeps; [exact Hc | ].
      destruct (Z.of_nat (S n) <=? 5);
        [apply played_beep_ops | constructor]. }
    rewrite Hbeep. unfold due. rewrite Htrig.
    destruct (is_playable (audio env) c), (enabled total c),
      (Z.eqb_spec (Z.of_nat (S n)) v), (Z.leb_spec 1 v),
      (Z.leb_spec v (Z.of_nat n)), (Z.leb_spec v (Z.of_nat (S n)));
      simpl; lia.
Qed.

Lemma beep_count (n : nat) :
  count_occ clip_eq_dec (loop_loads env total task n) ClipBeep
  = if is_playable (audio env) ClipBeep then Nat.min n 5 else 0%nat.
Proof.
  induction n as [ | n IH].
  - unfold loop_loads. cbn [turn_values flat_map loads_of count_occ].
    destruct (is_playable (audio env) ClipBeep); reflexivity.
  - rewrite loop_loads_S, !count_occ_app, IH, starts_of_scheduler.
    unfold due. cbn [enabled andb]. rewrite andb_false_r.
    unfold beep_ops, guarded, once, is_playable.
    destruct (status_of (audio env) ClipBeep);
      destruct (Z.leb_spec (Z.of_nat (S n)) 5); cbn [fired count_occ];
      try destruct (clip_eq_dec ClipBeep ClipBeep); try congruence; lia.
Qed.

Lemma beep_plays (n : nat) :
  count_occ clip_eq_dec (loop_plays env total task n) ClipBeep
  = if is_playable (audio env) ClipBeep then Nat.min n 5 else 0%nat.
Proof.
  induction n as [ | n IH].
  - unfold loop_plays. cbn [turn_values flat_map plays_of count_occ].
    destruct (is_playable (audio env) ClipBeep); reflexivity.
  - rewrite loop_plays_S, !count_occ_app, IH, plays_of_scheduler.
    unfold due. cbn [enabled andb]. rewrite andb_false_r.
    unfold beep_ops, guarded, once, is_playable.
    destruct (status_of (audio env) ClipBeep);
      destruct (Z.leb_spec (Z.of_nat (S n)) 5); cbn [played count_occ];
      try destruct (clip_eq_dec ClipBeep ClipBeep); try congruence; lia.
Qed.

Lemma other_count (c : clip) (n : nat) :
  c = ClipFinished \/ c = ClipReminder ->
  count_occ clip_eq_dec (loop_loads env total task n) c = 0%nat.
Proof.
  intros Hc.
  assert (Hb : c <> ClipBeep) by (destruct Hc as [-> | ->]; discriminate).
  assert (Hd : forall r, due total c r = false)
    by (intros r; destruct Hc as [-> | ->]; reflexivity).
  induction n as [ | n IH]; [reflexivity | ].
  rewrite loop_loads_S, !count_occ_app, IH, starts_of_scheduler, Hd.
  rewrite andb_false_r.
  rewrite count_occ_beeps; [reflexivity | exact Hb | ].
  destruct (Z.of_nat (S n) <=? 5); [apply fired_beep_ops | constructor].
Qed.

Lemma other_plays (c : clip) (n : nat) :
  c = ClipFinished \/ c = ClipReminder ->
  count_occ clip_eq_dec (loop_plays env total task n) c = 0%nat.
Proof.
  intros Hc.
  assert (Hb : c <> ClipBeep) by (destruct Hc as [-> | ->]; discriminate).
  assert (Hd : forall r, due total c r = false)
    by (intros r; destruct Hc as [-> | ->]; reflexivity).
  induction n as [ | n IH]; [reflexivity | ].
  rewrite loop_plays_S, !count_occ_app, IH, plays_of_scheduler, Hd.
  rewrite andb_false_r.
  rewrite count_occ_beeps; [reflexivity | exact Hb | ].
  destruct (Z.of_nat (S n) <=? 5); [apply played_beep_ops | constructor].
Qed.

(** The clips an undisturbed session starts and plays: those of its
    turns, then the completion sound. *)
Lemma calm_session_loads (log_number : option Z) (sch : schedule)
    (w : world) :
  Forall (calm env) (iterations sch) ->
  at_completion sch = None ->
  (Z.to_nat total <= List.length (iterations sch))%nat ->
  exists evs,
    trace (snd (countdown env total task log_number sch w)) = trace w ++ evs
    /\ loads_of evs
       = loop_loads env total task (Z.to_nat total)
         ++ fired (play_sound_ops env ClipFinished).
Proof.
  intros Hcalm Hnone Hlen.
  destruct (calm_session env total task log_number sch w Hcalm Hnone Hlen)
    as (w' & pre & mid & post & E & T & _).
  rewrite E. eexists. split; [exact T | ].
  unfold completion_events, loop_loads.
  destruct (trace_facts_save_events env) as (_ & _ & _ & Hsave).
  rewrite !loads_of_app, !loads_of_term_events, loads_of_audio.
  destruct (truthy log_number); rewrite ?Hsave; cbn [loads_of flat_map app];
    rewrite ?app_nil_r; reflexivity.
Qed.

(** The turn of the loop at [r] seconds, event by event. *)
Lemma turn_events_spelled (r : Z) :
  turn_events env total task r
  = [EvDisplay r total task false; EvCheck r total]
    ++ map EvAudio (play_time_notification (audio env) r total)
    ++ (if r <=? 5
        then map EvAudio
               match status_of (audio env) ClipBeep with
               | Playable => [Load ClipBeep; Play ClipBeep]
               | Missing => []
               | Corrupt => [LoadRaises ClipBeep; ReportError]
               end
        else [])
    ++ [EvSleep 10; EvTick (r - 1)].
Proof.
  unfold turn_events, turn_ops. rewrite map_app, <- beep_ops_spelled.
  rewrite <- !app_assoc. destruct (r <=? 5); reflexivity.
Qed.

(** An undisturbed session, event by event, with the clips it starts and
    plays. *)
Lemma calm_session_sounds (log_number : option Z) (sch : schedule)
    (w : world) :
  Forall (calm env) (iterations sch) ->
  at_completion sch = None ->
  (Z.to_nat total <= List.length (iterations sch))%nat ->
  exists evs pre mid post,
    trace (snd (countdown env total task log_number sch w)) = trace w ++ evs
    /\ evs
       = map term_event pre
         ++ flat_map
              (fun r =>
                 [EvDisplay r total task false; EvCheck r total]
                 ++ map EvAudio
                      (play_time_notification (audio env) r total)
                 ++ (if r <=? 5
                     then map EvAudio
                            match status_of (audio env) ClipBeep with
                            | Playable => [Load ClipBeep; Play ClipBeep]
                            | Missing => []
                            | Corrupt => [LoadRaises ClipBeep; ReportError]
                            end
                     else [])
                 ++ [EvSleep 10; EvTick (r - 1)])
              (turn_values (Z.to_nat total))
         ++ map term_event mid
         ++ [EvSleep 1; EvPrint (MsgCompletionScreen total task)]
         ++ map EvAudio
              match status_of (audio env) ClipFinished with
              | Playable =>
                  [Load ClipFinished; Play ClipFinished;
                   WaitIdle ClipFinished]
              | Missing => [ReportMissing ClipFinished]
              | Corrupt => [LoadRaises ClipFinished; ReportError]
              end
         ++ (if truthy log_number && negb (log_writable env)
             then [EvPrint MsgLogSaveError] else [])
         ++ [EvStartThread (List.length (threads w))]
         ++ map term_event post
    /\ loads_of evs
       = loop_loads env total task (Z.to_nat total)
         ++ fired (play_sound_ops env ClipFinished)
    /\ plays_of evs
       = loop_plays env total task (Z.to_nat total)
         ++ played (play_sound_ops env ClipFinished).
Proof.
  intros Hcalm Hnone Hlen.
  destruct (calm_session env total task log_number sch w Hcalm Hnone Hlen)
    as (w' & pre & mid & post & E & T & _).
  rewrite E. cbn [snd]. eexists. exists pre, mid, post.
  split; [exact T | ].
  split; [ | split].
  - rewrite completion_events_spelled, <- !app_assoc.
    f_equal. f_equal.
    apply flat_map_ext. intros r. apply turn_events_spelled.
  - unfold completion_events, loop_loads.
    destruct (trace_facts_save_events env) as (_ & _ & _ & Hsave).
    rewrite !loads_of_app, !loads_of_term_events, loads_of_audio.
    destruct (truthy log_number); rewrite ?Hsave;
      cbn [loads_of flat_map app]; rewrite ?app_nil_r; reflexivity.
  - unfold completion_events, loop_plays, save_events.
    rewrite !plays_of_app, !plays_of_term_events, plays_of_audio.
    destruct (truthy log_number), (log_writable env);
      cbn [plays_of flat_map app]; rewrite ?app_nil_r; reflexivity.
Qed.

End SessionSounds.

(** X10: a countdown that is never paused or interrupted lasts, in sleeps
    and playback waits, one second per second counted, plus the length of
    the 3-minute and of the 1-minute clip when the countdown passes them
    and they can be played (their first playback is waited for), plus 0.1
    second and the completion sound; no other notification holds it
    back. *)
Theorem uninterrupted_countdown_lasts (env : environment) (total : Z)
    (task : string) (log_number : option Z) (sch : schedule) (w : world) :
  Forall (calm env) (iterations sch) ->
  at_completion sch = None ->
  (Z.to_nat total <= List.length (iterations sch))%nat ->
  clock (snd (countdown env total task log_number sch w))
  = (clock w + 10 * Z.to_nat total
     + (if (180 <=? total)%Z then playable_length (audio env) Clip3min
        else 0)
     + (if (60 <=? total)%Z then playable_length (audio env) Clip1min
        else 0)
     + 1 + playable_length (audio env) ClipFinished)%nat.
Proof.
  intros Hcalm Hnone Hlen.
  destruct (calm_session env total task log_number sch w Hcalm Hnone Hlen)
    as (w' & pre & mid & post & E & _ & C & _).
  rewrite E. simpl. rewrite C. unfold run_ticks.
  destruct (Nat.leb_spec 180 (Z.to_nat total)), (Z.leb_spec 180 total),
    (Nat.leb_spec 60 (Z.to_nat total)), (Z.leb_spec 60 total); lia.
Qed.

Lemma uninterrupted_countdown_lasts_witness :
  clock (snd (countdown (friendly 30) 200 "squats" None (uneventful 200)
                (initial_world LogAbsent)))
  = 2091%nat.
Proof.
  apply (uninterrupted_countdown_lasts (friendly 30) 200 "squats" None
           (uneventful 200) (initial_world LogAbsent)).
  - apply Forall_forall. intros i Hi. apply repeat_spec in Hi. subst i.
    split; reflexivity.
  - reflexivity.
  - apply Nat.leb_le. reflexivity.
Defined.

(** X11: in a countdown that is never paused or interrupted, each of the
    eight threshold clips is loaded exactly once and played once (the
    3-minute and the 1-minute clip twice, one playback after the other)
    when its file can be played, its test can hold ([total >= 1800] for
    the 15-minute clip, [total // 2] off the fixed values for the
    half-time clip) and its value lies between 1 and [total]; otherwise
    it is neither loaded nor played.  So the half-time clip is never
    heard when [total < 2]. *)
Theorem threshold_clips_start_exactly_once (env : environment) (total : Z)
    (task : string) (log_number : option Z) (sch : schedule) (w : world) :
  Forall (calm env) (iterations sch) ->
  at_completion sch = None ->
  (Z.to_nat total <= List.length (iterations sch))%nat ->
  exists evs,
    trace (snd (countdown env total task log_number sch w)) = trace w ++ evs
    /\ forall c v,
        trigger total c = Some v ->
        count_occ clip_eq_dec (loads_of evs) c
        = (if is_playable (audio env) c && enabled total c
              && (1 <=? v) && (v <=? total)
           then 1%nat else 0%nat)
        /\ count_occ clip_eq_dec (plays_of evs) c
           = (if is_playable (audio env) c && enabled total c
                 && (1 <=? v) && (v <=? total)
              then match c with
                   | Clip3min | Clip1min => 2%nat
                   | _ => 1%nat
                   end
              else 0%nat).
Proof.
  intros Hcalm Hnone Hlen.
  destruct (calm_session_sounds env total task log_number sch w
              Hcalm Hnone Hlen)
    as (evs & pre & mid & post & T & _ & Hloads & Hplays).
  exists evs. split; [exact T | ].
  intros c v Htrig. rewrite Hloads, Hplays, !count_occ_app.
  rewrite (threshold_count env total task c v _ Htrig),
    (threshold_plays env total task c v _ Htrig).
  assert (Hfin : count_occ clip_eq_dec
                   (fired (play_sound_ops env ClipFinished)) c = 0%nat).
  { apply count_occ_not_In. intros Hin.
    pose proof (fired_play_sound_ops env ClipFinished) as Hall.
    rewrite Forall_forall in Hall. apply Hall in Hin. subst c.
    discriminate. }
  assert (Hfin' : count_occ clip_eq_dec
                    (played (play_sound_ops env ClipFinished)) c = 0%nat).
  { apply count_occ_not_In. intros Hin.
    pose proof (played_play_sound_ops env ClipFinished) as Hall.
    rewrite Forall_forall in Hall. apply Hall in Hin. subst c.
    discriminate. }
  rewrite Hfin, Hfin'. fold (said c).
  destruct (is_playable (audio env) c), (enabled total c),
    (Z.leb_spec 1 v), (Z.leb_spec v (Z.of_nat (Z.to_nat total))),
    (Z.leb_spec v total); simpl; split; lia.
Qed.

Lemma threshold_clips_start_exactly_once_witness :
  exists evs,
    trace (snd (countdown (friendly 30) 62 "squats" None (uneventful 62)
                  (initial_world LogAbsent)))
    = evs
    /\ count_occ clip_eq_dec (loads_of evs) Clip1min = 1%nat
    /\ count_occ clip_eq_dec (plays_of evs) Clip1min = 2%nat
    /\ count_occ clip_eq_dec (plays_of evs) Clip10sec = 1%nat
    /\ count_occ clip_eq_dec (plays_of evs) Clip3min = 0%nat.
Proof.
  destruct (threshold_clips_start_exactly_once (friendly 30) 62 "squats"
              None (uneventful 62) (initial_world LogAbsent))
    as (evs & T & Hcount).
  - apply Forall_forall. intros i Hi. apply repeat_spec in Hi. subst i.
    split; reflexivity.
  - reflexivity.
  - apply Nat.leb_le. reflexivity.
  - exists evs. split; [exact T | ].
    split; [exact (proj1 (Hcount Clip1min 60 eq_refl)) | ].
    split; [exact (proj2 (Hcount Clip1min 60 eq_refl)) | ].
    split; [exact (proj2 (Hcount Clip10sec 10 eq_refl))
           | exact (proj2 (Hcount Clip3min 180 eq_refl))].
Defined.

(** X12: a countdown that is never paused or interrupted is, after the
    calls that set the terminal, one turn for each value [total, ..., 1]
    of [remaining_seconds], made of the screen, the scheduler's call, the
    beep when the value is 5 or less (its clip loaded and played, without
    a wait, when the file is in place), the sleep of one second and the
    decrement; then the terminal is put back and come the completion
    screen, the completion sound (loaded, played and waited for), the
    note of a log that cannot be written and the start of the reminder
    thread.  So the beep is loaded and played once in each of the last
    five seconds, [min(total, 5)] times in all, the completion sound
    once, each when its file can be played, and the reminder clip never
    (only a reminder thread plays it). *)
Theorem beeps_and_completion_sound (env : environment) (total : Z)
    (task : string) (log_number : option Z) (sch : schedule) (w : world) :
  Forall (calm env) (iterations sch) ->
  at_completion sch = None ->
  (Z.to_nat total <= List.length (iterations sch))%nat ->
  exists evs pre mid post,
    trace (snd (countdown env total task log_number sch w)) = trace w ++ evs
    /\ evs
       = map term_event pre
         ++ flat_map
              (fun r =>
                 [EvDisplay r total task false; EvCheck r total]
                 ++ map EvAudio
                      (play_time_notification (audio env) r total)
                 ++ (if r <=? 5
                     then map EvAudio
                            match status_of (audio env) ClipBeep with
                            | Playable => [Load ClipBeep; Play ClipBeep]
                            | Missing => []
                            | Corrupt => [LoadRaises ClipBeep; ReportError]
                            end
                     else [])
                 ++ [EvSleep 10; EvTick (r - 1)])
              (turn_values (Z.to_nat total))
         ++ map term_event mid
         ++ [EvSleep 1; EvPrint (MsgCompletionScreen total task)]
         ++ map EvAudio
              match status_of (audio env) ClipFinished with
              | Playable =>
                  [Load ClipFinished; Play ClipFinished;
                   WaitIdle ClipFinished]
              | Missing => [ReportMissing ClipFinished]
              | Corrupt => [LoadRaises ClipFinished; ReportError]
              end
         ++ (if truthy log_number && negb (log_writable env)
             then [EvPrint MsgLogSaveError] else [])
         ++ [EvStartThread (List.length (threads w))]
         ++ map term_event post
    /\ count_occ clip_eq_dec (loads_of evs) ClipBeep
       = (if is_playable (audio env) ClipBeep
           then Z.to_nat (Z.min total 5) else 0%nat)
    /\ count_occ clip_eq_dec (plays_of evs) ClipBeep
       = (if is_playable (audio env) ClipBeep
           then Z.to_nat (Z.min total 5) else 0%nat)
    /\ count_occ clip_eq_dec (loads_of evs) ClipFinished
       = (if is_playable (audio env) ClipFinished then 1%nat else 0%nat)
    /\ count_occ clip_eq_dec (plays_of evs) ClipFinished
       = (if is_playable (audio env) ClipFinished then 1%nat else 0%nat)
    /\ count_occ clip_eq_dec (loads_of evs) ClipReminder = 0%nat
    /\ count_occ clip_eq_dec (plays_of evs) ClipReminder = 0%nat.
Proof.
  intros Hcalm Hnone Hlen.
  destruct (calm_session_sounds env total task log_number sch w
              Hcalm Hnone Hlen)
    as (evs & pre & mid & post & T & Hevs & Hloads & Hplays).
  exists evs, pre, mid, post. split; [exact T | ]. split; [exact Hevs | ].
  rewrite Hloads, Hplays, !count_occ_app.
  rewrite (beep_count env total task), (beep_plays env total task),
    (other_count env total task ClipFinished),
    (other_plays env total task ClipFinished) by auto.
  rewrite (other_count env total task ClipReminder),
    (other_plays env total task ClipReminder) by auto.
  unfold play_sound_ops, is_playable.
  destruct (status_of (audio env) ClipFinished),
    (status_of (audio env) ClipBeep); cbn; repeat split; lia.
Qed.

Lemma beeps_and_completion_sound_witness :
  exists evs,
    trace (snd (countdown (friendly 30) 12 "squats" None (uneventful 12)
                  (initial_world LogAbsent)))
    = evs
    /\ count_occ clip_eq_dec (loads_of evs) ClipBeep = 5%nat
    /\ count_occ clip_eq_dec (plays_of evs) ClipBeep = 5%nat
    /\ count_occ clip_eq_dec (plays_of evs) ClipFinished = 1%nat.
Proof.
  destruct (beeps_and_completion_sound (friendly 30) 12 "squats"
              None (uneventful 12) (initial_world LogAbsent))
    as (evs & pre & mid & post & T & _ & Hbeep & Hbeep' & _ & Hfin & _).
  - apply Forall_forall. intros i Hi. apply repeat_spec in Hi. subst i.
    split; reflexivity.
  - reflexivity.
  - simpl. lia.
  - exists evs. split; [exact T | ].
    split; [exact Hbeep | ]. split; [exact Hbeep' | exact Hfin].
Defined.

(** * The countdown at its edges *)

Section CountdownEdges.

Variable env : environment.

Ltac step_effects :=
  unfold play_beep, play_sound, display_timer, sleep, elapse, emit, modify,
    gets, ret, raise, bind in *.





End CountdownEdges.





Section CountdownInputs.

Variable env : environment.

Lemma loop_body_without_key (total : Z) (task : string)
    (i : iteration_input) (w : world) :
  _check_keyboard_input env (stdin_poll i) = None ->
  loop_body env total task i w
  = loop_body env total task (without_key i) w.
Proof.
  intros Hkey. unfold loop_body, interruptible. cbv zeta.
  rewrite Hkey. cbn [without_key stdin_poll delivered].
  replace (_check_keyboard_input env NoData) with (@None string)
    by (unfold _check_keyboard_input; destruct (win32 env); reflexivity).
  reflexivity.
Qed.

Lemma countdown_loop_without_keys (total : Z) (task : string)
    (inputs : list iteration_input) (w : world) :
  win32 env = true ->
  countdown_loop env total task inputs w
  = countdown_loop env total task (map without_key inputs) w.
Proof.
  intros Hwin. revert w; induction inputs as [ | i rest IH]; intros w;
    [reflexivity | ].
  cbn [map countdown_loop].
  destruct ((remaining_seconds w >? 0) && is_running w); [ | reflexivity].
  unfold bind.
  rewrite (loop_body_without_key total task i w)
    by (unfold _check_keyboard_input; rewrite Hwin; reflexivity).
  destruct (loop_body env total task (without_key i) w) as [[[] | e | ] w1];
    [apply IH | reflexivity | reflexivity].
Qed.

End CountdownInputs.

(** X15: an exception other than [KeyboardInterrupt] that comes up in a
    turn of the loop leaves [countdown] as it is: neither the completion
    branch nor the stop branch runs, so the log entry keeps the state
    [log_timer_start] gave it, no reminder thread is started,
    [is_running] stays true and [remaining_seconds] is the value of the
    turn that was cut short. *)
Theorem error_leaves_session_open (env : environment) (total : Z)
    (task : string) (log_number : option Z) (sch : schedule)
    (pre rest : list iteration_input) (i : iteration_input)
    (pt : raise_point) (e : exn) (w : world) :
  iterations sch = pre ++ i :: rest ->
  Forall (calm env) pre ->
  Z.of_nat (List.length pre) < total ->
  delivered i = Some (pt, e) ->
  is_keyboard_interrupt e = false ->
  exists w',
    countdown env total task log_number sch w = (Raised e, w')
    /\ is_running w' = true
    /\ remaining_seconds w' = total - Z.of_nat (List.length pre)
    /\ log_file w' = log_file w
    /\ reminder_active w' = reminder_active w
    /\ reminder_thread w' = reminder_thread w
    /\ List.length (threads w') = List.length (threads w).
Proof.
  intros Hiter Hcalm Hlen Hd He.
  unfold countdown. unfold bind at 1.
  destruct (enter_countdown_spec env total w)
    as (w0 & Eenter & Hrun0 & Hp0 & Hrem0 & Hact0 & Hrt0 & Hlog0 & Hth0 & _).
  rewrite Eenter.
  unfold try_finally, try_except. unfold bind at 1.
  destruct (calm_turns env total task pre w0 Hcalm Hp0 Hrun0)
    as (w1 & Epre & Hf1 & _ & Hrem1); [lia | ].
  rewrite Hiter, (countdown_loop_app env _ _ _ _ _ _ Epre).
  rewrite countdown_loop_cons by (eapply pending_means_turning; eauto).
  destruct (raised_turn env total task i w1 pt e Hd)
    as (w2 & E2 & Hf2 & Hrem2).
  rewrite E2, He.
  destruct (restore_terminal_spec env w2) as (w7 & E7 & S7 & _).
  rewrite E7.
  destruct S7 as (Hrun7 & _ & Hact7 & Hrt7 & Hrem7 & Hlog7 & Hth7 & _).
  destruct Hf1 as (Hrun1 & _ & Hact1 & Hrt1 & _ & Hlog1 & Hth1).
  destruct Hf2 as (Hrun2 & _ & Hact2 & Hrt2 & _ & Hlog2 & Hth2).
  exists w7. split; [reflexivity | ].
  split; [congruence | ]. split; [congruence | ]. split; [congruence | ].
  split; [congruence | ]. split; congruence.
Qed.

Lemma error_leaves_session_open_witness :
  exists w',
    countdown (friendly 30) 10 "plank" (Some 1)
      {| iterations :=
           [quiet; quiet;
            {| stdin_poll := NoData;
               delivered := Some (InDisplay, OtherError) |}];
         at_completion := None; at_stop := None |}
      (initial_world one_entry_log)
    = (Raised OtherError, w')
    /\ remaining_seconds w' = 8
    /\ log_file w' = one_entry_log.
Proof.
  destruct (error_leaves_session_open (friendly 30) 10 "plank" (Some 1)
              {| iterations :=
                   [quiet; quiet;
                    {| stdin_poll := NoData;
                       delivered := Some (InDisplay, OtherError) |}];
                 at_completion := None; at_stop := None |}
              [quiet; quiet] []
              {| stdin_poll := NoData;
                 delivered := Some (InDisplay, OtherError) |}
              InDisplay OtherError (initial_world one_entry_log))
    as (w' & E & _ & Hrem & Hlog & _).
  - reflexivity.
  - repeat constructor.
  - simpl. lia.
  - reflexivity.
  - reflexivity.
  - exists w'. split; [exact E | ]. split; [exact Hrem | exact Hlog].
Defined.

(** X16: on Windows [_check_keyboard_input] returns [None] without
    reading anything, so no key can pause the countdown: a call of
    [countdown] does exactly what it does when nothing is typed. *)
Theorem windows_ignores_keys (env : environment) (total : Z)
    (task : string) (log_number : option Z) (sch : schedule) (w : world) :
  win32 env = true ->
  countdown env total task log_number sch w
  = countdown env total task log_number (without_keys sch) w.
Proof.
  intros Hwin.
  unfold countdown, bind, try_finally, try_except.
  destruct (enter_countdown env total w) as [[[] | e | ] w0];
    try reflexivity.
  unfold without_keys at 1. cbn [iterations].
  rewrite <- (countdown_loop_without_keys env total task _ w0 Hwin).
  unfold completion_block, stop_handler. reflexivity.
Qed.

Lemma windows_ignores_keys_witness :
  fst (countdown
         {| audio := audio (friendly 30); win32 := true;
            tcgetattr_ok := true; setcbreak_ok := true;
            tcsetattr_ok := true; log_writable := true |}
         2 "plank" None
         {| iterations := [press "p"; press "P"; quiet];
            at_completion := None; at_stop := None |}
         (initial_world LogAbsent))
  = Ok Completed.
Proof.
  rewrite (windows_ignores_keys
             {| audio := audio (friendly 30); win32 := true;
                tcgetattr_ok := true; setcbreak_ok := true;
                tcsetattr_ok := true; log_writable := true |}
             2 "plank" None
             {| iterations := [press "p"; press "P"; quiet];
                at_completion := None; at_stop := None |}
             (initial_world LogAbsent) eq_refl).
  reflexivity.
Defined.

(** X17: off Windows the pause is toggled by the key [p], in either case,
    and by nothing else: not by another key, nor by the end of the input,
    an empty poll or a failing one. *)
Theorem only_p_toggles_pause (env : environment) (p : poll_result) :
  is_p (_check_keyboard_input env p) = true
  <-> win32 env = false /\ (p = Char "p" \/ p = Char "P").
Proof.
  unfold _check_keyboard_input.
  destruct (win32 env); [split; [discriminate | intros [? _]; discriminate] | ].
  destruct p as [ | | c | ];
    try (split; [discriminate | intros [_ [? | ?]]; discriminate]).
  destruct c as [[] [] [] [] [] [] [] []];
    (split;
     [ intros H; cbv in H;
       first [discriminate H | split; [reflexivity | auto]]
     | intros [_ [H | H]]; first [discriminate H | reflexivity] ]).
Qed.

(** * Whole sessions *)

Section Sessions.

Variable env : environment.

Ltac step_effects :=
  unfold play_beep, play_sound, display_timer, sleep, elapse, emit, modify,
    gets, ret, raise, bind in *.

(** The prompts: the reminder is switched off, time passes, and the
    answers come back. *)
Lemma get_user_input_run (u : user_session) (w : world) :
  exists w',
    get_user_input env u w = (Ok (chosen_total u, chosen_task u), w')
    /\ reminder_active w' = false
    /\ reminder_thread w' = reminder_thread w
    /\ log_file w' = log_file w
    /\ List.length (threads w') = List.length (threads w)
    /\ trace w' = trace w ++ [EvStopReminder].
Proof.
  unfold get_user_input. unfold bind at 1.
  destruct (stop_run env w)
    as (k & w1 & E1 & _ & _ & Hact & Hth & T1 & Hrt & Hlog & _).
  rewrite E1. step_effects. simpl.
  eexists. split; [reflexivity | ]. simpl.
  rewrite length_map, Hth, length_map. repeat split; assumption.
Qed.

(** The three beeps before the start. *)
Lemma lead_in_run (n : nat) (w : world) :
  exists w', lead_in env n w = (Ok tt, w') /\ only_time_passed w w'.
Proof.
  revert w; induction n as [ | n IH]; intros w.
  - exists w. split; [reflexivity | ]. repeat split.
  - cbn [lead_in]. unfold play_beep. unfold bind at 1.
    destruct (perform_spec env
                (guarded (audio env) ClipBeep (once ClipBeep) []) w)
      as (w1 & E1 & S1 & _).
    rewrite E1. unfold bind at 1. unfold sleep, bind at 1, emit, modify.
    unfold elapse, modify.
    match goal with
    | |- context [lead_in env n ?w2] =>
        destruct (IH w2) as (w' & E' & S')
    end.
    rewrite E'. exists w'. split; [reflexivity | ].
    unfold only_time_passed in *. simpl in S'. rewrite length_map in S'.
    intuition congruence.
Qed.

(** The number a session gets is true as a [log_number] when no number in
    the file is negative. *)
Lemma next_number_truthy (logs : list log_entry) :
  Forall (fun l => 0 <= number_or_zero l) logs ->
  truthy (Some (next_number logs)) = true.
Proof.
  intros Hpos. simpl. apply negb_true_iff, Z.eqb_neq.
  destruct logs as [ | l0 rest]; [discriminate | ].
  pose proof (next_number_above (l0 :: rest) l0 (or_introl eq_refl)).
  inversion Hpos; subst. lia.
Qed.

(** What [main] does before it calls [countdown], and what is left to
    do from there. *)
Lemma session_opening (u : user_session) (w : world) :
  log_writable env = true ->
  exists w3 start,
    main_iteration env u w
    = (outcome <- countdown env (chosen_total u) (chosen_task u)
                    (Some (next_number (logs_of w))) (during u) ;;
       elapse env (idle_ticks u) ;;
       ret outcome) w3
    /\ log_file w3
       = LogContent
           (logs_of w
            ++ [started_entry (next_number (logs_of w)) start
                  (chosen_total u) (chosen_task u)])
    /\ reminder_active w3 = false
    /\ reminder_thread w3 = reminder_thread w
    /\ List.length (threads w3) = List.length (threads w).
Proof.
  intros Hw. unfold main_iteration. unfold bind at 1.
  destruct (get_user_input_run u w)
    as (w1 & E1 & Hact1 & Hrt1 & Hlog1 & Hth1 & _).
  rewrite E1. cbn [fst snd]. unfold bind at 1.
  rewrite (log_timer_start_run env _ _ w1 Hw).
  unfold bind at 1.
  match goal with
  | |- context [lead_in env 3 ?w2] =>
      destruct (lead_in_run 3 w2) as (w3 & E3 & S3)
  end.
  rewrite E3.
  destruct S3 as (_ & _ & _ & Hact3 & Hrt3 & _ & _ & Hlog3 & Hth3).
  assert (Hlogs : logs_of w1 = logs_of w)
    by (unfold logs_of; rewrite Hlog1; reflexivity).
  exists w3, (clock w1). rewrite Hlogs.
  split; [reflexivity | ].
  simpl in *. rewrite Hlogs in Hlog3.
  repeat split; congruence.
Qed.

(** The entry of the session is the one its number finds. *)
Lemma update_started_entry (logs : list log_entry) (start : nat)
    (total : Z) (task : string) (update : log_entry -> log_entry) :
  update_first (has_number (next_number logs)) update
    (logs ++ [started_entry (next_number logs) start total task])
  = logs ++ [update (started_entry (next_number logs) start total task)].
Proof.
  apply update_first_at.
  - intros x Hx. apply next_number_fresh. exact Hx.
  - unfold has_number. simpl. apply Z.eqb_refl.
Qed.

(** A session that nothing disturbs, from the prompts to the return to
    the menu. *)
Lemma completed_session_run (u : user_session) (w : world) :
  log_writable env = true ->
  Forall (fun l => 0 <= number_or_zero l) (logs_of w) ->
  Forall (calm env) (iterations (during u)) ->
  at_completion (during u) = None ->
  (Z.to_nat (chosen_total u) <= List.length (iterations (during u)))%nat ->
  exists w' start now,
    main_iteration env u w = (Ok Completed, w')
    /\ log_file w'
       = LogContent
           (logs_of w
            ++ [mark_completed now
                  (started_entry (next_number (logs_of w)) start
                     (chosen_total u) (chosen_task u))])
    /\ reminder_active w' = true
    /\ reminder_thread w' = Some (List.length (threads w))
    /\ List.length (threads w') = S (List.length (threads w)).
Proof.
  intros Hw Hpos Hcalm Hnone Hlen.
  destruct (session_opening u w Hw)
    as (w3 & start & Emain & Hlog3 & Hact3 & Hrt3 & Hth3).
  rewrite Emain. unfold bind at 1.
  destruct (calm_session env (chosen_total u) (chosen_task u)
              (Some (next_number (logs_of w))) (during u) w3
              Hcalm Hnone Hlen)
    as (w4 & pre & mid & post & E4 & _ & _ & _ & Hact4 & Hrt4
        & (ts & Hts & Hlts) & (now & Hlog4)).
  rewrite E4. step_effects. simpl.
  eexists. exists start, now. split; [reflexivity | ]. simpl.
  rewrite (next_number_truthy _ Hpos) in Hlog4.
  unfold saved, log_argument in Hlog4. rewrite Hw in Hlog4.
  assert (Hlogs3 : logs_of w3
                   = logs_of w
                     ++ [started_entry (next_number (logs_of w)) start
                           (chosen_total u) (chosen_task u)])
    by (unfold logs_of at 1; rewrite Hlog3; reflexivity).
  rewrite Hlogs3, update_started_entry in Hlog4.
  split; [exact Hlog4 | ]. split; [exact Hact4 | ].
  split; [congruence | ].
  rewrite length_map, Hts, length_app. simpl. lia.
Qed.



End Sessions.

(** X18: a session that nothing disturbs, run from [main] on a writable
    log none of whose numbers is negative, leaves the log with exactly
    one more entry, after the old ones: it carries the next number and
    the chosen duration and is marked completed; the reminder is active
    again and one more thread runs. *)
Theorem completed_session_is_logged (env : environment) (u : user_session)
    (w : world) :
  log_writable env = true ->
  Forall (fun l => 0 <= number_or_zero l) (logs_of w) ->
  undisturbed env u ->
  exists w' e,
    main_iteration env u w = (Ok Completed, w')
    /\ log_file w' = LogContent (logs_of w ++ [e])
    /\ number e = Some (next_number (logs_of w))
    /\ timer_duration e = chosen_total u
    /\ status e = StatusCompleted /\ completed e = true
    /\ completed_datetime e <> None /\ logged_remaining e = None
    /\ reminder_active w' = true
    /\ List.length (threads w') = S (List.length (threads w)).
Proof.
  intros Hw Hpos (Hcalm & Hnone & Hlen).
  destruct (completed_session_run env u w Hw Hpos Hcalm Hnone Hlen)
    as (w' & start & now & E & Hlog & Hact & _ & Hth).
  exists w'. eexists. split; [exact E | ]. split; [exact Hlog | ].
  simpl. repeat split; try assumption. discriminate.
Qed.

Lemma completed_session_is_logged_witness :
  exists w' e,
    main_iteration (friendly 30) (quick_session "plank" 20)
      (initial_world one_entry_log)
    = (Ok Completed, w')
    /\ logs_of w' = logs_of (initial_world one_entry_log) ++ [e]
    /\ number e = Some 2 /\ completed e = true.
Proof.
  destruct (completed_session_is_logged (friendly 30)
              (quick_session "plank" 20) (initial_world one_entry_log))
    as (w' & e & E & Hlog & Hnum & _ & _ & Hdone & _).
  - reflexivity.
  - cbn. constructor; [cbn; lia | constructor].
  - split; [ | split; [reflexivity | simpl; lia]].
    repeat constructor.
  - exists w', e. split; [exact E | ].
    split; [unfold logs_of at 1; rewrite Hlog; reflexivity | ].
    split; [exact Hnum | exact Hdone].
Defined.







(** * Reading a duration *)

Lemma digit_is_no_space (c : ascii) :
  is_digit c = true -> is_space c = false /\ is_int_space c = false.
Proof.
  destruct c as [[] [] [] [] [] [] [] []]; intros H;
    first [discriminate H | split; reflexivity].
Qed.

Lemma digit_is_no_sign (c : ascii) :
  is_digit c = true ->
  Ascii.eqb c "-" = false /\ Ascii.eqb c "+" = false
  /\ Ascii.eqb c "_" = false.
Proof.
  destruct c as [[] [] [] [] [] [] [] []]; intros H;
    first [discriminate H | repeat split; reflexivity].
Qed.

Lemma contains_app (u : ascii) (x y : string) :
  contains u (x ++ y) = contains u x || contains u y.
Proof.
  induction x as [ | c x IH]; simpl; [reflexivity | ].
  rewrite IH, orb_assoc. reflexivity.
Qed.

Lemma contains_digits (u : ascii) (d : string) :
  is_digit u = false -> all_digits d = true -> contains u d = false.
Proof.
  intros Hu. induction d as [ | c d IH]; simpl; [reflexivity | ].
  intros [Hc Hd]%andb_prop. rewrite (IH Hd), orb_false_r.
  destruct (Ascii.eqb_spec c u) as [-> | _]; [congruence | reflexivity].
Qed.

Lemma all_digits_contains (u : ascii) (s : string) :
  is_digit u = false -> contains u s = true -> all_digits s = false.
Proof.
  intros Hu Hin. destruct (all_digits s) eqn:Hall; [ | reflexivity].
  rewrite (contains_digits u s Hu Hall) in Hin. discriminate.
Qed.

Lemma isdigit_contains (u : ascii) (s : string) :
  is_digit u = false -> contains u s = true -> isdigit s = false.
Proof.
  intros Hu Hin. destruct s; [reflexivity | ].
  apply (all_digits_contains u); assumption.
Qed.

Lemma split_absent (u : ascii) (s : string) :
  contains u s = false -> split u s = [s].
Proof.
  induction s as [ | c s IH]; simpl; [reflexivity | ].
  intros [Hc Hs]%orb_false_elim. rewrite Hc, (IH Hs). reflexivity.
Qed.

Lemma split_at_first (u : ascii) (x y : string) :
  contains u x = false ->
  split u (x ++ String u y) = x :: split u y.
Proof.
  induction x as [ | c x IH]; simpl.
  - intros _. rewrite Ascii.eqb_refl. reflexivity.
  - intros [Hc Hx]%orb_false_elim. rewrite Hc, (IH Hx). reflexivity.
Qed.

Lemma split_length (u : ascii) (s : string) :
  List.length (split u s) = S (occurrences u s).
Proof.
  induction s as [ | c s IH]; simpl; [reflexivity | ].
  destruct (Ascii.eqb c u); simpl; [rewrite IH; reflexivity | ].
  destruct (split u s) as [ | p ps]; simpl in *; [discriminate | exact IH].
Qed.

Lemma occurrences_contains (u : ascii) (s : string) :
  (1 <= occurrences u s)%nat -> contains u s = true.
Proof.
  induction s as [ | c s IH]; simpl; [lia | ].
  destruct (Ascii.eqb c u); simpl; [reflexivity | exact IH].
Qed.

Lemma drop_digits (space : ascii -> bool) (d : string) :
  (forall c, is_digit c = true -> space c = false) ->
  all_digits d = true ->
  drop_left space d = d /\ drop_right space d = d.
Proof.
  intros Hsp. induction d as [ | c d IH]; simpl; [split; reflexivity | ].
  intros [Hc Hd]%andb_prop. rewrite (Hsp c Hc).
  split; [reflexivity | ].
  destruct (IH Hd) as [_ ->]. destruct d; reflexivity.
Qed.

Lemma strip_digits (d : string) : all_digits d = true -> strip d = d.
Proof.
  intros Hd. unfold strip.
  destruct (drop_digits is_space d) as [-> ->]; auto.
  intros c Hc. apply digit_is_no_space. exact Hc.
Qed.

Lemma contains_drop_left (space : ascii -> bool) (u : ascii) (s : string) :
  space u = false -> contains u (drop_left space s) = contains u s.
Proof.
  intros Hu. induction s as [ | c s IH]; simpl; [reflexivity | ].
  destruct (space c) eqn:Hc; [ | reflexivity].
  rewrite IH.
  destruct (Ascii.eqb_spec c u) as [-> | _]; [congruence | reflexivity].
Qed.

Lemma contains_drop_right (space : ascii -> bool) (u : ascii) (s : string) :
  space u = false -> contains u (drop_right space s) = contains u s.
Proof.
  intros Hu. induction s as [ | c s IH]; simpl; [reflexivity | ].
  destruct (drop_right space s) as [ | k kept] eqn:Hk.
  - simpl in IH. rewrite <- IH. destruct (space c) eqn:Hc; simpl.
    + destruct (Ascii.eqb_spec c u) as [-> | _]; [congruence | reflexivity].
    + reflexivity.
  - simpl in *. rewrite IH. reflexivity.
Qed.

Lemma contains_strip (u : ascii) (s : string) :
  is_space u = false -> contains u (strip s) = contains u s.
Proof.
  intros Hu. unfold strip.
  rewrite contains_drop_right, contains_drop_left by exact Hu. reflexivity.
Qed.

Lemma literal_digits (d : string) (acc : Z) (after_digit : bool) :
  all_digits d = true -> d <> EmptyString ->
  literal_value acc after_digit d = Some (decimal_from acc d).
Proof.
  revert acc after_digit. induction d as [ | c d IH]; [congruence | ].
  intros acc b [Hc Hd]%andb_prop _. simpl. rewrite Hc.
  destruct d as [ | c' d']; [reflexivity | ].
  apply IH; [exact Hd | discriminate].
Qed.

Lemma literal_chars (s : string) (acc : Z) (after_digit : bool) (v : Z)
    (u : ascii) :
  literal_value acc after_digit s = Some v -> contains u s = true ->
  is_digit u = true \/ u = "_"%char.
Proof.
  revert acc after_digit. induction s as [ | c s IH]; simpl;
    [discriminate 2 | ].
  intros acc b Hv Hin.
  destruct (Ascii.eqb_spec c u) as [-> | Hne]; simpl in Hin.
  - destruct (is_digit u); [left; reflexivity | ].
    destruct (Ascii.eqb_spec u "_"); [right; assumption | discriminate].
  - destruct (is_digit c); [eapply IH; eauto | ].
    destruct (Ascii.eqb c "_" && b); [eapply IH; eauto | discriminate].
Qed.

Lemma count_digits_length (d : string) :
  all_digits d = true -> count_digits d = String.length d.
Proof.
  induction d as [ | c d IH]; simpl; [reflexivity | ].
  intros [-> Hd]%andb_prop. rewrite (IH Hd). reflexivity.
Qed.

Section Parser.

Variable max_str_digits : nat.

(** [int] of a text of digits. *)
Lemma py_int_digits (d : string) :
  all_digits d = true -> d <> EmptyString ->
  fits max_str_digits d = true ->
  py_int max_str_digits d = Some (decimal d).
Proof.
  intros Hd Hne Hfit. unfold py_int.
  destruct (drop_digits is_int_space d) as [-> ->];
    [intros c Hc; apply digit_is_no_space; exact Hc | exact Hd | ].
  destruct d as [ | c d']; [congruence | ].
  pose proof Hd as [Hc _]%andb_prop.
  destruct (digit_is_no_sign c Hc) as (-> & -> & _). cbn [snd fst].
  rewrite (literal_digits _ 0 false Hd Hne), (count_digits_length _ Hd).
  unfold fits in Hfit. apply orb_true_iff in Hfit.
  destruct Hfit as [Hzero%Nat.eqb_eq | Hle%Nat.leb_le].
  - rewrite Hzero. reflexivity.
  - replace (max_str_digits <? String.length (String c d'))%nat with false
      by (symmetry; apply Nat.ltb_ge; exact Hle).
    rewrite andb_false_r. reflexivity.
Qed.

(** [int] of a text of digits longer than the limit raises. *)
Lemma py_int_long_digits (d : string) :
  all_digits d = true -> d <> EmptyString ->
  fits max_str_digits d = false ->
  py_int max_str_digits d = None.
Proof.
  intros Hd Hne Hfit. unfold py_int.
  destruct (drop_digits is_int_space d) as [-> ->];
    [intros c Hc; apply digit_is_no_space; exact Hc | exact Hd | ].
  destruct d as [ | c d']; [congruence | ].
  pose proof Hd as [Hc _]%andb_prop.
  destruct (digit_is_no_sign c Hc) as (-> & -> & _). cbn [snd fst].
  rewrite (literal_digits _ 0 false Hd Hne), (count_digits_length _ Hd).
  unfold fits in Hfit. apply orb_false_iff in Hfit.
  destruct Hfit as [Hzero%Nat.eqb_neq Hle%Nat.leb_gt].
  replace (0 <? max_str_digits)%nat with true
    by (symmetry; apply Nat.ltb_lt; lia).
  replace (max_str_digits <? String.length (String c d'))%nat with true
    by (symmetry; apply Nat.ltb_lt; exact Hle).
  reflexivity.
Qed.

(** [int] takes digits, underscores, a sign and white space, nothing
    else. *)
Lemma py_int_chars (s : string) (v : Z) (u : ascii) :
  py_int max_str_digits s = Some v -> contains u s = true ->
  is_digit u = true \/ u = "_"%char \/ u = "-"%char \/ u = "+"%char
  \/ is_int_space u = true.
Proof.
  unfold py_int. intros Hv Hin.
  destruct (is_int_space u) eqn:Hsp; [auto | ].
  rewrite <- (contains_drop_left is_int_space u s Hsp),
    <- (contains_drop_right is_int_space u _ Hsp) in Hin.
  destruct (drop_right is_int_space (drop_left is_int_space s))
    as [ | c body] eqn:Ht; [discriminate | ].
  destruct (Ascii.eqb_spec c "-") as [-> | Hminus];
    [ | destruct (Ascii.eqb_spec c "+") as [-> | Hplus] ];
    cbn [snd fst] in Hv;
    match type of Hv with
    | context [literal_value 0 false ?t] =>
        destruct (literal_value 0 false t) as [v' | ] eqn:Hl;
          [ | discriminate]
    end.
  - cbn [contains] in Hin.
    apply orb_true_iff in Hin as [Heq%Ascii.eqb_eq | Hin]; [auto | ].
    destruct (literal_chars _ _ _ _ u Hl Hin); auto.
  - cbn [contains] in Hin.
    apply orb_true_iff in Hin as [Heq%Ascii.eqb_eq | Hin]; [auto 6 | ].
    destruct (literal_chars _ _ _ _ u Hl Hin); auto.
  - destruct (literal_chars _ _ _ _ u Hl Hin); auto.
Qed.

Lemma py_int_rejects (s : string) (u : ascii) :
  contains u s = true ->
  is_digit u = false -> is_int_space u = false ->
  u <> "_"%char -> u <> "-"%char -> u <> "+"%char ->
  py_int max_str_digits s = None.
Proof.
  intros Hin Hd Hsp H1 H2 H3.
  destruct (py_int max_str_digits s) as [v | ] eqn:Hv; [ | reflexivity].
  destruct (py_int_chars s v u Hv Hin) as [? | [? | [? | [? | ?]]]];
    congruence.
Qed.

(** A block of [parse_time_input] whose letter does not occur. *)
Lemma take_unit_absent (u : ascii) (weight total : Z) (s : string) :
  contains u s = false ->
  take_unit max_str_digits u weight total s = Some (total, s).
Proof. intros Hno. unfold take_unit. rewrite Hno. reflexivity. Qed.

(** A block whose letter occurs once, after digits or nothing. *)
Lemma take_unit_present (u : ascii) (weight total : Z) (d rest : string) :
  is_digit u = false ->
  all_digits d = true -> fits max_str_digits d = true ->
  contains u rest = false ->
  take_unit max_str_digits u weight total (d ++ String u rest)
  = Some (total + decimal d * weight, rest).
Proof.
  intros Hu Hd Hfit Hrest. unfold take_unit.
  rewrite contains_app. simpl. rewrite Ascii.eqb_refl, orb_true_r.
  rewrite (split_at_first u d (rest)) by (apply contains_digits; assumption).
  rewrite (split_absent u rest Hrest).
  destruct d as [ | c d']; [reflexivity | ].
  rewrite py_int_digits by (assumption || discriminate). reflexivity.
Qed.

End Parser.

Lemma append_unit (d rest : string) (u : ascii) :
  ((d ++ String u EmptyString) ++ rest)%string
  = (d ++ String u rest)%string.
Proof. induction d as [ | c d IH]; simpl; [ | rewrite IH]; reflexivity. Qed.

Lemma contains_with_unit (v : ascii) (present : bool) (d : string)
    (u : ascii) :
  is_digit v = false -> Ascii.eqb u v = false -> all_digits d = true ->
  contains v (with_unit present d u) = false.
Proof.
  intros Hv Huv Hd. destruct present; [ | reflexivity].
  unfold with_unit. rewrite contains_app, (contains_digits v d Hv Hd).
  simpl. rewrite Huv. reflexivity.
Qed.

(** A block of [parse_time_input] on a text that begins with the number
    and the letter of the block, or without them. *)
Lemma take_unit_optional (max_str_digits : nat) (u : ascii)
    (weight total : Z) (present : bool) (d rest : string) :
  is_digit u = false ->
  all_digits d = true -> fits max_str_digits d = true ->
  contains u rest = false ->
  take_unit max_str_digits u weight total (with_unit present d u ++ rest)
  = Some (total + amount present d * weight, rest).
Proof.
  intros Hu Hd Hfit Hrest. destruct present; unfold with_unit, amount.
  - rewrite append_unit. apply take_unit_present; assumption.
  - simpl. rewrite (take_unit_absent _ _ _ _ _ Hrest).
    rewrite Z.add_0_r. reflexivity.
Qed.

(** X21: the forms the prompt documents are read as documented: a text
    made of a number of hours followed by [h], a number of minutes
    followed by [m], a number of seconds followed by [s] and a bare
    number of seconds, in that order and each of them optional, gives
    3600 times the hours plus 60 times the minutes plus the seconds; a
    letter with no number before it counts for nothing. *)
Theorem documented_forms_are_read (max_str_digits : nat)
    (fh fm fs : bool) (a b c d : string) :
  all_digits a = true -> all_digits b = true -> all_digits c = true ->
  all_digits d = true ->
  fits max_str_digits a = true -> fits max_str_digits b = true ->
  fits max_str_digits c = true -> fits max_str_digits d = true ->
  parse_time_input max_str_digits
    (with_unit fh a "h" ++ with_unit fm b "m" ++ with_unit fs c "s" ++ d)
  = Some (3600 * amount fh a + 60 * amount fm b + amount fs c + decimal d).
Proof.
  intros Ha Hb Hc Hd Fa Fb Fc Fd.
  assert (Hs : contains "s" d = false) by (apply contains_digits; auto).
  assert (Hm : contains "m" (with_unit fs c "s" ++ d) = false).
  { rewrite contains_app, contains_with_unit, contains_digits; auto. }
  assert (Hh : contains "h"
                 (with_unit fm b "m" ++ with_unit fs c "s" ++ d) = false).
  { rewrite !contains_app, !contains_with_unit, contains_digits; auto. }
  unfold parse_time_input.
  destruct (isdigit _) eqn:Hdig.
  - assert (Hflags : fh = false /\ fm = false /\ fs = false).
    { destruct fh.
      { rewrite (isdigit_contains "h") in Hdig; [discriminate | auto | ].
        unfold with_unit at 1. rewrite !contains_app. simpl.
        rewrite orb_true_r. reflexivity. }
      destruct fm.
      { rewrite (isdigit_contains "m") in Hdig; [discriminate | auto | ].
        unfold with_unit at 2. rewrite !contains_app. simpl.
        rewrite !orb_true_r. reflexivity. }
      destruct fs; [ | auto].
      rewrite (isdigit_contains "s") in Hdig; [discriminate | auto | ].
      unfold with_unit at 3. rewrite !contains_app. simpl.
      rewrite !orb_true_r. reflexivity. }
    destruct Hflags as (-> & -> & ->). simpl in *.
    destruct d as [ | c0 d']; [discriminate | ].
    apply py_int_digits; auto. discriminate.
  - rewrite (take_unit_optional _ "h" 3600 0 fh a _ eq_refl Ha Fa Hh).
    rewrite (take_unit_optional _ "m" 60 _ fm b _ eq_refl Hb Fb Hm).
    rewrite (take_unit_optional _ "s" 1 _ fs c _ eq_refl Hc Fc Hs).
    rewrite (strip_digits d Hd) in *.
    destruct d as [ | c0 d'].
    + cbn [isdigit]. f_equal. change (decimal EmptyString) with 0. lia.
    + unfold isdigit. rewrite Hd, py_int_digits by (auto || discriminate).
      f_equal. lia.
Qed.

Lemma documented_forms_are_read_witness :
  parse_time_input 4300 "1h30m" = Some 5400
  /\ parse_time_input 4300 "2h" = Some 7200
  /\ parse_time_input 4300 "h5m" = Some 300
  /\ parse_time_input 4300 "1h30" = Some 3630.
Proof.
  split; [ | split; [ | split]].
  - apply (documented_forms_are_read 4300 true true false "1" "30" "" "");
      reflexivity.
  - apply (documented_forms_are_read 4300 true false false "2" "" "" "");
      reflexivity.
  - apply (documented_forms_are_read 4300 true true false "" "5" "" "");
      reflexivity.
  - apply (documented_forms_are_read 4300 true false false "1" "" "" "30");
      reflexivity.
Defined.

(** X22: on a text in which none of the letters [h], [m], [s] occurs
    [parse_time_input] gives 0 unless the text, stripped of the white
    space around it, is digits only: a sign, a decimal point or any other
    word is read as 0 and nothing is raised.  Digits only give the number
    they denote, except when they are more than the digit limit of [int]
    ([sys.get_int_max_str_digits()], 4300 unless changed, 0 for no
    limit): then [int] raises [ValueError]. *)
Theorem text_without_unit_is_number_or_zero (max_str_digits : nat)
    (time_str : string) :
  contains "h" time_str = false -> contains "m" time_str = false ->
  contains "s" time_str = false ->
  parse_time_input max_str_digits time_str
  = if isdigit (strip time_str)
    then
      if (max_str_digits =? 0)%nat
         || (String.length (strip time_str) <=? max_str_digits)%nat
      then Some (decimal (strip time_str))
      else None
    else Some 0.
Proof.
  intros Hh Hm Hs. fold (fits max_str_digits (strip time_str)).
  unfold parse_time_input.
  destruct (isdigit time_str) eqn:Hdig.
  - assert (Hall : all_digits time_str = true)
      by (destruct time_str; [discriminate | exact Hdig]).
    assert (Hne : time_str <> EmptyString)
      by (destruct time_str; discriminate).
    rewrite (strip_digits _ Hall) in *. rewrite Hdig.
    destruct (fits max_str_digits time_str) eqn:Hfit.
    + apply py_int_digits; auto.
    + apply py_int_long_digits; auto.
  - rewrite !take_unit_absent by assumption.
    destruct (isdigit (strip time_str)) eqn:Hstrip; [ | reflexivity].
    assert (Hall : all_digits (strip time_str) = true)
      by (destruct (strip time_str); [discriminate | exact Hstrip]).
    assert (Hne : strip time_str <> EmptyString)
      by (destruct (strip time_str); discriminate).
    destruct (fits max_str_digits (strip time_str)) eqn:Hfit.
    + rewrite py_int_digits; auto.
    + rewrite py_int_long_digits; auto.
Qed.

Lemma text_without_unit_is_number_or_zero_witness :
  parse_time_input 4300 "-5" = Some 0
  /\ parse_time_input 4300 "1.5" = Some 0
  /\ parse_time_input 4300 " 90 " = Some 90
  /\ parse_time_input 3 "1234" = None.
Proof.
  split; [ | split; [ | split]].
  - apply (text_without_unit_is_number_or_zero 4300 "-5"); reflexivity.
  - apply (text_without_unit_is_number_or_zero 4300 "1.5"); reflexivity.
  - apply (text_without_unit_is_number_or_zero 4300 " 90 "); reflexivity.
  - apply (text_without_unit_is_number_or_zero 3 "1234"); reflexivity.
Defined.

(** X23: the units are only read in the order hours, minutes, seconds: a
    text with one [h] that has an [m] or an [s] before it, and a text
    without [h] and with one [m] that has an [s] before it, make
    [parse_time_input] raise [ValueError]. *)
Theorem units_out_of_order_raise (max_str_digits : nat)
    (before after : string) :
  (contains "h" before = false -> contains "h" after = false ->
   contains "m" before = true \/ contains "s" before = true ->
   parse_time_input max_str_digits (before ++ String "h" after) = None)
  /\ (contains "h" before = false -> contains "h" after = false ->
      contains "m" before = false -> contains "m" after = false ->
      contains "s" before = true ->
      parse_time_input max_str_digits (before ++ String "m" after) = None).
Proof.
  split.
  - intros Hb Ha Hletter. unfold parse_time_input.
    rewrite (isdigit_contains "h")
      by (auto; rewrite contains_app; simpl; apply orb_true_r).
    unfold take_unit at 1.
    rewrite contains_app. cbn [contains]. rewrite Ascii.eqb_refl, orb_true_r.
    rewrite (split_at_first "h" before after Hb), (split_absent "h" after Ha).
    destruct before as [ | c0 rest];
      [destruct Hletter; discriminate | ].
    destruct Hletter as [Hm | Hs];
      [ rewrite (py_int_rejects _ _ "m" Hm)
      | rewrite (py_int_rejects _ _ "s" Hs) ];
      try reflexivity; discriminate.
  - intros Hb Ha Hmb Hma Hletter. unfold parse_time_input.
    rewrite (isdigit_contains "m")
      by (auto; rewrite contains_app; simpl; apply orb_true_r).
    rewrite take_unit_absent
      by (rewrite contains_app; cbn [contains]; rewrite Hb, Ha; reflexivity).
    unfold take_unit at 1.
    rewrite contains_app. cbn [contains]. rewrite Ascii.eqb_refl, orb_true_r.
    rewrite (split_at_first "m" before after Hmb),
      (split_absent "m" after Hma).
    destruct before as [ | c0 rest]; [discriminate | ].
    rewrite (py_int_rejects _ _ "s" Hletter); try reflexivity;
      discriminate.
Qed.

Lemma units_out_of_order_raise_witness :
  parse_time_input 4300 "30m1h" = None
  /\ parse_time_input 4300 "5s2m" = None.
Proof.
  split.
  - apply (proj1 (units_out_of_order_raise 4300 "30m1" ""));
      [reflexivity | reflexivity | left; reflexivity].
  - apply (proj2 (units_out_of_order_raise 4300 "5s2" "")); reflexivity.
Defined.

(** X24: a unit letter that occurs more than once is not read at all:
    when the text holds no other unit letter, [parse_time_input] gives 0
    without raising, whatever numbers the text holds. *)
Theorem repeated_unit_counts_for_nothing (max_str_digits : nat)
    (unit : ascii) (time_str : string) :
  unit = "h"%char \/ unit = "m"%char \/ unit = "s"%char ->
  (2 <= occurrences unit time_str)%nat ->
  (forall other,
      other = "h"%char \/ other = "m"%char \/ other = "s"%char ->
      other <> unit -> contains other time_str = false) ->
  parse_time_input max_str_digits time_str = Some 0.
Proof.
  intros Hunit Htwice Hothers.
  assert (Hin : contains unit time_str = true)
    by (apply occurrences_contains; lia).
  assert (Hletter : is_digit unit = false /\ is_space unit = false)
    by (destruct Hunit as [-> | [-> | ->]]; split; reflexivity).
  destruct Hletter as [Hnd Hns].
  assert (Hskip : forall weight total,
            take_unit max_str_digits unit weight total time_str
            = Some (total, time_str)).
  { intros weight total. unfold take_unit. rewrite Hin.
    pose proof (split_length unit time_str) as Hlen.
    destruct (split unit time_str) as [ | p0 [ | p1 [ | p2 ps]]];
      simpl in Hlen; try lia; reflexivity. }
  assert (Htail : isdigit (strip time_str) = false).
  { apply (isdigit_contains unit); [exact Hnd | ].
    rewrite contains_strip by exact Hns. exact Hin. }
  unfold parse_time_input.
  rewrite (isdigit_contains unit _ Hnd Hin).
  destruct Hunit as [-> | [-> | ->]].
  - rewrite Hskip.
    rewrite !take_unit_absent by (apply Hothers; [auto | discriminate]).
    rewrite Htail. reflexivity.
  - rewrite take_unit_absent by (apply Hothers; [auto | discriminate]).
    rewrite Hskip.
    rewrite take_unit_absent by (apply Hothers; [auto | discriminate]).
    rewrite Htail. reflexivity.
  - rewrite !take_unit_absent by (apply Hothers; [auto | discriminate]).
    rewrite Hskip, Htail. reflexivity.
Qed.

Lemma repeated_unit_counts_for_nothing_witness :
  parse_time_input 4300 "1h1h" = Some 0
  /\ parse_time_input 4300 "10m 5m" = Some 0.
Proof.
  split.
  - apply (repeated_unit_counts_for_nothing 4300 "h" "1h1h");
      [auto | simpl; lia | ].
    intros other [-> | [-> | ->]] Hne; try reflexivity; congruence.
  - apply (repeated_unit_counts_for_nothing 4300 "m" "10m 5m");
      [auto | simpl; lia | ].
    intros other [-> | [-> | ->]] Hne; try reflexivity; congruence.
Defined.

(** * What the screen and the scheduler are given *)

Section Adding.

Variable P : list event -> Prop.
Hypothesis P_nil : P [].
Hypothesis P_app : forall xs ys, P xs -> P ys -> P (xs ++ ys).

Lemma adds_weaken {A : Type} (I : world -> Prop) (c : M A) :
  adds_from anywhere P c -> adds_from I P c.
Proof. intros Hc w _. apply Hc. exact Logic.I. Qed.

Lemma adds_ret {A : Type} (x : A) : adds_from anywhere P (ret x).
Proof. intros w _. exists []. simpl. rewrite app_nil_r. auto. Qed.

Lemma adds_raise {A : Type} (e : exn) : adds_from anywhere P (@raise A e).
Proof. intros w _. exists []. simpl. rewrite app_nil_r. auto. Qed.

Lemma adds_gets {A : Type} (f : world -> A) : adds_from anywhere P (gets f).
Proof. intros w _. exists []. simpl. rewrite app_nil_r. auto. Qed.

Lemma adds_emit (e : event) : P [e] -> adds_from anywhere P (emit e).
Proof. intros He w _. exists [e]. split; [reflexivity | exact He]. Qed.

Lemma adds_modify (f : world -> world) :
  (forall w, trace (f w) = trace w) -> adds_from anywhere P (modify f).
Proof.
  intros Hf w _. exists []. simpl. rewrite app_nil_r. split; [apply Hf | auto].
Qed.

Lemma adds_bind {A B : Type} (I : world -> Prop) (c : M A) (k : A -> M B) :
  adds_from I P c -> (forall x, adds_from anywhere P (k x)) ->
  adds_from I P (bind c k).
Proof.
  intros Hc Hk w Hw. unfold bind.
  destruct (Hc w Hw) as (evs1 & T1 & P1).
  destruct (c w) as [[x | e | ] w1]; simpl in T1.
  - destruct (Hk x w1 Logic.I) as (evs2 & T2 & P2).
    exists (evs1 ++ evs2). rewrite T2, T1, app_assoc. auto.
  - exists evs1. auto.
  - exists evs1. auto.
Qed.

Lemma adds_try_except {A : Type} (I : world -> Prop) (sel : exn -> bool)
    (body handler : M A) :
  adds_from I P body -> adds_from anywhere P handler ->
  adds_from I P (try_except sel body handler).
Proof.
  intros Hb Hh w Hw. unfold try_except.
  destruct (Hb w Hw) as (evs1 & T1 & P1).
  destruct (body w) as [[x | e | ] w1]; simpl in T1;
    try (exists evs1; auto; fail).
  destruct (sel e); [ | exists evs1; auto].
  destruct (Hh w1 Logic.I) as (evs2 & T2 & P2).
  exists (evs1 ++ evs2). rewrite T2, T1, app_assoc. auto.
Qed.

Lemma adds_try_finally {A : Type} (I : world -> Prop) (body : M A)
    (fin : M unit) :
  adds_from I P body -> adds_from anywhere P fin ->
  adds_from I P (try_finally body fin).
Proof.
  intros Hb Hf w Hw. unfold try_finally.
  destruct (Hb w Hw) as (evs1 & T1 & P1).
  destruct (body w) as [[x | e | ] w1]; simpl in T1;
    try (exists evs1; auto; fail);
    destruct (Hf w1 Logic.I) as (evs2 & T2 & P2);
    destruct (fin w1) as [[[] | e' | ] w2]; simpl in T2;
    exists (evs1 ++ evs2); simpl; rewrite T2, T1, app_assoc; auto.
Qed.

Lemma adds_if {A : Type} (I : world -> Prop) (b : bool) (c1 c2 : M A) :
  adds_from I P c1 -> adds_from I P c2 ->
  adds_from I P (if b then c1 else c2).
Proof. destruct b; auto. Qed.

End Adding.

Lemma displays_of_app (xs ys : list event) :
  displays_of (xs ++ ys) = displays_of xs ++ displays_of ys.
Proof. apply flat_map_app. Qed.

Lemma displays_of_audio (ops : list audio_op) :
  displays_of (map EvAudio ops) = [].
Proof. induction ops; simpl; auto. Qed.

Lemma displays_of_term_events (cs : list (term_call * bool)) :
  displays_of (map term_event cs) = [].
Proof. induction cs; simpl; auto. Qed.

Lemma shown_within_nil (lo hi : Z) : shown_within lo hi [].
Proof. split; constructor. Qed.

Lemma shown_within_app (lo hi : Z) (xs ys : list event) :
  shown_within lo hi xs -> shown_within lo hi ys ->
  shown_within lo hi (xs ++ ys).
Proof.
  intros [D1 C1] [D2 C2]. unfold shown_within.
  rewrite displays_of_app, checks_of_app. split; apply Forall_app; auto.
Qed.

(** Events that show nothing. *)
Lemma shown_within_silent (lo hi : Z) (evs : list event) :
  displays_of evs = [] -> checks_of evs = [] -> shown_within lo hi evs.
Proof. intros Hd Hc. unfold shown_within. rewrite Hd, Hc. split; constructor. Qed.

Section Shown.

Variable env : environment.
Variable total : Z.
Variable task : string.

Ltac side := try apply shown_within_app; try apply shown_within_nil.

Ltac quiet_step :=
  first
    [ solve [apply adds_ret; side]
    | solve [apply adds_raise; side]
    | solve [apply adds_gets; side]
    | solve [apply adds_emit; side; apply shown_within_silent; reflexivity]
    | solve [apply adds_modify; side; intros; reflexivity]
    | solve [auto] ].

Ltac quietly :=
  repeat first
    [ quiet_step
    | apply adds_bind; side; [ | intros ? ]
    | apply adds_if
    | apply adds_try_except; side
    | apply adds_try_finally; side
    | match goal with
      | |- adds_from _ _ (match ?x with _ => _ end) => destruct x
      end ].

Lemma perform_shows_nothing (ops : list audio_op) :
  adds_from anywhere (shown_within 0 total) (perform env ops).
Proof.
  intros w _. destruct (perform_spec env ops w) as (w' & E & _ & T).
  rewrite E. exists (map EvAudio ops). split; [exact T | ].
  apply shown_within_silent; [apply displays_of_audio | apply checks_of_audio].
Qed.

Lemma restore_shows_nothing :
  adds_from anywhere (shown_within 0 total) (restore_terminal env).
Proof.
  unfold restore_terminal, tcsetattr. quietly.
Qed.

Lemma elapse_shows_nothing (n : nat) :
  adds_from anywhere (shown_within 0 total) (elapse env n).
Proof. unfold elapse. quietly. Qed.

Lemma completion_shows_nothing (log_number : option Z) (sch : schedule) :
  adds_from anywhere (shown_within 0 total)
    (completion_block env total task log_number sch).
Proof.
  pose proof restore_shows_nothing. pose proof elapse_shows_nothing.
  pose proof perform_shows_nothing.
  unfold completion_block, raise_if, play_sound, sleep,
    start_reminder_thread, log_timer_complete, _load_logs, _save_logs.
  quietly.
Qed.

Lemma stop_handler_shows_nothing (log_number : option Z) (sch : schedule) :
  adds_from anywhere (shown_within 0 total)
    (stop_handler env task log_number sch).
Proof.
  pose proof restore_shows_nothing. pose proof elapse_shows_nothing.
  unfold stop_handler, raise_if, sleep, log_timer_stop, _load_logs,
    _save_logs.
  quietly.
Qed.

End Shown.

#[local] Hint Rewrite displays_of_app displays_of_audio
  displays_of_term_events : trace.

Section ShownLoop.

Variable env : environment.
Variable total : Z.
Variable task : string.

Ltac step_effects :=
  unfold play_beep, play_sound, display_timer, sleep, elapse, emit, modify,
    gets, ret, raise, bind in *.

Ltac run_audio :=
  match goal with
  | |- context [perform env ?ops ?w1] =>
      let w2 := fresh "w" in
      let E := fresh "E" in
      let S := fresh "S" in
      let T := fresh "T" in
      destruct (perform_spec env ops w1) as (w2 & E & S & T);
      rewrite E; clear E;
      destruct S as (? & ? & ? & ? & ? & ? & ? & ? & ?)
  end.

(** Whatever a turn of the loop draws or checks, it is the value of
    [remaining_seconds] the turn began with; and the turn does not raise
    that value. *)
Lemma loop_body_shows (i : iteration_input) (w : world) :
  exists evs,
    trace (snd (loop_body env total task i w)) = trace w ++ evs
    /\ Forall (eq (remaining_seconds w)) (displays_of evs)
    /\ Forall (eq (remaining_seconds w)) (checks_of evs)
    /\ remaining_seconds (snd (loop_body env total task i w))
       <= remaining_seconds w.
Proof.
  unfold loop_body. cbv zeta.
  destruct (is_p (_check_keyboard_input env (stdin_poll i)));
    unfold interruptible, _toggle_pause;
    destruct (delivered i) as [[[ | ] e] | ];
    destruct (is_paused w) eqn:Hp;
    step_effects; simpl; rewrite ?Hp; simpl;
    repeat run_audio;
    try (destruct (remaining_seconds w <=? 5) eqn:Hfive; repeat run_audio);
    simpl in *;
    (eexists; split;
     [simpl; repeat match goal with T : trace _ = _ |- _ =>
                      rewrite T; clear T end;
      simpl; rewrite <- ?app_assoc;
      first [reflexivity | symmetry; apply app_nil_r] | ]);
    autorewrite with trace; simpl;
    (split; [repeat constructor | ]);
    (split; [repeat constructor | ]);
    lia.
Qed.

(** The loop, from a value that does not exceed [total]. *)
Lemma countdown_loop_shows (inputs : list iteration_input) :
  adds_from (fun w => remaining_seconds w <= total) (shown_within 0 total)
    (countdown_loop env total task inputs).
Proof.
  induction inputs as [ | i rest IH]; intros w Hw; simpl;
    destruct ((remaining_seconds w >? 0) && is_running w) eqn:Hc;
    try (exists []; simpl; rewrite app_nil_r;
         split; [reflexivity | apply shown_within_nil]).
  apply andb_prop in Hc as [Hpos%Z.gtb_lt _].
  unfold bind.
  destruct (loop_body_shows i w) as (evs1 & T1 & D1 & C1 & Hle).
  assert (P1 : shown_within 0 total evs1).
  { split; [eapply Forall_impl; [ | exact D1]
           | eapply Forall_impl; [ | exact C1] ];
      intros r <-; lia. }
  destruct (loop_body env total task i w) as [[[] | e | ] w1];
    simpl in T1, Hle; try (exists evs1; split; assumption).
  destruct (IH w1) as (evs2 & T2 & P2); [lia | ].
  exists (evs1 ++ evs2). rewrite T2, T1, app_assoc.
  split; [reflexivity | apply shown_within_app; assumption].
Qed.

End ShownLoop.

(** X25: whatever is typed and whatever is raised, every screen
    [countdown] draws and every call it makes to the scheduler is for a
    value of [remaining_seconds] between 1 and [total]: the scheduler is
    never asked about 0, a threshold above [total] is never reached, and
    the branch of [display_timer] for a time that has run out is never
    taken. *)
Theorem countdown_shows_only_running_values (env : environment)
    (total : Z) (task : string) (log_number : option Z) (sch : schedule)
    (w : world) :
  exists evs,
    trace (snd (countdown env total task log_number sch w)) = trace w ++ evs
    /\ Forall (fun r => 0 < r <= total) (displays_of evs)
    /\ Forall (fun r => 0 < r <= total) (checks_of evs).
Proof.
  assert (Hrest : adds_from (fun w0 => remaining_seconds w0 <= total)
                    (shown_within 0 total)
                    (try_finally
                       (try_except is_keyboard_interrupt
                          (countdown_loop env total task (iterations sch) ;;
                           running <- gets is_running ;;
                           if running
                           then completion_block env total task log_number
                                  sch
                           else ret Neither)
                          (stop_handler env task log_number sch))
                       (restore_terminal env))).
  { apply adds_try_finally;
      try apply shown_within_app; try apply shown_within_nil;
      [ | apply restore_shows_nothing].
    apply adds_try_except;
      try apply shown_within_app; try apply shown_within_nil;
      [ | apply stop_handler_shows_nothing].
    apply adds_bind;
      try apply shown_within_app; try apply shown_within_nil;
      [apply countdown_loop_shows | intros _].
    apply adds_bind;
      try apply shown_within_app; try apply shown_within_nil;
      [apply adds_gets; apply shown_within_nil | intros running].
    destruct running;
      [apply completion_shows_nothing
      | apply adds_ret; apply shown_within_nil]. }
  unfold countdown. unfold bind at 1.
  destruct (enter_countdown_spec env total w)
    as (w0 & Eenter & _ & _ & Hrem0 & _ & _ & _ & _ & _ & _ & _ & T0).
  rewrite Eenter.
  destruct (Hrest w0) as (evs & T & [Hd Hc]); [lia | ].
  exists (map term_event (acquire_calls env) ++ evs).
  rewrite T, T0, <- app_assoc. split; [reflexivity | ].
  autorewrite with trace. simpl.
  split; assumption.
Qed.
